(** * Chinese copybook generator: Layout, character placement and pagination

    Shallow embedding of [src/utils/canvas-generator.js] (class
    [CanvasGenerator]), of the PDF generator (class [PDFGenerator]) and of
    the API routes, followed by the properties of the layout calculator,
    the character placer, the page paginator and the request handlers.

    Conventions of the embedding:
    - a JavaScript string is the list of its UTF-16 code units ([N]);
    - JavaScript numbers that the code only ever uses as integers (grid
      counts, pixel sizes, indices, lengths) are [Z], and they stay far
      below 2^53, where doubles are exact; where a caller's number is
      parsed ([parseInt]), the result is the double JavaScript obtains;
    - the numbers the code computes with fractions (font size, placement
      of a bitmap on a sheet) are binary64 floats;
    - opacities are [Q]: the code only compares and copies them;
    - a drawing surface is the log of the drawing calls made on it;
    - [throw new Error(msg)] is the [Throw msg] result. *)

From Stdlib Require Import ZArith QArith Qround Qabs List Bool Lia String Ascii.
From Stdlib Require Import Lqa Floats Uint63.
Import ListNotations.
Open Scope Z_scope.

(* ===================================================================== *)
(** ** JavaScript values and the built-ins the generators rely on        *)
(* ===================================================================== *)

Module Js.

(** A string is a sequence of UTF-16 code units. *)
Definition code_unit := N.
Definition jsstring := list code_unit.

(** The code units of an ASCII literal. *)
Definition lit (s : string) : jsstring :=
  map N_of_ascii (list_ascii_of_string s).

(** [WhiteSpace] and [LineTerminator] of ECMAScript: the class matched by
    [\s] in a regular expression and stripped by [String.prototype.trim]. *)
Definition is_whitespace (c : code_unit) : bool :=
  ((9 <=? c) && (c <=? 13) || (c =? 32) || (c =? 160) || (c =? 5760)
   || (8192 <=? c) && (c <=? 8202) || (c =? 8232) || (c =? 8233)
   || (c =? 8239) || (c =? 8287) || (c =? 12288) || (c =? 65279))%N.

Fixpoint trimStart (s : jsstring) : jsstring :=
  match s with
  | c :: s' => if is_whitespace c then trimStart s' else s
  | [] => []
  end.

Definition trimEnd (s : jsstring) : jsstring := rev (trimStart (rev s)).

(** [s.trim()] *)
Definition trim (s : jsstring) : jsstring := trimEnd (trimStart s).

(** [s.replace(/\s+/g, '')]: every maximal run of white space is replaced
    by the empty string, which leaves the other code units in order. *)
Definition replace_ws (s : jsstring) : jsstring :=
  filter (fun c => negb (is_whitespace c)) s.

(** [s.split('')]: one string per code unit. *)
Definition split_units (s : jsstring) : list jsstring :=
  map (fun c => [c]) s.

(** [a.join('')] *)
Definition join (a : list jsstring) : jsstring := List.concat a.

(** Truthiness of a string: the empty string is the only falsy one. *)
Definition truthy_string (s : jsstring) : bool :=
  match s with [] => false | _ => true end.

(** [s.length] and [a.length] *)
Definition length {A : Type} (l : list A) : Z := Z.of_nat (List.length l).

(** [a.slice(start, end)] with the relative-index rules of
    [Array.prototype.slice]. *)
Definition rel_index (len i : Z) : Z :=
  if i <? 0 then Z.max (len + i) 0 else Z.min i len.

Definition slice {A : Type} (a : list A) (start fin : Z) : list A :=
  let len := length a in
  let k := rel_index len start in
  let final := rel_index len fin in
  firstn (Z.to_nat (Z.max (final - k) 0)) (skipn (Z.to_nat k) a).

(** [Math.ceil(a / b)] for integers [a] and [b <> 0]. *)
Definition ceil_div (a b : Z) : Z := - ((- a) / b).

(** The values a caller can pass where the code expects a number or a
    string.  Numbers are the integer-valued ones: [Num n] is the number
    [Number(n)], and a magnitude of 2^1024 or more, beyond every finite
    double, stands for [Infinity] or [-Infinity]. *)
Inductive value : Type :=
| Undefined
| Null
| Bool (b : bool)
| Num (n : Z)
| Str (s : jsstring).

(** Digit value of a code unit in radix 10 or 16. *)
Definition digit_of (radix : Z) (c : code_unit) : option Z :=
  let z := Z.of_N c in
  if (48 <=? z) && (z <=? 57) then Some (z - 48)
  else if (radix =? 16) && (97 <=? z) && (z <=? 102) then Some (z - 87)
  else if (radix =? 16) && (65 <=? z) && (z <=? 70) then Some (z - 55)
  else None.

(** Longest prefix of digits, most significant first; [acc] is [None]
    until a digit has been read. *)
Fixpoint read_digits (radix : Z) (s : jsstring) (acc : option Z) : option Z :=
  match s with
  | c :: s' =>
      match digit_of radix c with
      | Some d =>
          read_digits radix s'
            (Some (match acc with Some a => a * radix + d | None => d end))
      | None => acc
      end
  | [] => acc
  end.

(** The integer [parseInt(s)] reads in a string, radix argument absent:
    leading white space is skipped, then an optional sign, then an optional
    [0x]/[0X] prefix that selects radix 16; the result is [None] ([NaN])
    when no digit follows. *)
Definition parseInt_string (s : jsstring) : option Z :=
  let s1 := trimStart s in
  let '(sign, s2) :=
    match s1 with
    | 45%N :: r => (-1, r)
    | 43%N :: r => (1, r)
    | _ => (1, s1)
    end in
  let '(radix, s3) :=
    match s2 with
    | 48%N :: 120%N :: r => (16, r)
    | 48%N :: 88%N :: r => (16, r)
    | _ => (10, s2)
    end in
  match read_digits radix s3 None with
  | Some n => Some (sign * n)
  | None => None
  end.

(** [Number(z)] for an integer [z]: the nearest double, ties to the even
    significand; integers below 2^53 are doubles, and what rounds beyond
    the largest finite double becomes an infinity. *)
Definition to_double (z : Z) : Z :=
  let a := Z.abs z in
  if a <? 2 ^ 53 then z
  else
    let e := Z.log2 a - 52 in
    let q := Z.shiftr a e in
    let r := a - Z.shiftl q e in
    let half := Z.shiftl 1 (e - 1) in
    let q := if (half <? r) || ((r =? half) && Z.odd q) then q + 1 else q in
    let a := Z.shiftl q e in
    Z.sgn z * (if 2 ^ 1024 <=? a then 2 ^ 1024 else a).

(** The decimal exponent [k] of [n >= 1]: [10^k <= n < 10^(k+1)]. *)
Fixpoint decimal_exponent_from (fuel : nat) (n : Z) : Z :=
  match fuel with
  | O => 0
  | S fuel' => if n <? 10 then 0 else 1 + decimal_exponent_from fuel' (n / 10)
  end.

Definition decimal_exponent (n : Z) : Z :=
  decimal_exponent_from (Z.to_nat (Z.log2 n)) n.

(** First digit of [String(n)] for a finite double [n >= 10^21], which
    prints in exponent notation.  [Number::toString] prints the shortest
    numeral that reads back as [n], so the digit is [d] when [d * 10^k]
    rounds to [n] (the bounds of the rounding interval count when the
    significand of [n] is even), and the first digit of [n] itself
    otherwise. *)
Definition exponent_lead (n : Z) : Z :=
  let e := Z.log2 n - 52 in
  let m := Z.shiftr n e in
  let up := Z.shiftl 1 (e - 1) in
  let down := if m =? 2 ^ 52 then Z.shiftl 1 (e - 2) else up in
  let within x :=
    if Z.even m then (n - down <=? x) && (x <=? n + up)
    else (n - down <? x) && (x <? n + up) in
  let p := 10 ^ decimal_exponent n in
  match find (fun d => within (d * p)) [1; 2; 3; 4; 5; 6; 7; 8; 9; 10] with
  | Some d => if d =? 10 then 1 else d
  | None => n / p
  end.

(** [parseInt(n)] on a number: [String(n)] is parsed.  Below 10^21 it is
    the decimal numeral of [n], which reads back as [n]; from 10^21 on it
    is in exponent notation ([1e+21]) and only the digit before the point
    or the [e] is read; ["Infinity"] holds no digit. *)
Definition parseInt_number (n : Z) : option Z :=
  let d := to_double n in
  if Z.abs d <? 10 ^ 21 then Some d
  else if 2 ^ 1024 <=? Z.abs d then None
  else Some (Z.sgn d * exponent_lead (Z.abs d)).

(** [parseInt(v)]: the argument is first converted to a string, and the
    integer read is returned as a number; ["undefined"], ["null"],
    ["true"] and ["false"] hold no digit. *)
Definition parseInt (v : value) : option Z :=
  match v with
  | Num n => parseInt_number n
  | Str s => option_map to_double (parseInt_string s)
  | Undefined | Null | Bool _ => None
  end.

(** [x || d] for a number [x]: [NaN] and [0] are falsy. *)
Definition or_num (x : option Z) (d : Z) : Z :=
  match x with
  | Some n => if n =? 0 then d else n
  | None => d
  end.

(** [x || d] for an opacity that may be absent. *)
Definition or_opacity (x : option Q) (d : Q) : Q :=
  match x with
  | Some q => if Qeq_bool q 0 then d else q
  | None => d
  end.

(** A parameter default [p = d]: used when the argument is [undefined]. *)
Definition param_default (v : value) (d : Z) : value :=
  match v with Undefined => Num d | _ => v end.

(** [Math.max] and [Math.min] on opacities. *)
Definition Qmax2 (a b : Q) : Q := if Qle_bool a b then b else a.
Definition Qmin2 (a b : Q) : Q := if Qle_bool a b then a else b.

(** *** Doubles

    Where the code computes with numbers that are not integers (the font
    size, the placement of a bitmap on a sheet), the numbers are binary64
    floats. *)

(** The double of an integer; exact below 2^53 in magnitude (the
    conversion is meant for integers below 2^63). *)
Definition number (z : Z) : float :=
  if z <? 0 then PrimFloat.opp (PrimFloat.of_uint63 (Uint63.of_Z (- z)))
  else PrimFloat.of_uint63 (Uint63.of_Z z).

Definition is_finite (x : float) : bool :=
  match Prim2SF x with
  | S754_zero _ | S754_finite _ _ _ => true
  | _ => false
  end.

(** The rational a finite double stands for (0 for an infinity or [NaN],
    which no caller passes). *)
Definition rational (x : float) : Q :=
  match Prim2SF x with
  | S754_finite s m e =>
      let v := if 0 <=? e then inject_Z (Z.pos m * 2 ^ e)
               else Z.pos m # Pos.pow 2 (Z.to_pos (- e)) in
      if s then Qopp v else v
  | _ => 0%Q
  end.

(** [Math.floor(x)] of a finite double. *)
Definition Math_floor (x : float) : Z := Qfloor (rational x).

(** [Math.min(a, b)] on doubles: [NaN] if either is [NaN]. *)
Definition Math_min (a b : float) : float :=
  if PrimFloat.ltb a b then a
  else if PrimFloat.ltb b a then b
  else if PrimFloat.eqb a b then
    (match Prim2SF a with S754_zero true => a | _ => b end)
  else PrimFloat.nan.

(** Outcome of a call that may throw. *)
Inductive result (A : Type) : Type :=
| Ok (a : A)
| Throw (message : string).
Arguments Ok {A} a.
Arguments Throw {A} message.

End Js.

(* ===================================================================== *)
(** ** [CanvasGenerator] (src/utils/canvas-generator.js)                  *)
(* ===================================================================== *)

Module CanvasGenerator.
Import Js.

(** *** Constructor constants *)

Definition A4_WIDTH_MM : Q := inject_Z 210.
Definition A4_HEIGHT_MM : Q := inject_Z 297.
Definition DPI : Q := inject_Z 300.
(** [Math.floor((mm / 25.4) * DPI)]; both products are more than 0.1 away
    from an integer, so rounding to double cannot change the floor. *)
Definition A4_WIDTH_PX : Z := Qfloor ((A4_WIDTH_MM / (254 # 10)) * DPI).
Definition A4_HEIGHT_PX : Z := Qfloor ((A4_HEIGHT_MM / (254 # 10)) * DPI).
Definition padding : Z := 40.

(** *** Layout *)

Record Layout : Type := mkLayout {
  cellSize : Z;
  totalWidth : Z;
  totalHeight : Z;
  charsPerRow : Z;
  rowCount : Z
}.

(** [calculateA4Layout(charsPerRow, rowCount)].  [Math.floor(a / b)] is
    [a / b] on [Z] for every [b <> 0]; the only caller passes counts that
    are already clamped to be at least 1. *)
Definition calculateA4Layout (charsPerRow rowCount : Z) : Layout :=
  let contentWidth := A4_WIDTH_PX - (2 * padding) in
  let contentHeight := A4_HEIGHT_PX - (2 * padding) in
  let cellWidth := contentWidth / charsPerRow in
  let cellHeight := contentHeight / rowCount in
  let optimalCellSize := Z.min cellWidth cellHeight in
  let totalWidth := charsPerRow * optimalCellSize + (2 * padding) in
  let totalHeight := rowCount * optimalCellSize + (2 * padding) in
  {| cellSize := optimalCellSize;
     totalWidth := totalWidth;
     totalHeight := totalHeight;
     charsPerRow := charsPerRow;
     rowCount := rowCount |}.

(** *** Drawing surface *)

(** [this.defaultFontSize = 0.9], the double nearest to 0.9. *)
Definition defaultFontSize : float := 0x1.ccccccccccccdp-1%float.

(** The calls made on the 2D context, as far as the generators are
    concerned: the background fill, one rice-grid cell, and one glyph.  A
    glyph is the call [fillText(char, centerX, centerY)]: it is always made
    with [textAlign = 'center'] and [textBaseline = 'middle'], so the point
    is where the glyph is centred; [fontSize] and [fontFamily] are those of
    the font set for the call ([`${fontSize}px ${fontFamily}`]), and
    [alpha] is the [globalAlpha] in force. *)
Inductive draw_call : Type :=
| FillBackground (width height : Z)
| RiceGrid (x y size : Z)
| Character (char : jsstring) (centerX centerY : Q) (fontSize : Z)
            (fontFamily : string) (alpha : Q).

Record Canvas : Type := mkCanvas {
  width : Z;
  height : Z;
  globalAlpha : Q;
  calls : list draw_call
}.

Definition createCanvas (width height : Z) : Canvas :=
  {| width := width; height := height; globalAlpha := 1; calls := [] |}.

Definition emit (cv : Canvas) (c : draw_call) : Canvas :=
  {| width := width cv; height := height cv;
     globalAlpha := globalAlpha cv; calls := calls cv ++ [c] |}.

(** [ctx.globalAlpha = a]: the 2D context ignores a value outside the
    range 0.0 to 1.0. *)
Definition set_globalAlpha (cv : Canvas) (a : Q) : Canvas :=
  if Qle_bool 0 a && Qle_bool a 1 then
    {| width := width cv; height := height cv;
       globalAlpha := a; calls := calls cv |}
  else cv.

Definition fillBackground (cv : Canvas) (width height : Z) : Canvas :=
  emit cv (FillBackground width height).

Definition drawRiceGrid (cv : Canvas) (x y size : Z) : Canvas :=
  emit cv (RiceGrid x y size).

(** [calculateFontSize(cellSize)]: [Math.floor(cellSize * 0.9)] *)
Definition calculateFontSize (cellSize : Z) : Z :=
  Math_floor (PrimFloat.mul (number cellSize) defaultFontSize).

(** [drawCharacterInCell(ctx, char, x, y, cellSize, fontFamily)]; the
    halves of [cellSize / 2] are exact. *)
Definition drawCharacterInCell (cv : Canvas) (char : jsstring)
    (x y cellSize : Z) (fontFamily : string) : Canvas :=
  let fontSize := calculateFontSize cellSize in
  let centerX := (inject_Z x + inject_Z cellSize / 2)%Q in
  let centerY := (inject_Z y + inject_Z cellSize / 2)%Q in
  emit cv (Character char centerX centerY fontSize fontFamily
             (globalAlpha cv)).

(** [drawGrid(ctx, layout)]: [for (row ...) for (col ...) drawRiceGrid]. *)
Fixpoint drawGrid_cols (n : nat) (col : Z) (l : Layout) (row : Z)
    (cv : Canvas) : Canvas :=
  match n with
  | O => cv
  | S n' =>
      if col <? charsPerRow l then
        let x := padding + col * cellSize l in
        let y := padding + row * cellSize l in
        drawGrid_cols n' (col + 1) l row (drawRiceGrid cv x y (cellSize l))
      else cv
  end.

Fixpoint drawGrid_rows (n : nat) (row : Z) (l : Layout) (cv : Canvas)
    : Canvas :=
  match n with
  | O => cv
  | S n' =>
      if row <? rowCount l then
        drawGrid_rows n' (row + 1) l
          (drawGrid_cols (Z.to_nat (charsPerRow l)) 0 l row cv)
      else cv
  end.

Definition drawGrid (cv : Canvas) (l : Layout) : Canvas :=
  drawGrid_rows (Z.to_nat (rowCount l)) 0 l cv.

(** *** Copybook generation *)

Record options : Type := Options {
  practiceMode : bool;
  guideOpacity : option Q
}.

(** [options = {}] *)
Definition no_options : options :=
  {| practiceMode := false; guideOpacity := None |}.

Record copybook : Type := Copybook {
  canvas : Canvas;
  layout : Layout;
  charactersDrawn : Z;
  totalCharacters : Z;
  fontFamily : string
}.

(** [text.replace(/\s+/g, '').split('').filter(char => char.trim())] *)
Definition characters_of (text : jsstring) : list jsstring :=
  filter (fun char => truthy_string (trim char))
         (split_units (replace_ws text)).

(** [fontMappings] of [initializeFonts]: key, family name, fallback. *)
Definition fontMappings : list (string * (string * string)) :=
  [("serif", ("Noto Serif CJK SC Light", "serif"));
   ("sans-serif", ("Noto Sans CJK SC Light", "sans-serif"));
   ("cursive", ("ZCOOL KuaiLe", "cursive"));
   ("fantasy", ("ZCOOL XiaoWei", "fantasy"))]%string.

(** [initializeFonts()]: the map [this.loadedFonts] it fills.  A key gets
    its family name when its font file exists and registers
    ([registered key]), its fallback otherwise. *)
Definition initializeFonts (registered : string -> bool) (key : string)
    : option string :=
  match find (fun m => String.eqb (fst m) key) fontMappings with
  | Some (_, (name, fallback)) =>
      Some (if registered key then name else fallback)
  | None => None
  end.

Section Generator.

(** [this.loadedFonts], as [initializeFonts] filled it. *)
Variable loadedFonts : string -> option string.

(** [this.loadedFonts.get(fontType) || 'serif'] *)
Definition getFontFamily (fontType : string) : string :=
  match loadedFonts fontType with
  | Some family =>
      if String.eqb family EmptyString then "serif"%string else family
  | None => "serif"%string
  end.

Section PlaceCharacters.

Variable l : Layout.
Variable characters : list jsstring.
Variable family : string.
Variable opts : options.

(** Body of the inner loop: draw [characters[charIndex]] in the cell
    at ([row], [col]). *)
Definition place (row col charIndex : Z) (cv : Canvas) : Canvas :=
  let char := nth (Z.to_nat charIndex) characters [] in
  let x := padding + col * cellSize l in
  let y := padding + row * cellSize l in
  if practiceMode opts then
    let originalAlpha := globalAlpha cv in
    let cv1 := set_globalAlpha cv
                 (or_opacity (guideOpacity opts) (3 # 10)) in
    let cv2 := drawCharacterInCell cv1 char x y (cellSize l) family in
    set_globalAlpha cv2 originalAlpha
  else
    drawCharacterInCell cv char x y (cellSize l) family.

(** [for (col = 0; col < charsPerRow && charIndex < characters.length;
    col++)]; [n] bounds the iterations left. *)
Fixpoint place_cols (n : nat) (row col : Z) (st : Z * Canvas)
    : Z * Canvas :=
  match n with
  | O => st
  | S n' =>
      let '(charIndex, cv) := st in
      if (col <? charsPerRow l) && (charIndex <? length characters) then
        place_cols n' row (col + 1)
          (charIndex + 1, place row col charIndex cv)
      else st
  end.

(** [for (row = 0; row < rowCount && charIndex < characters.length;
    row++)] *)
Fixpoint place_rows (n : nat) (row : Z) (st : Z * Canvas)
    : Z * Canvas :=
  match n with
  | O => st
  | S n' =>
      if (row <? rowCount l) && (fst st <? length characters) then
        place_rows n' (row + 1)
          (place_cols (Z.to_nat (charsPerRow l)) row 0 st)
      else st
  end.

End PlaceCharacters.

(** [generateCopybook(text, fontType, charsPerRow = 15, rowCount = 5,
    options = {})] *)
Definition generateCopybook (text : jsstring) (fontType : string)
    (charsPerRow rowCount : value) (opts : options) : copybook :=
  let charsPerRow :=
    Z.max 1 (Z.min 20 (or_num (parseInt (param_default charsPerRow 15)) 15)) in
  let rowCount :=
    Z.max 1 (Z.min 30 (or_num (parseInt (param_default rowCount 5)) 5)) in
  let l := calculateA4Layout charsPerRow rowCount in
  let cv := createCanvas (totalWidth l) (totalHeight l) in
  let cv := fillBackground cv (totalWidth l) (totalHeight l) in
  let cv := drawGrid cv l in
  let characters := characters_of text in
  let family := getFontFamily fontType in
  let '(charIndex, cv) :=
    place_rows l characters family opts (Z.to_nat rowCount) 0 (0, cv) in
  {| canvas := cv;
     layout := l;
     charactersDrawn := charIndex;
     totalCharacters := length characters;
     fontFamily := family |}.

(** [generatePracticeCopybook(text, fontType, charsPerRow, rowCount,
    guideOpacity = 0.3)] *)
Definition generatePracticeCopybook (text : jsstring) (fontType : string)
    (charsPerRow rowCount : value) (guideOpacity : option Q) : copybook :=
  generateCopybook text fontType
    (param_default charsPerRow 15) (param_default rowCount 5)
    {| practiceMode := true;
       guideOpacity :=
         Some (match guideOpacity with Some q => q | None => 3 # 10 end) |}.

End Generator.

(** [validateText(text)] *)
Definition validateText (text : value) : result jsstring :=
  match text with
  | Str s =>
      if negb (truthy_string s) then
        Throw "Text content is required and must be a string"
      else
        let cleanText := trim s in
        if length cleanText =? 0 then
          Throw "Text content cannot be empty"
        else if length cleanText >? 2000 then
          Throw "Text content is too long (maximum 2000 characters)"
        else Ok cleanText
  | _ => Throw "Text content is required and must be a string"
  end.

(** The entries of [this.loadedFonts] once [initializeFonts] has run, in
    insertion order: [forEach] over the keys of [fontMappings] sets every
    key, whatever happens to its font file. *)
Definition loadedFontEntries (registered : string -> bool)
    : list (string * string) :=
  map (fun m => (fst m,
                 if registered (fst m) then fst (snd m) else snd (snd m)))
      fontMappings.

(** [getAvailableFonts()]: [Array.from(this.loadedFonts.keys())] *)
Definition getAvailableFonts (registered : string -> bool) : list string :=
  map fst (loadedFontEntries registered).

Record font_info : Type := FontInfo {
  family : string;
  loaded : bool
}.

(** [getFontInfo()]: per key, the family and the [loaded] flag, a chain of
    six [!==] comparisons. *)
Definition getFontInfo (registered : string -> bool)
    : list (string * font_info) :=
  map (fun e =>
         let family := snd e in
         (fst e,
          {| family := family;
             loaded :=
               negb (String.eqb family "serif")
               && negb (String.eqb family "sans-serif")
               && negb (String.eqb family "cursive")
               && negb (String.eqb family "fantasy")
               && negb (String.eqb family "Noto Serif CJK SC Light")
               && negb (String.eqb family "Noto Sans CJK SC Light") |}))
      (loadedFontEntries registered).

End CanvasGenerator.

(* ===================================================================== *)
(** ** [PDFGenerator] (the PDF generator built on [CanvasGenerator])      *)
(* ===================================================================== *)

Module PDFGenerator.
Import Js.

(** *** Constructor constants *)

(** [this.A4_WIDTH_POINTS = 595.28] and [this.A4_HEIGHT_POINTS = 841.89]:
    the doubles nearest to these decimals. *)
Definition A4_WIDTH_POINTS : float := 0x1.29a3d70a3d70ap+9%float.
Definition A4_HEIGHT_POINTS : float := 0x1.a4f1eb851eb85p+9%float.

(** [this.margins = { top: 40, bottom: 40, left: 40, right: 40 }] *)
Definition margins_top : float := 40%float.
Definition margins_bottom : float := 40%float.
Definition margins_left : float := 40%float.
Definition margins_right : float := 40%float.

(** *** Placement of a bitmap on the sheet *)

Record image_dimensions : Type := ImageDimensions {
  width : float;
  height : float;
  scale : float
}.

(** [calculateImageDimensions(canvasWidth, canvasHeight)]; the sizes of a
    canvas are integers. *)
Definition calculateImageDimensions (canvasWidth canvasHeight : Z)
    : image_dimensions :=
  let availableWidth :=
    (A4_WIDTH_POINTS - margins_left - margins_right)%float in
  let availableHeight :=
    (A4_HEIGHT_POINTS - margins_top - margins_bottom)%float in
  let scaleX := (availableWidth / number canvasWidth)%float in
  let scaleY := (availableHeight / number canvasHeight)%float in
  let scale := Math_min scaleX scaleY in
  {| width := (number canvasWidth * scale)%float;
     height := (number canvasHeight * scale)%float;
     scale := scale |}.

(** The call [doc.image(buffer, x, y, { width, height })] that every
    generator makes for a canvas: the bitmap is scaled by
    [calculateImageDimensions] and centred between the margins. *)
Record image_call : Type := ImageCall {
  x : float;
  y : float;
  image_width : float;
  image_height : float
}.

Definition centred_image (canvasWidth canvasHeight : Z) : image_call :=
  let imageDimensions := calculateImageDimensions canvasWidth canvasHeight in
  let x :=
    (margins_left
     + (A4_WIDTH_POINTS - margins_left - margins_right
        - width imageDimensions) / 2)%float in
  let y :=
    (margins_top
     + (A4_HEIGHT_POINTS - margins_top - margins_bottom
        - height imageDimensions) / 2)%float in
  {| x := x; y := y;
     image_width := width imageDimensions;
     image_height := height imageDimensions |}.

(** The option bag of the generators, numeric options being numbers.
    [None] is an absent key; the document title is metadata and is left
    out. *)
Record pdf_options : Type := PdfOptions {
  fontType : option string;
  charsPerRow : option Z;
  rowCount : option Z;
  practiceMode : option bool;
  guideOpacity : option Q;
  multiPage : option bool;
  pageBreakAfter : option Z;
  outputFormat : option string
}.

(** Destructuring default [{ key = d } = options]. *)
Definition dflt {A : Type} (d : A) (o : option A) : A :=
  match o with Some a => a | None => d end.

(** *** The document

    What the generators draw on a page of the document: a canvas image,
    and a line of text of a given font size, which is the answer title,
    the title of practice copy [number], or the page number "page /
    total" of a sheet. *)
Inductive caption : Type :=
| AnswerCaption
| PracticeCaption (number : Z)
| PageNumber (page total : Z).

Inductive pdf_item : Type :=
| PlacedImage (source : CanvasGenerator.copybook)
| CaptionText (fontSize : Z) (text : caption).

(** A PDFKit document: the pages already left behind and the page being
    drawn on.  A new document starts with one empty page. *)
Record document : Type := Document {
  finished : list (list pdf_item);
  current : list pdf_item
}.

Definition pages (d : document) : list (list pdf_item) :=
  finished d ++ [current d].

Definition createPDFDocument : document :=
  {| finished := []; current := [] |}.

(** [doc.addPage()] *)
Definition addPage (d : document) : document :=
  {| finished := finished d ++ [current d]; current := [] |}.

(** [doc.image(...)] and [doc.text(...)] draw on the current page. *)
Definition place_item (d : document) (i : pdf_item) : document :=
  {| finished := finished d; current := current d ++ [i] |}.

(** [doc.page.maxY()]: the height of PDFKit's A4 page, 841.89 points, less
    the bottom margin the document was created with. *)
Definition page_maxY : float := (A4_HEIGHT_POINTS - margins_bottom)%float.

(** [doc.currentLineHeight(true)] for the font size set by
    [doc.fontSize(size)]: the document never selects a font, so the font
    is PDFKit's default, Helvetica, whose ascender, line gap and descender
    add up to 1.156 em. *)
Definition currentLineHeight (fontSize : Z) : float :=
  (0x1.27ef9db22d0e5p+0 * number fontSize)%float.

(** [doc.text(str, x, y, { width })] for a string of one line.  PDFKit's
    line wrapper does not start a line that would end below [maxY]: it
    continues on a new page ([continueOnNewPage]), at the top margin, and
    writes the line there.  Once the line is written it continues on a new
    page again if a further line would not fit. *)
Definition text_at (d : document) (y : float) (fontSize : Z)
    (str : caption) : document :=
  let lineHeight := currentLineHeight fontSize in
  let '(d, y) :=
    if PrimFloat.ltb page_maxY (y + lineHeight)%float
    then (addPage d, margins_top) else (d, y) in
  let d := place_item d (CaptionText fontSize str) in
  let y := (y + lineHeight)%float in
  if PrimFloat.ltb page_maxY (y + lineHeight)%float then addPage d else d.

(** The height the footer of a sheet is written at,
    [this.A4_HEIGHT_POINTS - this.margins.bottom + 20], and the height the
    title of a practice sheet is written at, [this.margins.top - 20]. *)
Definition footer_y : float :=
  (A4_HEIGHT_POINTS - margins_bottom + 20)%float.

Definition title_y : float := (margins_top - 20)%float.

(** The calls a round of the page loop makes on the document. *)
Inductive doc_call : Type :=
| AddPage
| Image (source : CanvasGenerator.copybook) (placement : image_call)
| Text (fontSize : Z) (str : caption) (x y : float).

Definition run_call (d : document) (c : doc_call) : document :=
  match c with
  | AddPage => addPage d
  | Image source _ => place_item d (PlacedImage source)
  | Text fontSize str _ y => text_at d y fontSize str
  end.

(** The calls of round [page]: [doc.addPage()] unless the page is the
    first, [doc.image(imageBuffer, x, y, { width, height })] for the canvas
    of the round, then [doc.fontSize(10).text(footer, margins.left,
    footer_y, ...)]. *)
Definition sheet_calls (page totalPages : Z)
    (canvasResult : CanvasGenerator.copybook) : list doc_call :=
  (if page >? 0 then [AddPage] else [])
  ++ [Image canvasResult
        (centred_image
           (CanvasGenerator.width (CanvasGenerator.canvas canvasResult))
           (CanvasGenerator.height (CanvasGenerator.canvas canvasResult)));
      Text 10 (PageNumber (page + 1) totalPages) margins_left footer_y].

(** One round of the page loop: the text handed to the canvas generator,
    the canvas it returned, the footer "page / total", and the calls made
    on the document. *)
Record pdf_page : Type := PdfPage {
  pageText : jsstring;
  canvasResult : CanvasGenerator.copybook;
  footer : Z * Z;
  calls : list doc_call
}.

(** What [generateMultiPagePDF] returns; [pdf], the document, is given by
    the rounds of the loop that drew in it, in order. *)
Record multi_page : Type := MultiPageResult {
  pdf : list pdf_page;
  totalPages : Z;
  charactersDrawn : Z;
  totalCharacters : Z
}.

Section Generator.

Variable loadedFonts : string -> option string.

Section Pages.

Variable characters : list jsstring.
Variable totalPages : Z.
Variable fontType : string.
Variables charsPerRow rowCount : Z.
Variable practiceMode : bool.
Variable guideOpacity : Q.
Variable pageBreakAfter : Z.

(** [Math.min(rowCount, Math.ceil(charsInPage / charsPerRow))] for a
    non-empty page; a division by zero gives [Infinity], which
    [Math.min] discards. *)
Definition rows_needed (charsInPage : Z) : Z :=
  if charsPerRow =? 0 then rowCount
  else Z.min rowCount (ceil_div charsInPage charsPerRow).

(** [for (let page = 0; page < totalPages; page++)]; the state is the
    document built so far and [processedChars]. *)
Fixpoint page_loop (n : nat) (page : Z) (st : list pdf_page * Z)
    : list pdf_page * Z :=
  match n with
  | O => st
  | S n' =>
      if page <? totalPages then
        let totalChars := length characters in
        let startIndex := page * pageBreakAfter in
        let endIndex := Z.min (startIndex + pageBreakAfter) totalChars in
        let pageText := join (slice characters startIndex endIndex) in
        if length pageText =? 0 then st
        else
          let charsInPage := length pageText in
          let actualRowCount := rows_needed charsInPage in
          let canvasResult :=
            if practiceMode then
              CanvasGenerator.generatePracticeCopybook loadedFonts
                pageText fontType (Num charsPerRow)
                (Num actualRowCount) (Some guideOpacity)
            else
              CanvasGenerator.generateCopybook loadedFonts
                pageText fontType (Num charsPerRow)
                (Num actualRowCount) CanvasGenerator.no_options in
          let sheet :=
            {| pageText := pageText;
               canvasResult := canvasResult;
               footer := (page + 1, totalPages);
               calls := sheet_calls page totalPages canvasResult |} in
          page_loop n' (page + 1)
            (fst st ++ [sheet],
             snd st + CanvasGenerator.charactersDrawn canvasResult)
      else st
  end.

End Pages.

(** [generateMultiPagePDF(text, options)], for a page size
    [pageBreakAfter <> 0] (a zero page size makes [totalPages] infinite
    or [NaN], and the loop then stops before its first sheet). *)
Definition generateMultiPagePDF (text : jsstring) (o : pdf_options)
    : multi_page :=
  let fontType := dflt "serif"%string (fontType o) in
  let charsPerRow := dflt 10 (charsPerRow o) in
  let rowCount := dflt 15 (rowCount o) in
  let practiceMode := dflt false (practiceMode o) in
  let guideOpacity := dflt (2 # 10) (guideOpacity o) in
  let pageBreakAfter := dflt 150 (pageBreakAfter o) in
  let characters := CanvasGenerator.characters_of text in
  let totalChars := length characters in
  let totalPages := ceil_div totalChars pageBreakAfter in
  let '(doc, processedChars) :=
    page_loop characters totalPages fontType charsPerRow rowCount
      practiceMode guideOpacity pageBreakAfter
      (Z.to_nat totalPages) 0 ([], 0) in
  {| pdf := doc;
     totalPages := totalPages;
     charactersDrawn := processedChars;
     totalCharacters := totalChars |}.

(** The document [generateMultiPagePDF] returns, as the pages PDFKit makes
    of the calls of all rounds, starting from [createPDFDocument]. *)
Definition printed (r : multi_page) : document :=
  fold_left run_call (List.concat (map calls (pdf r))) createPDFDocument.

Inductive pdf_result : Type :=
| SinglePage (r : CanvasGenerator.copybook)
| MultiPage (r : multi_page).

(** [generatePDF(text, options)]: validation first; an error of any
    stage is rethrown with the prefix "Failed to generate PDF: ". *)
Definition generatePDF (text : value) (o : pdf_options)
    : result pdf_result :=
  match CanvasGenerator.validateText text with
  | Throw message =>
      Throw (String.append "Failed to generate PDF: " message)
  | Ok cleanText =>
      if dflt false (multiPage o)
         && match pageBreakAfter o with
            | Some n => negb (n =? 0)
            | None => false
            end
      then Ok (MultiPage (generateMultiPagePDF cleanText o))
      else
        let fontType := dflt "serif"%string (fontType o) in
        let charsPerRow := dflt 10 (charsPerRow o) in
        let rowCount := dflt 15 (rowCount o) in
        Ok (SinglePage
              (if dflt false (practiceMode o) then
                 CanvasGenerator.generatePracticeCopybook loadedFonts
                   cleanText fontType (Num charsPerRow) (Num rowCount)
                   (Some (dflt (2 # 10) (guideOpacity o)))
               else
                 CanvasGenerator.generateCopybook loadedFonts
                   cleanText fontType (Num charsPerRow) (Num rowCount)
                   CanvasGenerator.no_options))
  end.

End Generator.

(** The option bag as a caller may hand it to [validateOptions]: the
    integer options may be any value; [guideOpacity], when present, is a
    number. *)
Record raw_options : Type := RawOptions {
  raw_fontType : option string;
  raw_charsPerRow : option value;
  raw_rowCount : option value;
  raw_practiceMode : option bool;
  raw_guideOpacity : option Q;
  raw_multiPage : option bool;
  raw_pageBreakAfter : option value;
  raw_outputFormat : option string
}.

Definition includes (l : list string) (s : string) : bool :=
  existsb (String.eqb s) l.

(** [validateOptions(options)]: [{ ...getDefaultOptions(), ...options }],
    then every numeric option is parsed, defaulted and clamped. *)
Definition validateOptions (o : raw_options) : pdf_options :=
  let fontType := dflt "serif"%string (raw_fontType o) in
  let charsPerRow := dflt (Num 10) (raw_charsPerRow o) in
  let rowCount := dflt (Num 15) (raw_rowCount o) in
  let practiceMode := dflt false (raw_practiceMode o) in
  let guideOpacity := dflt (2 # 10) (raw_guideOpacity o) in
  let multiPage := dflt false (raw_multiPage o) in
  let pageBreakAfter := dflt (Num 150) (raw_pageBreakAfter o) in
  let outputFormat := dflt "buffer"%string (raw_outputFormat o) in
  let charsPerRow := Z.max 1 (Z.min 20 (or_num (parseInt charsPerRow) 10)) in
  let rowCount := Z.max 1 (Z.min 30 (or_num (parseInt rowCount) 15)) in
  let guideOpacity :=
    Qmax2 (1 # 10) (Qmin2 1 (or_opacity (Some guideOpacity) (2 # 10))) in
  let pageBreakAfter :=
    Z.max 50 (Z.min 500 (or_num (parseInt pageBreakAfter) 150)) in
  let validFonts := ["serif"; "sans-serif"; "cursive"; "fantasy"]%string in
  let fontType := if includes validFonts fontType then fontType
                  else "serif"%string in
  let validOutputFormats := ["buffer"; "file"]%string in
  let outputFormat := if includes validOutputFormats outputFormat
                      then outputFormat else "buffer"%string in
  {| fontType := Some fontType;
     charsPerRow := Some charsPerRow;
     rowCount := Some rowCount;
     practiceMode := Some practiceMode;
     guideOpacity := Some guideOpacity;
     multiPage := Some multiPage;
     pageBreakAfter := Some pageBreakAfter;
     outputFormat := Some outputFormat |}.

(** The validated bag read again as a caller's bag: the same object,
    its numbers being numbers. *)
Definition as_raw (o : pdf_options) : raw_options :=
  {| raw_fontType := fontType o;
     raw_charsPerRow := option_map Num (charsPerRow o);
     raw_rowCount := option_map Num (rowCount o);
     raw_practiceMode := practiceMode o;
     raw_guideOpacity := guideOpacity o;
     raw_multiPage := multiPage o;
     raw_pageBreakAfter := option_map Num (pageBreakAfter o);
     raw_outputFormat := outputFormat o |}.

(** *** Practice sheets *)

Record sheets_options : Type := SheetsOptions {
  sheets_fontType : option string;
  sheets_charsPerRow : option Z;
  sheets_rowCount : option Z;
  sheets_includeAnswer : option bool
}.

Record practice_sheets : Type := PracticeSheets {
  sheets_pdf : document;
  copies : Z;
  includeAnswer : bool
}.

Section PracticeSheets.

Variable loadedFonts : string -> option string.
Variable text : jsstring.
Variable fontType : string.
Variables charsPerRow rowCount : Z.
Variable includeAnswer : bool.

(** [for (let copy = 0; copy < copies; copy++)] *)
Fixpoint copies_loop (copies : Z) (n : nat) (copy : Z) (doc : document)
    : document :=
  match n with
  | O => doc
  | S n' =>
      if copy <? copies then
        let doc := if includeAnswer || (copy >? 0) then addPage doc
                   else doc in
        let practiceResult :=
          CanvasGenerator.generatePracticeCopybook loadedFonts text fontType
            (Num charsPerRow) (Num rowCount) (Some (2 # 10)) in
        let doc := place_item doc (PlacedImage practiceResult) in
        let doc := text_at doc title_y 14 (PracticeCaption (copy + 1)) in
        copies_loop copies n' (copy + 1) doc
      else doc
  end.

End PracticeSheets.

(** [generatePracticeSheets(text, copies = 3, options = {})] *)
Definition generatePracticeSheets (loadedFonts : string -> option string)
    (text : jsstring) (copies : option Z) (o : sheets_options)
    : practice_sheets :=
  let copies := dflt 3 copies in
  let fontType := dflt "serif"%string (sheets_fontType o) in
  let charsPerRow := dflt 10 (sheets_charsPerRow o) in
  let rowCount := dflt 15 (sheets_rowCount o) in
  let includeAnswer := dflt true (sheets_includeAnswer o) in
  let doc := createPDFDocument in
  let doc :=
    if includeAnswer then
      let answerResult :=
        CanvasGenerator.generateCopybook loadedFonts text fontType
          (Num charsPerRow) (Num rowCount) CanvasGenerator.no_options in
      let doc := place_item doc (PlacedImage answerResult) in
      text_at doc title_y 16 AnswerCaption
    else doc in
  let doc :=
    copies_loop loadedFonts text fontType charsPerRow rowCount includeAnswer
      copies (Z.to_nat copies) 0 doc in
  {| sheets_pdf := doc;
     copies := if includeAnswer then copies + 1 else copies;
     includeAnswer := includeAnswer |}.

End PDFGenerator.

(* ===================================================================== *)
(** ** The API routes (Express router over the two generators)            *)
(* ===================================================================== *)

Module Routes.
Import Js.

(** The fields the handlers read from [req.body].  A field that is absent is
    [Undefined]; [font], when present, is a string. *)
Record body : Type := Body {
  text : value;
  font : option string;
  charsPerRow : value;
  rowCount : value;
  practiceMode : value
}.

(** Truthiness of a value. *)
Definition truthy (v : value) : bool :=
  match v with
  | Undefined | Null => false
  | Bool b => b
  | Num n => negb (n =? 0)
  | Str s => truthy_string s
  end.

(** What the [catch] of a handler caught: the [TypeError] of calling
    [text.trim] on a value that has no such method, or an error with a
    message. *)
Inductive failure : Type :=
| NotAFunction
| Message (message : string).

(** The answer of a handler: [res.status(400).json({ error })],
    [res.status(500).json({ error: prefix + error.message })], or the
    successful payload. *)
Inductive response (A : Type) : Type :=
| BadRequest (error : string)
| ServerError (prefix : string) (cause : failure)
| Success (payload : A).
Arguments BadRequest {A} error.
Arguments ServerError {A} prefix cause.
Arguments Success {A} payload.

(** The [data] object of the [/generate] answer. *)
Record generate_data : Type := GenerateData {
  data_text : jsstring;
  data_font : string;
  data_charsPerRow : Z;
  data_rowCount : Z;
  totalChars : Z;
  data_layout : CanvasGenerator.Layout
}.

(** [font || 'serif'] *)
Definition validatedFont (b : body) : string :=
  match font b with
  | Some f => if String.eqb f EmptyString then "serif"%string else f
  | None => "serif"%string
  end.

Section Handlers.

Variable loadedFonts : string -> option string.

(** [router.post('/generate', ...)] *)
Definition post_generate (b : body) : response generate_data :=
  if negb (truthy (text b)) then BadRequest "Text content is required"
  else
    match text b with
    | Str s =>
        match trim s with
        | [] => BadRequest "Text content is required"
        | _ =>
            let validatedCharsPerRow := or_num (parseInt (charsPerRow b)) 10 in
            let validatedRowCount := or_num (parseInt (rowCount b)) 10 in
            let result :=
              CanvasGenerator.generateCopybook loadedFonts (trim s)
                (validatedFont b) (Num validatedCharsPerRow)
                (Num validatedRowCount) CanvasGenerator.no_options in
            Success
              {| data_text := trim s;
                 data_font := validatedFont b;
                 data_charsPerRow := validatedCharsPerRow;
                 data_rowCount := validatedRowCount;
                 totalChars := CanvasGenerator.charactersDrawn result;
                 data_layout := CanvasGenerator.layout result |}
        end
    | _ => ServerError "Failed to generate copybook: " NotAFunction
    end.

(** [router.post('/export/pdf', ...)]; the payload is what is piped to the
    client. *)
Definition post_export_pdf (b : body) : response PDFGenerator.pdf_result :=
  if negb (truthy (text b)) then BadRequest "Text content is required"
  else
    match text b with
    | Str s =>
        match trim s with
        | [] => BadRequest "Text content is required"
        | _ =>
            let validatedCharsPerRow := or_num (parseInt (charsPerRow b)) 10 in
            let validatedRowCount := or_num (parseInt (rowCount b)) 10 in
            let usePracticeMode :=
              match practiceMode b with Bool true => true | _ => false end in
            match
              PDFGenerator.generatePDF loadedFonts (Str (trim s))
                {| PDFGenerator.fontType := Some (validatedFont b);
                   PDFGenerator.charsPerRow := Some validatedCharsPerRow;
                   PDFGenerator.rowCount := Some validatedRowCount;
                   PDFGenerator.practiceMode := Some usePracticeMode;
                   PDFGenerator.guideOpacity := None;
                   PDFGenerator.multiPage := None;
                   PDFGenerator.pageBreakAfter := None;
                   PDFGenerator.outputFormat := None |}
            with
            | Ok pdfResult => Success pdfResult
            | Throw message =>
                ServerError "Failed to export PDF: " (Message message)
            end
        end
    | _ => ServerError "Failed to export PDF: " NotAFunction
    end.

End Handlers.

End Routes.

(* ===================================================================== *)
(** ** Vocabulary of the specification                                    *)
(* ===================================================================== *)

Import Js CanvasGenerator.

(** The content area of the sheet, as [calculateA4Layout] computes it. *)
Definition contentWidth : Z := A4_WIDTH_PX - 2 * padding.
Definition contentHeight : Z := A4_HEIGHT_PX - 2 * padding.

(** A square cell of side [s] fits the content area when [c] cells fit
    across and [r] cells fit down. *)
Definition fits (c r s : Z) : Prop :=
  s * c <= contentWidth /\ s * r <= contentHeight.

(** A character of the stream: one code unit that is not white space. *)
Definition glyph_unit (char : jsstring) : Prop :=
  exists c, char = [c] /\ is_whitespace c = false.

(** The count [generateCopybook] and [validateOptions] derive from a raw
    value, for a default [d] and an upper bound [hi]. *)
Definition clamp_count (hi d : Z) (v : value) : Z :=
  Z.max 1 (Z.min hi (or_num (parseInt v) d)).

(** The integers [i, i+1, ..., i+n-1]. *)
Fixpoint zrange (i : Z) (n : nat) : list Z :=
  match n with
  | O => []
  | S n' => i :: zrange (i + 1) n'
  end.

(** The glyph call for a character centred in the cell of row [row] and
    column [col] of the grid of a layout: the point is the centre of the
    square [(x, y, cellSize)] the cell occupies. *)
Definition glyph_in (l : Layout) (char : jsstring) (row col : Z)
    (family : string) (alpha : Q) : draw_call :=
  let x := padding + col * cellSize l in
  let y := padding + row * cellSize l in
  Character char
            (inject_Z x + inject_Z (cellSize l) / 2)%Q
            (inject_Z y + inject_Z (cellSize l) / 2)%Q
            (calculateFontSize (cellSize l)) family alpha.

(** The call that draws the [k]-th character of the stream in the [k]-th
    cell of the grid, counted row by row from the top-left cell. *)
Definition glyph_at (l : Layout) (characters : list jsstring)
    (family : string) (alpha : Q) (k : Z) : draw_call :=
  glyph_in l (nth (Z.to_nat k) characters [])
           (k / charsPerRow l) (k mod charsPerRow l) family alpha.

(** The cells of the grid of a layout, row by row. *)
Definition grid_cells (l : Layout) : list draw_call :=
  flat_map
    (fun row =>
       map (fun col => RiceGrid (padding + col * cellSize l)
                                (padding + row * cellSize l) (cellSize l))
           (zrange 0 (Z.to_nat (charsPerRow l))))
    (zrange 0 (Z.to_nat (rowCount l))).

(** An opacity the 2D context accepts. *)
Definition valid_alpha (a : Q) : bool := Qle_bool 0 a && Qle_bool a 1.

(** The opacity a glyph is drawn with when the context's [globalAlpha] is
    [a] before the call: in practice mode the guide opacity (0.3 when it is
    absent or zero) if the context accepts it. *)
Definition alpha_in (opts : options) (a : Q) : Q :=
  if CanvasGenerator.practiceMode opts
  then
    let q := or_opacity (CanvasGenerator.guideOpacity opts) (3 # 10) in
    if valid_alpha q then q else a
  else a.

(** [Math.max(0.1, Math.min(1.0, q))] *)
Definition clamp_opacity (q : Q) : Q := Qmax2 (1 # 10) (Qmin2 1 q).

(** [zsum l] is the sum of the integers of [l]. *)
Definition zsum (l : list Z) : Z := fold_right Z.add 0 l.

(** The characters of page [page] when the stream is cut every
    [pageBreakAfter] characters. *)
Definition page_slice (characters : list jsstring) (pageBreakAfter page : Z)
    : list jsstring :=
  slice characters (page * pageBreakAfter)
        (Z.min ((page + 1) * pageBreakAfter) (Js.length characters)).

(** The options of [generateMultiPagePDF] after destructuring. *)
Definition opt_fontType (o : PDFGenerator.pdf_options) : string :=
  PDFGenerator.dflt "serif"%string (PDFGenerator.fontType o).
Definition opt_charsPerRow (o : PDFGenerator.pdf_options) : Z :=
  PDFGenerator.dflt 10 (PDFGenerator.charsPerRow o).
Definition opt_rowCount (o : PDFGenerator.pdf_options) : Z :=
  PDFGenerator.dflt 15 (PDFGenerator.rowCount o).
Definition opt_practiceMode (o : PDFGenerator.pdf_options) : bool :=
  PDFGenerator.dflt false (PDFGenerator.practiceMode o).
Definition opt_guideOpacity (o : PDFGenerator.pdf_options) : Q :=
  PDFGenerator.dflt (2 # 10) (PDFGenerator.guideOpacity o).
Definition opt_pageBreakAfter (o : PDFGenerator.pdf_options) : Z :=
  PDFGenerator.dflt 150 (PDFGenerator.pageBreakAfter o).

(** The sheet the page loop builds for page index [page] when the page is
    not empty (the body of the loop). *)
Definition sheet_of (loadedFonts : string -> option string)
    (characters : list jsstring) (totalPages : Z) (fontType : string)
    (charsPerRow rowCount : Z) (practiceMode : bool) (guideOpacity : Q)
    (pageBreakAfter page : Z) : PDFGenerator.pdf_page :=
  let pageText := join (page_slice characters pageBreakAfter page) in
  let actualRowCount :=
    PDFGenerator.rows_needed charsPerRow rowCount (Js.length pageText) in
  {| PDFGenerator.pageText := pageText;
     PDFGenerator.canvasResult :=
       if practiceMode then
         generatePracticeCopybook loadedFonts pageText fontType
           (Num charsPerRow) (Num actualRowCount) (Some guideOpacity)
       else
         generateCopybook loadedFonts pageText fontType
           (Num charsPerRow) (Num actualRowCount) no_options;
     PDFGenerator.footer := (page + 1, totalPages);
     PDFGenerator.calls :=
       PDFGenerator.sheet_calls page totalPages
         (if practiceMode then
            generatePracticeCopybook loadedFonts pageText fontType
              (Num charsPerRow) (Num actualRowCount) (Some guideOpacity)
          else
            generateCopybook loadedFonts pageText fontType
              (Num charsPerRow) (Num actualRowCount) no_options) |}.

(** Number of characters on a sheet, and the number its canvas reports as
    drawn. *)
Definition sheet_length (p : PDFGenerator.pdf_page) : Z :=
  Js.length (characters_of (PDFGenerator.pageText p)).

Definition sheet_drawn (p : PDFGenerator.pdf_page) : Z :=
  charactersDrawn (PDFGenerator.canvasResult p).


(** The inputs [validateText] refuses: anything that is not a string, and
    a string whose trimmed form is empty or longer than 2000 code units. *)
Definition refused (text : value) : Prop :=
  match text with
  | Str s => Js.length (trim s) = 0 \/ 2000 < Js.length (trim s)
  | _ => True
  end.

(** An option bag that only sets the grid shape and the page size. *)
Definition grid_options (charsPerRow rowCount pageBreakAfter : Z)
    : PDFGenerator.pdf_options :=
  {| PDFGenerator.fontType := None;
     PDFGenerator.charsPerRow := Some charsPerRow;
     PDFGenerator.rowCount := Some rowCount;
     PDFGenerator.practiceMode := None;
     PDFGenerator.guideOpacity := None;
     PDFGenerator.multiPage := Some true;
     PDFGenerator.pageBreakAfter := Some pageBreakAfter;
     PDFGenerator.outputFormat := None |}.

(** An option bag for [validateOptions] that only sets [charsPerRow] and
    [guideOpacity]. *)
Definition raw_with (charsPerRow : option value) (guideOpacity : option Q)
    : PDFGenerator.raw_options :=
  {| PDFGenerator.raw_fontType := None;
     PDFGenerator.raw_charsPerRow := charsPerRow;
     PDFGenerator.raw_rowCount := None;
     PDFGenerator.raw_practiceMode := None;
     PDFGenerator.raw_guideOpacity := guideOpacity;
     PDFGenerator.raw_multiPage := None;
     PDFGenerator.raw_pageBreakAfter := None;
     PDFGenerator.raw_outputFormat := None |}.

(** The fonts loaded when no font file is installed: every key has its
    fallback family. *)
Definition no_fonts : string -> option string :=
  initializeFonts (fun _ => false).

(** A text of [k] copies of the character U+4F60. *)
Definition sample_text (k : nat) : jsstring := repeat 20320%N k.

(** [drawn_with a call]: if [call] draws a glyph, it draws it with opacity
    [a]. *)
Definition drawn_with (a : Q) (call : draw_call) : Prop :=
  match call with
  | Character _ _ _ _ _ alpha => alpha == a
  | _ => True
  end.

(** Practice mode with a supplied guide opacity. *)
Definition practice (q : Q) : options :=
  {| CanvasGenerator.practiceMode := true;
     CanvasGenerator.guideOpacity := Some q |}.

(** The [k]-th cell of the grid of a layout, cells counted row by row. *)
Definition cell_at (l : Layout) (k : Z) : draw_call :=
  RiceGrid (padding + (k mod charsPerRow l) * cellSize l)
           (padding + (k / charsPerRow l) * cellSize l)
           (cellSize l).

(** Two squares, given by their top-left corner and side, that share no
    inner point. *)
Definition apart (x y s x' y' s' : Z) : Prop :=
  x + s <= x' \/ x' + s' <= x \/ y + s <= y' \/ y' + s' <= y.

(** A square that lies inside a canvas of the given size, at least
    [padding] away from its border. *)
Definition inside_padding (width height x y s : Z) : Prop :=
  padding <= x /\ x + s <= width - padding
  /\ padding <= y /\ y + s <= height - padding.

(** A string that does not start with white space, and one that does not
    end with white space. *)
Definition starts_clean (s : jsstring) : Prop :=
  match s with
  | [] => True
  | c :: _ => is_whitespace c = false
  end.

Definition ends_clean (s : jsstring) : Prop := starts_clean (rev s).

(** The decimal numeral of an integer, as a form field or a JSON string
    carries it: the digits of [n >= 0], most significant first, are put in
    front of [acc]; [fuel] bounds the number of digits. *)
Fixpoint decimal_digits (fuel : nat) (n : Z) (acc : jsstring) : jsstring :=
  match fuel with
  | O => acc
  | S fuel' =>
      let acc' := Z.to_N (48 + n mod 10) :: acc in
      if n <? 10 then acc' else decimal_digits fuel' (n / 10) acc'
  end.

Definition decimal (n : Z) : jsstring :=
  if n <? 0 then 45%N :: decimal_digits (S (Z.to_nat (- n))) (- n) []
  else decimal_digits (S (Z.to_nat n)) n [].

(** A code unit that is a decimal digit. *)
Definition is_digit (c : code_unit) : Prop := (48 <= c <= 57)%N.

(** The page [generatePracticeSheets] draws for the answer sheet, and the
    page it draws for practice copy [copy] (counted from 0). *)
Definition answer_page (loadedFonts : string -> option string)
    (text : jsstring) (fontType : string) (charsPerRow rowCount : Z)
    : list PDFGenerator.pdf_item :=
  [PDFGenerator.PlacedImage
     (generateCopybook loadedFonts text fontType (Num charsPerRow)
        (Num rowCount) no_options);
   PDFGenerator.CaptionText 16 PDFGenerator.AnswerCaption].

Definition practice_page (loadedFonts : string -> option string)
    (text : jsstring) (fontType : string) (charsPerRow rowCount : Z)
    (copy : Z) : list PDFGenerator.pdf_item :=
  [PDFGenerator.PlacedImage
     (generatePracticeCopybook loadedFonts text fontType (Num charsPerRow)
        (Num rowCount) (Some (2 # 10)));
   PDFGenerator.CaptionText 14 (PDFGenerator.PracticeCaption (copy + 1))].

(** A request text the handlers answer with status 400: a falsy value, or a
    string that is empty once trimmed. *)
Definition blank (v : value) : Prop :=
  Routes.truthy v = false \/ exists s, v = Str s /\ trim s = [].

Definition is_string (v : value) : Prop := exists s, v = Str s.

(** The content area of a sheet of the document, between the margins, as
    exact rationals, and the exact gaps that the image call for a
    [w] x [h] canvas leaves on the four sides of the bitmap. *)
Definition sheet_contentWidth : Q :=
  rational PDFGenerator.A4_WIDTH_POINTS - rational PDFGenerator.margins_left
  - rational PDFGenerator.margins_right.

Definition sheet_contentHeight : Q :=
  rational PDFGenerator.A4_HEIGHT_POINTS - rational PDFGenerator.margins_top
  - rational PDFGenerator.margins_bottom.

Definition left_gap (w h : Z) : Q :=
  rational (PDFGenerator.x (PDFGenerator.centred_image w h))
  - rational PDFGenerator.margins_left.

Definition right_gap (w h : Z) : Q :=
  let i := PDFGenerator.centred_image w h in
  rational PDFGenerator.A4_WIDTH_POINTS - rational PDFGenerator.margins_right
  - (rational (PDFGenerator.x i) + rational (PDFGenerator.image_width i)).

Definition top_gap (w h : Z) : Q :=
  rational (PDFGenerator.y (PDFGenerator.centred_image w h))
  - rational PDFGenerator.margins_top.

Definition bottom_gap (w h : Z) : Q :=
  let i := PDFGenerator.centred_image w h in
  rational PDFGenerator.A4_HEIGHT_POINTS - rational PDFGenerator.margins_bottom
  - (rational (PDFGenerator.y i) + rational (PDFGenerator.image_height i)).

(** How far the aspect ratio of the scaled bitmap is from [w / h]:
    [|width * h - height * w|], to be compared with [height * w]. *)
Definition aspect_defect (w h : Z) : Q :=
  let i := PDFGenerator.centred_image w h in
  Qabs (rational (PDFGenerator.image_width i) * inject_Z h
        - rational (PDFGenerator.image_height i) * inject_Z w).

(** The bounds on what rounding leaves of the centring and of the aspect
    ratio: 2^-43 point, and a relative 2^-52. *)
Definition gap_tolerance : Q := 1 # (2 ^ 43).
Definition aspect_tolerance : Q := 1 # (2 ^ 52).

(** The two pages of the document a sheet ends on: its image, and its
    footer. *)
Definition image_page (p : PDFGenerator.pdf_page)
    : list PDFGenerator.pdf_item :=
  [PDFGenerator.PlacedImage (PDFGenerator.canvasResult p)].

Definition footer_page (p : PDFGenerator.pdf_page)
    : list PDFGenerator.pdf_item :=
  [PDFGenerator.CaptionText 10
     (PDFGenerator.PageNumber (fst (PDFGenerator.footer p))
        (snd (PDFGenerator.footer p)))].

(* ===================================================================== *)
(** ** Properties                                                         *)
(* ===================================================================== *)

(** *** Page constants *)

Lemma A4_WIDTH_PX_value : A4_WIDTH_PX = 2480.
Proof. reflexivity. Qed.

Lemma A4_HEIGHT_PX_value : A4_HEIGHT_PX = 3507.
Proof. reflexivity. Qed.

(** The same constants as the constructor computes them, in doubles. *)
Lemma A4_PX_in_doubles :
  Math_floor (number 210 / 0x1.9666666666666p+4 * number 300)%float
  = A4_WIDTH_PX
  /\ Math_floor (number 297 / 0x1.9666666666666p+4 * number 300)%float
     = A4_HEIGHT_PX.
Proof. split; vm_compute; reflexivity. Qed.

Lemma contentWidth_value : contentWidth = 2400.
Proof. reflexivity. Qed.

Lemma contentHeight_value : contentHeight = 3427.
Proof. reflexivity. Qed.

(** *** Integer division helpers *)

(** [ceil_div a b] is the least [k] with [a <= k * b]. *)
Lemma ceil_div_spec (a b k : Z) : 0 < b -> (ceil_div a b <= k <-> a <= k * b).
Proof.
  intros Hb. unfold ceil_div.
  pose proof (Z.div_mod (- a) b ltac:(lia)) as Hdm.
  pose proof (Z.mod_pos_bound (- a) b Hb) as Hm.
  split; intros H; nia.
Qed.

Lemma ceil_div_upper (a b : Z) : 0 < b -> a <= ceil_div a b * b.
Proof. intros Hb. apply ceil_div_spec; [assumption | lia]. Qed.

Lemma ceil_div_lower (a b : Z) : 0 < b -> (ceil_div a b - 1) * b < a.
Proof.
  intros Hb.
  destruct (Z_lt_le_dec ((ceil_div a b - 1) * b) a) as [|Hge]; [assumption|].
  apply (ceil_div_spec a b (ceil_div a b - 1) Hb) in Hge. lia.
Qed.

Lemma ceil_div_pos (a b : Z) : 0 < b -> 0 < a -> 0 < ceil_div a b.
Proof.
  intros Hb Ha.
  destruct (Z_lt_le_dec 0 (ceil_div a b)) as [|Hle]; [assumption|].
  apply (ceil_div_spec a b 0 Hb) in Hle. lia.
Qed.

Lemma ceil_div_nonneg (a b : Z) : 0 < b -> 0 <= a -> 0 <= ceil_div a b.
Proof.
  intros Hb Ha. pose proof (ceil_div_upper a b Hb). nia.
Qed.

(** *** Layout calculator *)

Lemma calculateA4Layout_cellSize (c r : Z) :
  cellSize (calculateA4Layout c r)
  = Z.min (contentWidth / c) (contentHeight / r).
Proof. reflexivity. Qed.

Lemma fits_iff_le_cellSize (c r s : Z) :
  0 < c -> 0 < r ->
  (fits c r s <-> s <= cellSize (calculateA4Layout c r)).
Proof.
  intros Hc Hr. rewrite calculateA4Layout_cellSize. unfold fits.
  rewrite Z.min_glb_iff.
  rewrite (Z.mul_comm s c), (Z.mul_comm s r).
  split; intros [H1 H2]; split.
  - apply Z.div_le_lower_bound; assumption.
  - apply Z.div_le_lower_bound; assumption.
  - pose proof (Z.mul_div_le contentWidth c Hc). nia.
  - pose proof (Z.mul_div_le contentHeight r Hr). nia.
Qed.

Lemma calculateA4Layout_cellSize_pos (c r : Z) :
  1 <= c <= 20 -> 1 <= r <= 30 -> 0 < cellSize (calculateA4Layout c r).
Proof.
  intros Hc Hr.
  assert (H : fits c r 1).
  { unfold fits. rewrite contentWidth_value, contentHeight_value. lia. }
  apply fits_iff_le_cellSize in H; lia.
Qed.

(** C1, as stated, fails: with one cell per row and one row the cell is as
    wide as the whole content area, so adding the two paddings overshoots
    the content width. *)
Lemma C1_padding_inside_content_fails :
  ~ (cellSize (calculateA4Layout 1 1) * 1 + 2 * padding <= contentWidth
     /\ cellSize (calculateA4Layout 1 1) * 1 + 2 * padding <= contentHeight).
Proof. vm_compute. intros [H _]. apply H. reflexivity. Qed.

(** C1 (amended): for charsPerRow in [1,20] and rowCount in [1,30],
    [calculateA4Layout] returns
    cellSize = min(floor(contentWidth / charsPerRow),
                   floor(contentHeight / rowCount)),
    where the content area is the A4 pixel area minus the padding on each
    side.  The grid alone fits the content area
    (cellSize * charsPerRow <= contentWidth and
    cellSize * rowCount <= contentHeight), so the grid with its padding fits
    the A4 pixel area; a cell one pixel larger violates one of the two
    bounds, and cellSize is the largest side that fits.  The returned
    totalWidth and totalHeight are count * cellSize + 2 * padding. *)
Theorem C1_layout_cell_size (c r : Z) :
  1 <= c <= 20 -> 1 <= r <= 30 ->
  let l := calculateA4Layout c r in
  cellSize l = Z.min (contentWidth / c) (contentHeight / r)
  /\ fits c r (cellSize l)
  /\ ~ fits c r (cellSize l + 1)
  /\ (forall s, fits c r s -> s <= cellSize l)
  /\ totalWidth l = c * cellSize l + 2 * padding
  /\ totalHeight l = r * cellSize l + 2 * padding
  /\ totalWidth l <= A4_WIDTH_PX
  /\ totalHeight l <= A4_HEIGHT_PX
  /\ charsPerRow l = c /\ rowCount l = r.
Proof.
  intros Hc Hr l.
  assert (Hfit : fits c r (cellSize l)).
  { apply fits_iff_le_cellSize; [lia | lia | apply Z.le_refl]. }
  split; [reflexivity|].
  split; [exact Hfit|].
  split.
  { intros H. apply fits_iff_le_cellSize in H; [|lia|lia]. fold l in H. lia. }
  split.
  { intros s H. apply fits_iff_le_cellSize in H; [exact H|lia|lia]. }
  split; [reflexivity|].
  split; [reflexivity|].
  destruct Hfit as [Hw Hh]. unfold contentWidth, contentHeight in Hw, Hh.
  change (totalWidth l) with (c * cellSize l + 2 * padding).
  change (totalHeight l) with (r * cellSize l + 2 * padding).
  repeat split; lia.
Qed.

Lemma C1_layout_cell_size_witness :
  let l := calculateA4Layout 20 30 in
  cellSize l = 114 /\ fits 20 30 (cellSize l) /\ ~ fits 20 30 (cellSize l + 1).
Proof.
  destruct (C1_layout_cell_size 20 30 ltac:(lia) ltac:(lia))
    as (H1 & H2 & H3 & _).
  split; [reflexivity|]. split; assumption.
Defined.

(** *** Tokenisation *)

Lemma trim_single (c : code_unit) :
  is_whitespace c = false -> trim [c] = [c].
Proof.
  intros H. unfold trim, trimEnd. simpl. rewrite H. simpl. rewrite H.
  reflexivity.
Qed.

Lemma characters_of_split (text : jsstring) :
  characters_of text = split_units (replace_ws text).
Proof.
  unfold characters_of, split_units, replace_ws.
  induction text as [|c text IH]; simpl; [reflexivity|].
  destruct (is_whitespace c) eqn:Hc; simpl; [exact IH|].
  rewrite (trim_single c Hc). simpl. f_equal. exact IH.
Qed.

Lemma characters_of_glyphs (text : jsstring) :
  Forall glyph_unit (characters_of text).
Proof.
  rewrite characters_of_split. unfold split_units, replace_ws.
  induction text as [|c text IH]; simpl; [constructor|].
  destruct (is_whitespace c) eqn:Hc; simpl; [exact IH|].
  constructor; [exists c; split; [reflexivity | exact Hc] | exact IH].
Qed.

Lemma join_characters_of (text : jsstring) :
  join (characters_of text) = replace_ws text.
Proof.
  rewrite characters_of_split. unfold join, split_units.
  induction (replace_ws text) as [|c s IH]; simpl; [reflexivity|].
  f_equal. exact IH.
Qed.

(** Joining characters and tokenising again gives the same characters:
    this is what happens to a page's text between the paginator and
    [generateCopybook]. *)
Lemma characters_of_join (cs : list jsstring) :
  Forall glyph_unit cs -> characters_of (join cs) = cs.
Proof.
  intros H. rewrite characters_of_split. unfold join, split_units, replace_ws.
  induction H as [|char cs [c [-> Hc]] _ IH]; simpl; [reflexivity|].
  rewrite Hc. simpl. f_equal. exact IH.
Qed.

Lemma length_join (cs : list jsstring) :
  Forall glyph_unit cs -> Js.length (join cs) = Js.length cs.
Proof.
  intros H. unfold Js.length, join. f_equal.
  induction H as [|char cs [c [-> Hc]] _ IH]; simpl; [reflexivity|].
  f_equal. exact IH.
Qed.

Lemma length_nonneg {A : Type} (l : list A) : 0 <= Js.length l.
Proof. unfold Js.length. lia. Qed.

Lemma length_characters_of (text : jsstring) :
  Js.length (characters_of text) = Js.length (replace_ws text).
Proof.
  rewrite characters_of_split. unfold Js.length, split_units.
  rewrite length_map. reflexivity.
Qed.

(** *** Clamping of the grid counts *)

Lemma clamp_count_range (hi d : Z) (v : value) :
  1 <= hi -> 1 <= clamp_count hi d v <= hi.
Proof. intros H. unfold clamp_count. lia. Qed.

(** Integers below 2^53 are doubles and print in decimal notation:
    [parseInt] gives them back. *)
Lemma to_double_safe (n : Z) : Z.abs n < 2 ^ 53 -> to_double n = n.
Proof.
  intros H. unfold to_double.
  destruct (Z.ltb_spec (Z.abs n) (2 ^ 53)); [reflexivity | lia].
Qed.

Lemma parseInt_safe (n : Z) : Z.abs n < 2 ^ 53 -> parseInt (Num n) = Some n.
Proof.
  intros H. cbn [parseInt]. unfold parseInt_number.
  rewrite (to_double_safe n H).
  destruct (Z.ltb_spec (Z.abs n) (10 ^ 21)); [reflexivity | lia].
Qed.

Lemma clamp_count_in_range (hi d n : Z) :
  hi < 2 ^ 53 -> 1 <= n <= hi -> clamp_count hi d (Num n) = n.
Proof.
  intros Hhi H. unfold clamp_count. rewrite parseInt_safe by lia.
  cbn [or_num]. destruct (Z.eqb_spec n 0); lia.
Qed.

(** *** Integer ranges *)

Lemma zrange_app (i : Z) (a b : nat) :
  zrange i (a + b) = zrange i a ++ zrange (i + Z.of_nat a) b.
Proof.
  revert i. induction a as [|a IH]; intros i.
  - simpl. rewrite Z.add_0_r. reflexivity.
  - cbn [Nat.add zrange app]. rewrite IH. do 3 f_equal. lia.
Qed.

Lemma in_zrange (i k : Z) (n : nat) :
  In k (zrange i n) <-> i <= k < i + Z.of_nat n.
Proof.
  revert i. induction n as [|n IH]; intros i.
  - simpl. lia.
  - cbn [zrange In]. rewrite IH. lia.
Qed.

Lemma length_zrange (i : Z) (n : nat) : List.length (zrange i n) = n.
Proof.
  revert i. induction n as [|n IH]; intros i; simpl;
    [reflexivity | rewrite IH; reflexivity].
Qed.

Section Copybook.

Variable loadedFonts : string -> option string.

Lemma generateCopybook_layout text fontType c r opts :
  layout (generateCopybook loadedFonts text fontType c r opts)
  = calculateA4Layout (clamp_count 20 15 (param_default c 15))
                      (clamp_count 30 5 (param_default r 5)).
Proof.
  unfold generateCopybook.
  destruct (place_rows _ _ _ _ _ _ _) as [charIndex cv]. reflexivity.
Qed.

Lemma generateCopybook_totalCharacters text fontType c r opts :
  totalCharacters (generateCopybook loadedFonts text fontType c r opts)
  = Js.length (characters_of text).
Proof.
  unfold generateCopybook.
  destruct (place_rows _ _ _ _ _ _ _) as [charIndex cv]. reflexivity.
Qed.

(** *** The placement loops *)

Section Loops.

Variable l : Layout.
Variable characters : list jsstring.
Variable family : string.
Variable opts : options.

Let len := Js.length characters.
Let cpr := charsPerRow l.
Let rc := rowCount l.

Lemma place_cols_index (n : nat) (row col i : Z) (cv : Canvas) :
  i <= len ->
  fst (place_cols l characters family opts n row col (i, cv))
  = Z.min len (i + Z.max 0 (Z.min (Z.of_nat n) (cpr - col))).
Proof.
  revert col i cv.
  induction n as [|n IH]; intros col i cv Hi.
  - simpl. lia.
  - cbn [place_cols]. fold len cpr.
    destruct (Z.ltb_spec col cpr) as [Hc|Hc];
      destruct (Z.ltb_spec i len) as [Hl|Hl]; cbn [andb fst]; try lia.
    rewrite IH by lia. lia.
Qed.

Lemma place_rows_index (n : nat) (row i : Z) (cv : Canvas) :
  0 <= cpr -> i <= len ->
  fst (place_rows l characters family opts n row (i, cv))
  = Z.min len (i + cpr * Z.max 0 (Z.min (Z.of_nat n) (rc - row))).
Proof.
  intros Hcpr. revert row i cv.
  induction n as [|n IH]; intros row i cv Hi.
  - simpl. lia.
  - cbn [place_rows fst]. fold len rc cpr.
    destruct (Z.ltb_spec row rc) as [Hr|Hr];
      destruct (Z.ltb_spec i len) as [Hl|Hl]; cbn [andb fst]; try nia.
    pose proof (place_cols_index (Z.to_nat cpr) row 0 i cv Hi) as Hin.
    destruct (place_cols l characters family opts (Z.to_nat cpr) row 0
                (i, cv)) as [i' cv'].
    cbn [fst] in Hin.
    rewrite IH by lia.
    set (k := Z.min (Z.of_nat n) (rc - (row + 1))).
    assert (Hk : Z.max 0 (Z.min (Z.of_nat (S n)) (rc - row)) = 1 + Z.max 0 k)
      by (unfold k; lia).
    rewrite Hk.
    assert (0 <= cpr * Z.max 0 k) by nia.
    assert (cpr * (1 + Z.max 0 k) = cpr + cpr * Z.max 0 k) by ring.
    lia.
Qed.

(** One placement appends one glyph call and restores [globalAlpha]. *)
Lemma place_calls (row col i : Z) (cv : Canvas) :
  valid_alpha (globalAlpha cv) = true ->
  calls (place l characters family opts row col i cv)
  = calls cv
    ++ [glyph_in l (nth (Z.to_nat i) characters []) row col family
          (alpha_in opts (globalAlpha cv))]
  /\ globalAlpha (place l characters family opts row col i cv)
     = globalAlpha cv.
Proof.
  intros Hv. unfold place, alpha_in, set_globalAlpha, glyph_in.
  destruct (CanvasGenerator.practiceMode opts); [|split; reflexivity].
  fold (valid_alpha (or_opacity (CanvasGenerator.guideOpacity opts)
                       (3 # 10))).
  destruct (valid_alpha (or_opacity (CanvasGenerator.guideOpacity opts)
                           (3 # 10)));
    cbn [drawCharacterInCell emit globalAlpha calls];
    fold (valid_alpha (globalAlpha cv)); rewrite Hv;
    split; reflexivity.
Qed.

Lemma place_cols_calls (n : nat) (row col i : Z) (cv : Canvas) :
  valid_alpha (globalAlpha cv) = true ->
  i <= len ->
  let st := place_cols l characters family opts n row col (i, cv) in
  calls (snd st)
  = calls cv
    ++ map (fun k =>
              glyph_in l (nth (Z.to_nat k) characters []) row
                       (col + (k - i)) family
                       (alpha_in opts (globalAlpha cv)))
           (zrange i (Z.to_nat (fst st - i)))
  /\ globalAlpha (snd st) = globalAlpha cv.
Proof.
  revert col i cv.
  induction n as [|n IH]; intros col i cv Hv Hi st; subst st.
  - cbn [place_cols fst snd]. rewrite Z.sub_diag. simpl.
    rewrite app_nil_r. split; reflexivity.
  - pose proof (place_cols_index (S n) row col i cv Hi) as Hidx.
    cbn [place_cols] in *. fold len cpr in Hidx |- *.
    destruct (Z.ltb_spec col cpr) as [Hc|Hc];
      destruct (Z.ltb_spec i len) as [Hl|Hl]; cbn [andb fst snd] in *;
      try (rewrite Z.sub_diag; simpl; rewrite app_nil_r;
           split; reflexivity).
    destruct (place_calls row col i cv Hv) as [Hp Ha].
    destruct (IH (col + 1) (i + 1)
                 (place l characters family opts row col i cv)
                 ltac:(rewrite Ha; exact Hv) ltac:(lia))
      as [Hcalls Halpha].
    set (st := place_cols l characters family opts n row (col + 1)
                 (i + 1, place l characters family opts row col i cv))
      in *.
    split; [|congruence].
    rewrite Hcalls, Hp, Ha, <- app_assoc. f_equal.
    replace (Z.to_nat (fst st - i)) with (S (Z.to_nat (fst st - (i + 1))))
      by lia.
    cbn [zrange map app]. f_equal.
    + f_equal. lia.
    + apply map_ext. intros k. f_equal. lia.
Qed.

(** Row-major walk: the glyph calls added by the two loops are those of
    the cells [i, i+1, ...] in row-major numbering. *)
Lemma place_rows_calls (n : nat) (row i : Z) (cv : Canvas) :
  valid_alpha (globalAlpha cv) = true ->
  0 < cpr -> 0 <= row -> i <= len -> (i < len -> i = row * cpr) ->
  let st := place_rows l characters family opts n row (i, cv) in
  calls (snd st)
  = calls cv
    ++ map (glyph_at l characters family (alpha_in opts (globalAlpha cv)))
           (zrange i (Z.to_nat (fst st - i)))
  /\ globalAlpha (snd st) = globalAlpha cv.
Proof.
  intros Hv Hcpr. revert row i cv Hv.
  induction n as [|n IH]; intros row i cv Hv Hrow Hi Hrm st; subst st.
  - cbn [place_rows fst snd]. rewrite Z.sub_diag. simpl.
    rewrite app_nil_r. split; reflexivity.
  - cbn [place_rows fst snd]. fold len rc cpr.
    destruct (Z.ltb_spec row rc) as [Hr|Hr];
      destruct (Z.ltb_spec i len) as [Hl|Hl]; cbn [andb fst snd];
      try (rewrite Z.sub_diag; simpl; rewrite app_nil_r;
           split; reflexivity).
    pose proof (place_cols_index (Z.to_nat cpr) row 0 i cv Hi) as Hin.
    destruct (place_cols_calls (Z.to_nat cpr) row 0 i cv Hv Hi)
      as [Hcalls Halpha].
    fold cpr in Hcalls, Halpha.
    destruct (place_cols l characters family opts (Z.to_nat cpr) row 0
                (i, cv)) as [i1 cv1].
    cbn [fst snd] in *.
    assert (Hi1 : i1 = Z.min len (i + cpr)) by lia.
    pose proof (place_rows_index n (row + 1) i1 cv1 ltac:(fold cpr; lia)
                  ltac:(fold len; lia)) as Hout.
    fold len cpr rc in Hout.
    destruct (IH (row + 1) i1 cv1 ltac:(rewrite Halpha; exact Hv)
                 ltac:(lia) ltac:(lia) ltac:(lia))
      as [Hcalls2 Halpha2].
    set (st := place_rows l characters family opts n (row + 1) (i1, cv1))
      in *.
    split; [|congruence].
    assert (Hge : i1 <= fst st).
    { rewrite Hout.
      assert (0 <= cpr * Z.max 0 (Z.min (Z.of_nat n) (rc - (row + 1))))
        by nia.
      lia. }
    rewrite Hcalls2, Hcalls, Halpha, <- app_assoc. f_equal.
    replace (Z.to_nat (fst st - i))
      with (Z.to_nat (i1 - i) + Z.to_nat (fst st - i1))%nat by lia.
    rewrite zrange_app, map_app.
    replace (i + Z.of_nat (Z.to_nat (i1 - i))) with i1 by lia.
    f_equal.
    apply map_ext_in. intros k Hk. apply in_zrange in Hk.
    specialize (Hrm Hl). unfold glyph_at. fold cpr.
    assert (Hq : k / cpr = row).
    { symmetry. apply (Z.div_unique_pos k cpr row (k - i)); lia. }
    assert (Hm : k mod cpr = k - i).
    { symmetry. apply (Z.mod_unique_pos k cpr row (k - i)); lia. }
    rewrite Hq, Hm. rewrite Z.add_0_l. reflexivity.
Qed.

End Loops.

(** *** The grid *)

Lemma drawGrid_cols_calls (n : nat) (col : Z) (l : Layout) (row : Z)
    (cv : Canvas) :
  let cv' := drawGrid_cols n col l row cv in
  calls cv'
  = calls cv
    ++ map (fun c => RiceGrid (padding + c * cellSize l)
                              (padding + row * cellSize l) (cellSize l))
           (zrange col (Z.to_nat (Z.min (Z.of_nat n) (charsPerRow l - col))))
  /\ globalAlpha cv' = globalAlpha cv.
Proof.
  revert col cv. induction n as [|n IH]; intros col cv cv'; subst cv'.
  - replace (Z.to_nat (Z.min (Z.of_nat 0) (charsPerRow l - col)))
      with O by lia.
    simpl. rewrite app_nil_r. split; reflexivity.
  - cbn [drawGrid_cols].
    destruct (Z.ltb_spec col (charsPerRow l)) as [Hc|Hc].
    + destruct (IH (col + 1)
                   (drawRiceGrid cv (padding + col * cellSize l)
                      (padding + row * cellSize l) (cellSize l)))
        as [Hcalls Halpha].
      split; [|rewrite Halpha; reflexivity].
      rewrite Hcalls. cbn [drawRiceGrid emit calls].
      rewrite <- app_assoc. f_equal.
      replace (Z.to_nat (Z.min (Z.of_nat (S n)) (charsPerRow l - col)))
        with (S (Z.to_nat (Z.min (Z.of_nat n) (charsPerRow l - (col + 1)))))
        by lia.
      reflexivity.
    + replace (Z.to_nat (Z.min (Z.of_nat (S n)) (charsPerRow l - col)))
        with O by lia.
      simpl. rewrite app_nil_r. split; reflexivity.
Qed.

Lemma drawGrid_rows_calls (n : nat) (row : Z) (l : Layout) (cv : Canvas) :
  0 <= charsPerRow l ->
  let cv' := drawGrid_rows n row l cv in
  calls cv'
  = calls cv
    ++ flat_map
         (fun r =>
            map (fun c => RiceGrid (padding + c * cellSize l)
                                   (padding + r * cellSize l) (cellSize l))
                (zrange 0 (Z.to_nat (charsPerRow l))))
         (zrange row (Z.to_nat (Z.min (Z.of_nat n) (rowCount l - row))))
  /\ globalAlpha cv' = globalAlpha cv.
Proof.
  intros Hcpr. revert row cv.
  induction n as [|n IH]; intros row cv cv'; subst cv'.
  - replace (Z.to_nat (Z.min (Z.of_nat 0) (rowCount l - row)))
      with O by lia.
    simpl. rewrite app_nil_r. split; reflexivity.
  - cbn [drawGrid_rows].
    destruct (Z.ltb_spec row (rowCount l)) as [Hr|Hr].
    + destruct (drawGrid_cols_calls (Z.to_nat (charsPerRow l)) 0 l row cv)
        as [Hc Ha].
      destruct (IH (row + 1)
                   (drawGrid_cols (Z.to_nat (charsPerRow l)) 0 l row cv))
        as [Hcalls Halpha].
      split; [|rewrite Halpha; exact Ha].
      rewrite Hcalls, Hc, <- app_assoc. f_equal.
      replace (Z.to_nat (Z.min (Z.of_nat (S n)) (rowCount l - row)))
        with (S (Z.to_nat (Z.min (Z.of_nat n) (rowCount l - (row + 1)))))
        by lia.
      cbn [zrange flat_map]. f_equal.
      replace (Z.min (Z.of_nat (Z.to_nat (charsPerRow l)))
                     (charsPerRow l - 0))
        with (charsPerRow l) by lia.
      reflexivity.
    + replace (Z.to_nat (Z.min (Z.of_nat (S n)) (rowCount l - row)))
        with O by lia.
      simpl. rewrite app_nil_r. split; reflexivity.
Qed.

Lemma drawGrid_calls (cv : Canvas) (l : Layout) :
  0 <= charsPerRow l -> 0 <= rowCount l ->
  calls (drawGrid cv l) = calls cv ++ grid_cells l
  /\ globalAlpha (drawGrid cv l) = globalAlpha cv.
Proof.
  intros Hc Hr. unfold drawGrid, grid_cells.
  destruct (drawGrid_rows_calls (Z.to_nat (rowCount l)) 0 l cv Hc)
    as [Hcalls Halpha].
  split; [|exact Halpha].
  rewrite Hcalls.
  replace (Z.min (Z.of_nat (Z.to_nat (rowCount l))) (rowCount l - 0))
    with (rowCount l) by lia.
  reflexivity.
Qed.

Lemma length_grid_cells (l : Layout) :
  0 <= charsPerRow l -> 0 <= rowCount l ->
  Js.length (grid_cells l) = charsPerRow l * rowCount l.
Proof.
  intros Hc Hr. unfold Js.length, grid_cells.
  assert (H : forall rows,
             List.length
               (flat_map
                  (fun row =>
                     map (fun col => RiceGrid (padding + col * cellSize l)
                                       (padding + row * cellSize l)
                                       (cellSize l))
                       (zrange 0 (Z.to_nat (charsPerRow l)))) rows)
             = (List.length rows * Z.to_nat (charsPerRow l))%nat).
  { induction rows as [|r rows IH]; [reflexivity|].
    cbn [flat_map]. rewrite length_app, length_map, length_zrange, IH.
    reflexivity. }
  rewrite H, length_zrange. nia.
Qed.

(** The whole log of the canvas [generateCopybook] returns: the
    background, the grid, then the first [charactersDrawn] characters of
    the stream, one per cell, row by row from the top-left cell. *)
Lemma generateCopybook_calls text fontType c r opts :
  let res := generateCopybook loadedFonts text fontType c r opts in
  let l := layout res in
  calls (canvas res)
  = FillBackground (totalWidth l) (totalHeight l)
    :: grid_cells l
    ++ map (glyph_at l (characters_of text)
              (getFontFamily loadedFonts fontType) (alpha_in opts 1))
           (zrange 0 (Z.to_nat (charactersDrawn res))).
Proof.
  intros res l. subst l res. rewrite generateCopybook_layout.
  unfold generateCopybook.
  fold (clamp_count 20 15 (param_default c 15)).
  fold (clamp_count 30 5 (param_default r 5)).
  pose proof (clamp_count_range 20 15 (param_default c 15) ltac:(lia)) as Hc.
  pose proof (clamp_count_range 30 5 (param_default r 5) ltac:(lia)) as Hr.
  set (cc := clamp_count 20 15 (param_default c 15)) in *.
  set (rr := clamp_count 30 5 (param_default r 5)) in *.
  set (l := calculateA4Layout cc rr).
  set (cv0 := fillBackground _ _ _).
  destruct (drawGrid_calls cv0 l) as [Hg Hga];
    [change (charsPerRow l) with cc; lia
    |change (rowCount l) with rr; lia|].
  destruct (place_rows_calls l (characters_of text)
              (getFontFamily loadedFonts fontType) opts
              (Z.to_nat rr) 0 0 (drawGrid cv0 l)) as [Hp _];
    [rewrite Hga; reflexivity
    |change (charsPerRow l) with cc; lia | lia | apply length_nonneg
    | intros _; lia |].
  destruct (place_rows _ _ _ _ _ _ _) as [charIndex cv].
  cbn [fst snd canvas charactersDrawn] in *.
  rewrite Hp, Hg, Hga, Z.sub_0_r. reflexivity.
Qed.

(** [charactersDrawn] is the smaller of the stream length and the grid
    capacity of the layout in use. *)
Lemma generateCopybook_charactersDrawn text fontType c r opts :
  let res := generateCopybook loadedFonts text fontType c r opts in
  charactersDrawn res
  = Z.min (Js.length (characters_of text))
          (charsPerRow (layout res) * rowCount (layout res)).
Proof.
  intros res. subst res. rewrite generateCopybook_layout.
  unfold generateCopybook.
  fold (clamp_count 20 15 (param_default c 15)).
  fold (clamp_count 30 5 (param_default r 5)).
  pose proof (clamp_count_range 20 15 (param_default c 15) ltac:(lia)) as Hc.
  pose proof (clamp_count_range 30 5 (param_default r 5) ltac:(lia)) as Hr.
  set (cc := clamp_count 20 15 (param_default c 15)) in *.
  set (rr := clamp_count 30 5 (param_default r 5)) in *.
  set (l := calculateA4Layout cc rr).
  set (cv0 := drawGrid _ _).
  pose proof (place_rows_index l (characters_of text)
                (getFontFamily loadedFonts fontType) opts
                (Z.to_nat rr) 0 0 cv0) as H.
  destruct (place_rows _ _ _ _ _ _ _) as [charIndex cv].
  cbn [fst charactersDrawn] in *.
  rewrite H.
  - change (charsPerRow l) with cc. change (rowCount l) with rr.
    replace (Z.max 0 (Z.min (Z.of_nat (Z.to_nat rr)) (rr - 0))) with rr by lia.
    lia.
  - change (charsPerRow l) with cc. lia.
  - apply length_nonneg.
Qed.

End Copybook.

(** *** Loop bounds

    Each loop of the model carries a counter that bounds its iterations.
    The counters the generators start with are large enough: the loops stop
    because their own condition fails, and a larger counter gives the same
    result. *)

Section LoopBounds.

Variable loadedFonts : string -> option string.

Lemma place_cols_bound (l : Layout) (characters : list jsstring)
    (family : string) (opts : options) (n k : nat) (row col : Z)
    (st : Z * Canvas) :
  charsPerRow l - col <= Z.of_nat n ->
  place_cols l characters family opts (n + k) row col st
  = place_cols l characters family opts n row col st.
Proof.
  revert col st. induction n as [|n IH]; intros col [i cv] Hn.
  - destruct k as [|k]; [reflexivity|].
    cbn [Nat.add place_cols].
    destruct (Z.ltb_spec col (charsPerRow l)); [lia | reflexivity].
  - cbn [Nat.add place_cols].
    destruct ((col <? charsPerRow l) && (i <? Js.length characters));
      [apply IH; lia | reflexivity].
Qed.

Lemma place_rows_bound (l : Layout) (characters : list jsstring)
    (family : string) (opts : options) (n k : nat) (row : Z)
    (st : Z * Canvas) :
  rowCount l - row <= Z.of_nat n ->
  place_rows l characters family opts (n + k) row st
  = place_rows l characters family opts n row st.
Proof.
  revert row st. induction n as [|n IH]; intros row st Hn.
  - destruct k as [|k]; [reflexivity|].
    cbn [Nat.add place_rows].
    destruct (Z.ltb_spec row (rowCount l)); [lia | reflexivity].
  - cbn [Nat.add place_rows].
    destruct ((row <? rowCount l) && (fst st <? Js.length characters));
      [apply IH; lia | reflexivity].
Qed.

Lemma drawGrid_cols_bound (l : Layout) (n k : nat) (row col : Z)
    (cv : Canvas) :
  charsPerRow l - col <= Z.of_nat n ->
  drawGrid_cols (n + k) col l row cv = drawGrid_cols n col l row cv.
Proof.
  revert col cv. induction n as [|n IH]; intros col cv Hn.
  - destruct k as [|k]; [reflexivity|].
    cbn [Nat.add drawGrid_cols].
    destruct (Z.ltb_spec col (charsPerRow l)); [lia | reflexivity].
  - cbn [Nat.add drawGrid_cols].
    destruct (col <? charsPerRow l); [apply IH; lia | reflexivity].
Qed.

Lemma drawGrid_rows_bound (l : Layout) (n k : nat) (row : Z) (cv : Canvas) :
  rowCount l - row <= Z.of_nat n ->
  drawGrid_rows (n + k) row l cv = drawGrid_rows n row l cv.
Proof.
  revert row cv. induction n as [|n IH]; intros row cv Hn.
  - destruct k as [|k]; [reflexivity|].
    cbn [Nat.add drawGrid_rows].
    destruct (Z.ltb_spec row (rowCount l)); [lia | reflexivity].
  - cbn [Nat.add drawGrid_rows].
    destruct (row <? rowCount l); [apply IH; lia | reflexivity].
Qed.

Lemma page_loop_bound (characters : list jsstring) (totalPages : Z)
    (fontType : string) (charsPerRow rowCount : Z) (practiceMode : bool)
    (guideOpacity : Q) (pageBreakAfter : Z) (n k : nat) (page : Z)
    (st : list PDFGenerator.pdf_page * Z) :
  totalPages - page <= Z.of_nat n ->
  PDFGenerator.page_loop loadedFonts characters totalPages fontType
    charsPerRow rowCount practiceMode guideOpacity pageBreakAfter
    (n + k) page st
  = PDFGenerator.page_loop loadedFonts characters totalPages fontType
      charsPerRow rowCount practiceMode guideOpacity pageBreakAfter
      n page st.
Proof.
  revert page st. induction n as [|n IH]; intros page st Hn.
  - destruct k as [|k]; [reflexivity|].
    cbn [Nat.add PDFGenerator.page_loop].
    destruct (Z.ltb_spec page totalPages); [lia | reflexivity].
  - cbn [Nat.add PDFGenerator.page_loop].
    destruct (page <? totalPages); [|reflexivity].
    destruct (Js.length _ =? 0); [reflexivity|].
    apply IH. lia.
Qed.

End LoopBounds.

(** *** Slices *)

Lemma firstn_plus {A : Type} (x y : nat) (l : list A) :
  firstn (x + y) l = firstn x l ++ firstn y (skipn x l).
Proof.
  revert l. induction x as [|x IH]; intros l; [reflexivity|].
  destruct l as [|a l]; simpl.
  - rewrite firstn_nil. reflexivity.
  - rewrite IH. reflexivity.
Qed.

Lemma skipn_plus {A : Type} (x y : nat) (l : list A) :
  skipn (x + y) l = skipn y (skipn x l).
Proof.
  revert l. induction x as [|x IH]; intros l; [reflexivity|].
  destruct l as [|a l]; simpl; [rewrite skipn_nil; reflexivity | apply IH].
Qed.

(** With indices that are not negative, [slice] is [firstn] after [skipn]. *)
Lemma slice_nonneg {A : Type} (a : list A) (s e : Z) :
  0 <= s -> 0 <= e ->
  slice a s e = firstn (Z.to_nat e - Z.to_nat s) (skipn (Z.to_nat s) a).
Proof.
  intros Hs He. unfold slice, rel_index, Js.length.
  destruct (Z.ltb_spec s 0) as [?|_]; [lia|].
  destruct (Z.ltb_spec e 0) as [?|_]; [lia|].
  set (n := List.length a).
  destruct (Z_lt_le_dec s (Z.of_nat n)) as [Hlt|Hge].
  - replace (Z.min s (Z.of_nat n)) with s by lia.
    destruct (Z_le_gt_dec e (Z.of_nat n)) as [Hle|Hgt].
    + f_equal. lia.
    + rewrite !firstn_all2; [reflexivity | |]; rewrite length_skipn;
        fold n; lia.
  - rewrite (skipn_all2 a (n := Z.to_nat (Z.min s (Z.of_nat n))))
      by (fold n; lia).
    rewrite (skipn_all2 a (n := Z.to_nat s)) by (fold n; lia).
    rewrite !firstn_nil. reflexivity.
Qed.

Lemma slice_app {A : Type} (a : list A) (s m e : Z) :
  0 <= s <= m -> m <= e ->
  slice a s m ++ slice a m e = slice a s e.
Proof.
  intros Hsm Hme. rewrite !slice_nonneg by lia.
  replace (Z.to_nat e - Z.to_nat s)%nat
    with ((Z.to_nat m - Z.to_nat s) + (Z.to_nat e - Z.to_nat m))%nat by lia.
  rewrite firstn_plus. f_equal. f_equal.
  rewrite <- skipn_plus. f_equal. lia.
Qed.

Lemma slice_all {A : Type} (a : list A) (e : Z) :
  Js.length a <= e -> slice a 0 e = a.
Proof.
  intros He. pose proof (length_nonneg a).
  rewrite slice_nonneg by lia. simpl.
  apply firstn_all2. unfold Js.length in He. lia.
Qed.

Lemma length_slice {A : Type} (a : list A) (s e : Z) :
  0 <= s <= e -> e <= Js.length a -> Js.length (slice a s e) = e - s.
Proof.
  intros Hse He. rewrite slice_nonneg by lia. unfold Js.length in *.
  rewrite length_firstn, length_skipn. lia.
Qed.

Lemma Forall_slice {A : Type} (P : A -> Prop) (a : list A) (s e : Z) :
  Forall P a -> Forall P (slice a s e).
Proof.
  intros H. unfold slice.
  set (k := Z.to_nat (rel_index (Js.length a) s)).
  set (m := Z.to_nat _).
  rewrite <- (firstn_skipn k a) in H. apply Forall_app in H as [_ H].
  rewrite <- (firstn_skipn m (skipn k a)) in H.
  apply Forall_app in H as [H _]. exact H.
Qed.

(** *** Page slices *)

Section Pagination.

Variable characters : list jsstring.
Variable pageBreakAfter : Z.
Hypothesis pageBreakAfter_pos : 0 < pageBreakAfter.

Let n := Js.length characters.
Let totalPages := ceil_div n pageBreakAfter.

Lemma totalPages_nonneg : 0 <= totalPages.
Proof. apply ceil_div_nonneg; [assumption | apply length_nonneg]. Qed.

(** Every page below [totalPages] starts inside the stream. *)
Lemma page_start_inside (page : Z) :
  0 <= page < totalPages -> 0 <= page * pageBreakAfter < n.
Proof.
  intros Hp. pose proof (ceil_div_lower n pageBreakAfter pageBreakAfter_pos).
  fold totalPages in H. nia.
Qed.

Lemma length_page_slice (page : Z) :
  0 <= page < totalPages ->
  Js.length (page_slice characters pageBreakAfter page)
  = Z.min ((page + 1) * pageBreakAfter) n - page * pageBreakAfter
  /\ 0 < Js.length (page_slice characters pageBreakAfter page)
       <= pageBreakAfter.
Proof.
  intros Hp. pose proof (page_start_inside page Hp) as Hs.
  unfold page_slice. fold n.
  rewrite length_slice; fold n; nia.
Qed.

(** The slices of consecutive pages, concatenated, are one slice. *)
Lemma concat_page_slices (page : Z) (k : nat) :
  0 <= page ->
  List.concat (map (page_slice characters pageBreakAfter) (zrange page k))
  = slice characters (page * pageBreakAfter)
          (Z.min ((page + Z.of_nat k) * pageBreakAfter) n).
Proof.
  revert page. induction k as [|k IH]; intros page Hp.
  - simpl. rewrite Z.add_0_r. pose proof (length_nonneg characters).
    fold n in H. rewrite slice_nonneg by nia.
    replace (Z.to_nat (Z.min (page * pageBreakAfter) n)
             - Z.to_nat (page * pageBreakAfter))%nat with O by lia.
    reflexivity.
  - cbn [zrange map List.concat]. rewrite IH by lia.
    unfold page_slice at 1. fold n.
    pose proof (length_nonneg characters) as Hn. fold n in Hn.
    replace (page + Z.of_nat (S k)) with (page + 1 + Z.of_nat k) by lia.
    destruct (Z_le_gt_dec ((page + 1) * pageBreakAfter) n) as [Hle|Hgt].
    + replace (Z.min ((page + 1) * pageBreakAfter) n)
        with ((page + 1) * pageBreakAfter) by lia.
      apply slice_app; nia.
    + replace (Z.min ((page + 1 + Z.of_nat k) * pageBreakAfter) n)
        with n by nia.
      replace (Z.min ((page + 1) * pageBreakAfter) n) with n by lia.
      rewrite (slice_nonneg characters ((page + 1) * pageBreakAfter) n)
        by nia.
      rewrite skipn_all2 by (unfold n, Js.length in *; lia).
      rewrite firstn_nil, app_nil_r. reflexivity.
Qed.

Lemma concat_all_page_slices :
  List.concat (map (page_slice characters pageBreakAfter)
                   (zrange 0 (Z.to_nat totalPages)))
  = characters.
Proof.
  rewrite concat_page_slices by lia.
  pose proof totalPages_nonneg.
  pose proof (ceil_div_upper n pageBreakAfter pageBreakAfter_pos) as Hu.
  fold totalPages in Hu.
  replace (Z.min ((0 + Z.of_nat (Z.to_nat totalPages)) * pageBreakAfter) n)
    with n by nia.
  apply slice_all. fold n. lia.
Qed.

End Pagination.

(** *** The page loop *)

Section MultiPage.

Variable loadedFonts : string -> option string.
Variable characters : list jsstring.
Hypothesis characters_glyphs : Forall glyph_unit characters.
Variable fontType : string.
Variables charsPerRow rowCount : Z.
Variable practiceMode : bool.
Variable guideOpacity : Q.
Variable pageBreakAfter : Z.
Hypothesis pageBreakAfter_pos : 0 < pageBreakAfter.

Let n := Js.length characters.
Let totalPages := ceil_div n pageBreakAfter.
Let sheet :=
  sheet_of loadedFonts characters totalPages fontType charsPerRow rowCount
           practiceMode guideOpacity pageBreakAfter.

Lemma page_slice_glyphs (page : Z) :
  Forall glyph_unit (page_slice characters pageBreakAfter page).
Proof. apply Forall_slice. exact characters_glyphs. Qed.

(** What [generateCopybook] tokenises out of a page's text is the page's
    slice of the stream. *)
Lemma sheet_characters (page : Z) :
  characters_of (PDFGenerator.pageText (sheet page))
  = page_slice characters pageBreakAfter page.
Proof. apply characters_of_join, page_slice_glyphs. Qed.

Lemma sheet_length_slice (page : Z) :
  sheet_length (sheet page)
  = Js.length (page_slice characters pageBreakAfter page).
Proof. unfold sheet_length. rewrite sheet_characters. reflexivity. Qed.

(** The loop never meets an empty page: it appends the sheet of every
    page index below [totalPages], in order, and adds up what the
    canvases report as drawn. *)
Lemma page_loop_sheets (k : nat) (page : Z) (doc : list PDFGenerator.pdf_page)
    (acc : Z) :
  0 <= page -> page + Z.of_nat k <= totalPages ->
  PDFGenerator.page_loop loadedFonts characters totalPages fontType
    charsPerRow rowCount practiceMode guideOpacity pageBreakAfter
    k page (doc, acc)
  = (doc ++ map sheet (zrange page k),
     acc + zsum (map sheet_drawn (map sheet (zrange page k)))).
Proof.
  revert page doc acc.
  induction k as [|k IH]; intros page doc acc Hp Hk.
  - simpl. rewrite app_nil_r, Z.add_0_r. reflexivity.
  - cbn [PDFGenerator.page_loop]. fold n.
    destruct (Z.ltb_spec page totalPages) as [Hlt|Hge]; [|lia].
    replace (page * pageBreakAfter + pageBreakAfter)
      with ((page + 1) * pageBreakAfter) by ring.
    change (slice characters (page * pageBreakAfter)
              (Z.min ((page + 1) * pageBreakAfter) n))
      with (page_slice characters pageBreakAfter page).
    destruct (length_page_slice characters pageBreakAfter
                pageBreakAfter_pos page ltac:(fold n totalPages; lia))
      as [_ Hlen].
    rewrite (length_join _ (page_slice_glyphs page)).
    destruct (Z.eqb_spec
                (Js.length (page_slice characters pageBreakAfter page)) 0)
      as [He|_]; [lia|].
    cbn [fst snd].
    rewrite <- (length_join _ (page_slice_glyphs page)).
    fold (sheet_of loadedFonts characters totalPages fontType charsPerRow
            rowCount practiceMode guideOpacity pageBreakAfter page).
    fold sheet.
    rewrite IH by lia.
    cbn [zrange map zsum fold_right]. rewrite <- app_assoc.
    f_equal. rewrite <- Z.add_assoc. reflexivity.
Qed.

End MultiPage.

Section Document.

Variable loadedFonts : string -> option string.

(** The document [generateMultiPagePDF] returns, sheet by sheet. *)
Lemma generateMultiPagePDF_sheets (text : jsstring)
    (o : PDFGenerator.pdf_options) :
  0 < opt_pageBreakAfter o ->
  let characters := characters_of text in
  let totalPages := ceil_div (Js.length characters) (opt_pageBreakAfter o) in
  let sheets :=
    map (sheet_of loadedFonts characters totalPages (opt_fontType o)
           (opt_charsPerRow o) (opt_rowCount o) (opt_practiceMode o)
           (opt_guideOpacity o) (opt_pageBreakAfter o))
        (zrange 0 (Z.to_nat totalPages)) in
  PDFGenerator.generateMultiPagePDF loadedFonts text o
  = {| PDFGenerator.pdf := sheets;
       PDFGenerator.totalPages := totalPages;
       PDFGenerator.charactersDrawn := zsum (map sheet_drawn sheets);
       PDFGenerator.totalCharacters := Js.length characters |}.
Proof.
  intros Hpba. cbv zeta.
  pose proof (totalPages_nonneg (characters_of text) _ Hpba) as Hnn.
  unfold PDFGenerator.generateMultiPagePDF.
  unfold opt_fontType, opt_charsPerRow, opt_rowCount, opt_practiceMode,
    opt_guideOpacity, opt_pageBreakAfter in *.
  rewrite page_loop_sheets;
    [reflexivity | apply characters_of_glyphs | exact Hpba | lia | lia].
Qed.

End Document.

(** *** Sums *)

Lemma zsum_map_add {A : Type} (f g : A -> Z) (l : list A) :
  zsum (map (fun x => f x + g x) l) = zsum (map f l) + zsum (map g l).
Proof.
  induction l as [|a l IH]; simpl; [reflexivity|]. rewrite IH. ring.
Qed.

Lemma zsum_map_ext_in {A : Type} (f g : A -> Z) (l : list A) :
  (forall x, In x l -> f x = g x) -> zsum (map f l) = zsum (map g l).
Proof. intros H. f_equal. apply map_ext_in. exact H. Qed.

Lemma length_concat {A : Type} (ls : list (list A)) :
  Js.length (List.concat ls) = zsum (map Js.length ls).
Proof.
  unfold Js.length. induction ls as [|l ls IH]; simpl; [reflexivity|].
  rewrite length_app, Nat2Z.inj_add, IH. reflexivity.
Qed.

(** *** One sheet of a document *)

Section Sheets.

Variable loadedFonts : string -> option string.
Variable characters : list jsstring.
Hypothesis characters_glyphs : Forall glyph_unit characters.
Variable fontType : string.
Variables charsPerRow rowCount : Z.
Hypothesis charsPerRow_range : 1 <= charsPerRow <= 20.
Hypothesis rowCount_range : 1 <= rowCount <= 30.
Variable practiceMode : bool.
Variable guideOpacity : Q.
Variable pageBreakAfter : Z.
Hypothesis pageBreakAfter_pos : 0 < pageBreakAfter.

Let n := Js.length characters.
Let totalPages := ceil_div n pageBreakAfter.
Let sheet :=
  sheet_of loadedFonts characters totalPages fontType charsPerRow rowCount
           practiceMode guideOpacity pageBreakAfter.

Lemma sheet_length_range (page : Z) :
  0 <= page < totalPages -> 0 < sheet_length (sheet page) <= pageBreakAfter.
Proof.
  intros Hp. unfold sheet, totalPages, n in *.
  rewrite (sheet_length_slice loadedFonts characters characters_glyphs).
  apply (length_page_slice characters pageBreakAfter pageBreakAfter_pos).
  exact Hp.
Qed.

(** The rows asked for a sheet stay inside [1, rowCount]. *)
Lemma rows_needed_range (len : Z) :
  0 < len ->
  PDFGenerator.rows_needed charsPerRow rowCount len
  = Z.min rowCount (ceil_div len charsPerRow)
  /\ 1 <= PDFGenerator.rows_needed charsPerRow rowCount len <= rowCount.
Proof.
  intros Hlen. unfold PDFGenerator.rows_needed.
  destruct (Z.eqb_spec charsPerRow 0) as [?|_]; [lia|].
  pose proof (ceil_div_pos len charsPerRow ltac:(lia) Hlen). lia.
Qed.

Lemma sheet_canvas_layout (page : Z) :
  0 <= page < totalPages ->
  layout (PDFGenerator.canvasResult (sheet page))
  = calculateA4Layout charsPerRow
      (Z.min rowCount (ceil_div (sheet_length (sheet page)) charsPerRow)).
Proof.
  intros Hp. pose proof (sheet_length_range page Hp) as Hlen.
  unfold sheet_length in *. fold sheet.
  unfold sheet, sheet_of in *. cbn [PDFGenerator.canvasResult
    PDFGenerator.pageText] in *.
  set (slice_p := page_slice characters pageBreakAfter page) in *.
  assert (Hg : Forall glyph_unit slice_p)
    by (apply Forall_slice; exact characters_glyphs).
  rewrite (characters_of_join _ Hg) in *.
  rewrite (length_join _ Hg).
  destruct (rows_needed_range (Js.length slice_p) ltac:(lia)) as [Hr Hrr].
  assert (Hl : forall opts,
             layout
               (generateCopybook loadedFonts (join slice_p) fontType
                  (Num charsPerRow)
                  (Num (PDFGenerator.rows_needed charsPerRow rowCount
                          (Js.length slice_p))) opts)
             = calculateA4Layout charsPerRow
                 (Z.min rowCount (ceil_div (Js.length slice_p) charsPerRow))).
  { intros opts. rewrite generateCopybook_layout. cbn [param_default].
    rewrite !clamp_count_in_range by lia. rewrite Hr. reflexivity. }
  destruct practiceMode; [unfold generatePracticeCopybook|]; apply Hl.
Qed.

Lemma sheet_canvas_drawn (page : Z) :
  0 <= page < totalPages ->
  sheet_drawn (sheet page)
  = Z.min (sheet_length (sheet page)) (charsPerRow * rowCount).
Proof.
  intros Hp. pose proof (sheet_length_range page Hp) as Hlen.
  pose proof (sheet_canvas_layout page Hp) as Hlay.
  unfold sheet_drawn.
  assert (Hd : charactersDrawn (PDFGenerator.canvasResult (sheet page))
               = Z.min (sheet_length (sheet page))
                   (charsPerRow
                    * Z.min rowCount
                        (ceil_div (sheet_length (sheet page)) charsPerRow))).
  { unfold sheet_length in *. unfold sheet, sheet_of in *.
    cbn [PDFGenerator.canvasResult PDFGenerator.pageText] in *.
    destruct practiceMode; [unfold generatePracticeCopybook in *|];
      rewrite generateCopybook_charactersDrawn, Hlay; reflexivity. }
  rewrite Hd.
  pose proof (ceil_div_upper (sheet_length (sheet page)) charsPerRow
                ltac:(lia)).
  nia.
Qed.

Lemma sheet_canvas_total (page : Z) :
  totalCharacters (PDFGenerator.canvasResult (sheet page))
  = sheet_length (sheet page).
Proof.
  unfold sheet_length, sheet, sheet_of.
  cbn [PDFGenerator.canvasResult PDFGenerator.pageText].
  destruct practiceMode; [unfold generatePracticeCopybook|];
    apply generateCopybook_totalCharacters.
Qed.

(** The lengths of the sheets add up to the length of the stream. *)
Lemma zsum_sheet_lengths :
  zsum (map (fun page => sheet_length (sheet page))
            (zrange 0 (Z.to_nat totalPages)))
  = n.
Proof.
  unfold totalPages, n.
  rewrite (zsum_map_ext_in _
             (fun page => Js.length
                            (page_slice characters pageBreakAfter page))).
  - rewrite <- (map_map (page_slice characters pageBreakAfter) Js.length).
    rewrite <- length_concat.
    rewrite (concat_all_page_slices characters pageBreakAfter
               pageBreakAfter_pos).
    reflexivity.
  - intros page _. unfold sheet, totalPages, n.
    apply (sheet_length_slice loadedFonts characters characters_glyphs).
Qed.

End Sheets.

Lemma nth_zrange (i : Z) (k j : nat) (d : Z) :
  (j < k)%nat -> nth j (zrange i k) d = i + Z.of_nat j.
Proof.
  revert i j. induction k as [|k IH]; intros i j Hj; [lia|].
  destruct j as [|j]; cbn [zrange nth]; [lia|].
  rewrite IH by lia. lia.
Qed.

Lemma nth_map_zrange {A : Type} (f : Z -> A) (i : Z) (k j : nat) (d : A) :
  (j < k)%nat -> nth j (map f (zrange i k)) d = f (i + Z.of_nat j).
Proof.
  revert i j. induction k as [|k IH]; intros i j Hj; [lia|].
  destruct j as [|j]; cbn [zrange map nth].
  - f_equal. lia.
  - rewrite IH by lia. f_equal. lia.
Qed.

Lemma join_concat_map {A : Type} (f : A -> list jsstring) (l : list A) :
  join (map (fun x => join (f x)) l) = join (List.concat (map f l)).
Proof.
  unfold join. induction l as [|a l IH]; [reflexivity|].
  cbn [map List.concat]. rewrite concat_app, IH. reflexivity.
Qed.

(* ===================================================================== *)
(** ** The layout is a function of the grid counts alone                  *)
(* ===================================================================== *)

(** C10: the layout record returned by [generateCopybook] does not depend
    on the text: two calls with the same font type, charsPerRow, rowCount
    and options return equal layouts, namely the layout computed from the
    clamped grid counts. *)
Theorem C10_layout_independent_of_text
    (loadedFonts : string -> option string) (text1 text2 : jsstring)
    (fontType : string) (c r : value) (opts : options) :
  layout (generateCopybook loadedFonts text1 fontType c r opts)
  = layout (generateCopybook loadedFonts text2 fontType c r opts)
  /\ layout (generateCopybook loadedFonts text1 fontType c r opts)
     = calculateA4Layout (clamp_count 20 15 (param_default c 15))
                         (clamp_count 30 5 (param_default r 5)).
Proof.
  rewrite !generateCopybook_layout. split; reflexivity.
Qed.

(* ===================================================================== *)
(** ** Character placement                                                *)
(* ===================================================================== *)

(** C6: the grid [generateCopybook] lays out is the one of the request:
    its counts are the requested ones coerced into 1..20 and 1..30, the
    requested ones themselves when they are numbers in range.  The placer
    walks that grid row by row from the top-left cell and stops when the
    grid or the stream is exhausted: [charactersDrawn] is
    min(stream length, charsPerRow * rowCount), and the glyphs drawn are
    the first [charactersDrawn] characters of the stream, the k-th one in
    cell (k / charsPerRow, k mod charsPerRow), after the background and
    the charsPerRow * rowCount cells of the grid.  An empty stream gives
    the background and the full grid, no glyph, and a count of 0. *)
Theorem C6_characters_drawn
    (loadedFonts : string -> option string) (text : jsstring)
    (fontType : string) (c r : value) (opts : options) :
  let res := generateCopybook loadedFonts text fontType c r opts in
  let l := layout res in
  let stream := characters_of text in
  let columns := clamp_count 20 15 (param_default c 15) in
  let rows := clamp_count 30 5 (param_default r 5) in
  l = calculateA4Layout columns rows
  /\ charsPerRow l = columns /\ rowCount l = rows
  /\ 1 <= columns <= 20 /\ 1 <= rows <= 30
  /\ (forall n m, c = Num n -> r = Num m ->
        1 <= n <= 20 -> 1 <= m <= 30 ->
        columns = n /\ rows = m
        /\ charactersDrawn res = Z.min (Js.length stream) (n * m))
  /\ charactersDrawn res = Z.min (Js.length stream) (columns * rows)
  /\ totalCharacters res = Js.length stream
  /\ calls (canvas res)
     = FillBackground (totalWidth l) (totalHeight l)
       :: grid_cells l
       ++ map (glyph_at l stream (getFontFamily loadedFonts fontType)
                 (alpha_in opts 1))
              (zrange 0 (Z.to_nat (charactersDrawn res)))
  /\ Js.length (grid_cells l) = columns * rows
  /\ (stream = [] ->
      charactersDrawn res = 0
      /\ calls (canvas res)
         = FillBackground (totalWidth l) (totalHeight l) :: grid_cells l).
Proof.
  intros res l stream columns rows.
  pose proof (generateCopybook_charactersDrawn loadedFonts text fontType
                c r opts) as Hd.
  pose proof (generateCopybook_calls loadedFonts text fontType c r opts)
    as Hc.
  pose proof (generateCopybook_layout loadedFonts text fontType c r opts)
    as Hl.
  pose proof (generateCopybook_totalCharacters loadedFonts text fontType
                c r opts) as Ht.
  cbv zeta in Hd, Hc. fold res in Hd, Hc, Hl, Ht. fold l in Hd, Hc, Hl.
  fold stream in Hd, Hc, Ht. fold columns rows in Hl.
  assert (Hcols : 1 <= columns <= 20) by (apply clamp_count_range; lia).
  assert (Hrows : 1 <= rows <= 30) by (apply clamp_count_range; lia).
  assert (Hcl : charsPerRow l = columns) by (rewrite Hl; reflexivity).
  assert (Hrl : rowCount l = rows) by (rewrite Hl; reflexivity).
  rewrite Hcl, Hrl in Hd.
  split; [exact Hl|]. split; [exact Hcl|]. split; [exact Hrl|].
  split; [exact Hcols|]. split; [exact Hrows|].
  split.
  { intros n m Hcn Hrm Hn Hm.
    assert (Hcn' : columns = n).
    { unfold columns. rewrite Hcn. cbn [param_default].
      apply clamp_count_in_range; lia. }
    assert (Hrm' : rows = m).
    { unfold rows. rewrite Hrm. cbn [param_default].
      apply clamp_count_in_range; lia. }
    split; [exact Hcn'|]. split; [exact Hrm'|].
    rewrite Hd, Hcn', Hrm'. reflexivity. }
  split; [exact Hd|]. split; [exact Ht|]. split; [exact Hc|].
  split; [rewrite <- Hcl, <- Hrl; apply length_grid_cells; lia|].
  intros He.
  assert (H0 : charactersDrawn res = 0).
  { rewrite Hd, He. unfold Js.length. simpl. nia. }
  split; [exact H0|].
  rewrite Hc, H0. simpl. rewrite app_nil_r. reflexivity.
Qed.

(* ===================================================================== *)
(** ** Pagination                                                         *)
(* ===================================================================== *)

(** C2: for a page size charsPerPage > 0 and a stream of n characters,
    [generateMultiPagePDF] produces totalPages = ceil(n / charsPerPage)
    sheets; sheet i receives exactly the characters
    [i * charsPerPage, min((i+1) * charsPerPage, n)) of the stream, and the
    sheets' characters, concatenated in page order, are the whole
    whitespace-stripped stream. *)
Theorem C2_pagination_exact
    (loadedFonts : string -> option string) (text : jsstring)
    (o : PDFGenerator.pdf_options) :
  0 < opt_pageBreakAfter o ->
  let res := PDFGenerator.generateMultiPagePDF loadedFonts text o in
  let stream := characters_of text in
  let n := Js.length stream in
  let charsPerPage := opt_pageBreakAfter o in
  let received :=
    map (fun p => characters_of (PDFGenerator.pageText p))
        (PDFGenerator.pdf res) in
  PDFGenerator.totalPages res = ceil_div n charsPerPage
  /\ (PDFGenerator.totalPages res - 1) * charsPerPage < n
       <= PDFGenerator.totalPages res * charsPerPage
  /\ Js.length (PDFGenerator.pdf res) = PDFGenerator.totalPages res
  /\ (forall i, 0 <= i < PDFGenerator.totalPages res ->
        nth (Z.to_nat i) received []
        = slice stream (i * charsPerPage)
                (Z.min ((i + 1) * charsPerPage) n)
        /\ nth (Z.to_nat i) received [] <> [])
  /\ List.concat received = stream
  /\ join (map PDFGenerator.pageText (PDFGenerator.pdf res))
     = replace_ws text.
Proof.
  intros Hpba res stream n charsPerPage received.
  pose proof (generateMultiPagePDF_sheets loadedFonts text o Hpba) as Hs.
  cbv zeta in Hs. fold res stream in Hs. fold n charsPerPage in Hs.
  set (T := ceil_div n charsPerPage) in *.
  set (sheet := sheet_of loadedFonts stream T (opt_fontType o)
                  (opt_charsPerRow o) (opt_rowCount o) (opt_practiceMode o)
                  (opt_guideOpacity o) (opt_pageBreakAfter o)) in *.
  pose proof (totalPages_nonneg stream charsPerPage Hpba) as HT.
  fold n T in HT.
  assert (Hrec : received = map (page_slice stream charsPerPage)
                                (zrange 0 (Z.to_nat T))).
  { unfold received. rewrite Hs. cbn [PDFGenerator.pdf].
    rewrite map_map. apply map_ext. intros page.
    apply (sheet_characters loadedFonts stream (characters_of_glyphs text)). }
  rewrite Hs. cbn [PDFGenerator.totalPages PDFGenerator.pdf].
  split; [reflexivity|].
  split.
  { pose proof (ceil_div_lower n charsPerPage Hpba) as Hlo.
    pose proof (ceil_div_upper n charsPerPage Hpba) as Hup.
    fold T in Hlo, Hup. lia. }
  split.
  { unfold Js.length. rewrite length_map, length_zrange. lia. }
  split.
  { intros i Hi. rewrite Hrec.
    assert (Hnth : nth (Z.to_nat i)
                     (map (page_slice stream charsPerPage)
                        (zrange 0 (Z.to_nat T))) []
                   = page_slice stream charsPerPage i).
    { rewrite nth_map_zrange by lia. f_equal. lia. }
    rewrite Hnth. split; [reflexivity|].
    destruct (length_page_slice stream charsPerPage Hpba i
                ltac:(fold n T; lia)) as [_ Hlen].
    intros He. rewrite He in Hlen. unfold Js.length in Hlen. simpl in Hlen.
    lia. }
  split.
  { rewrite Hrec. apply (concat_all_page_slices stream charsPerPage Hpba). }
  rewrite <- join_characters_of. fold stream.
  rewrite <- (concat_all_page_slices stream charsPerPage Hpba) at 2.
  fold n T. rewrite map_map. unfold sheet, sheet_of.
  cbn [PDFGenerator.pageText].
  apply (join_concat_map (page_slice stream charsPerPage)).
Qed.

Lemma C2_pagination_exact_witness :
  PDFGenerator.totalPages
    (PDFGenerator.generateMultiPagePDF no_fonts (sample_text 320)
       (grid_options 10 15 150)) = 3.
Proof.
  destruct (C2_pagination_exact no_fonts (sample_text 320)
              (grid_options 10 15 150) ltac:(reflexivity)) as [H _].
  rewrite H. reflexivity.
Defined.




(* ===================================================================== *)
(** ** Character conservation                                             *)
(* ===================================================================== *)

(** C3, as stated, fails for the multi-page path: 300 characters cut every
    200 on a 10 x 15 grid make two sheets, so the total capacity
    10 * 15 * 2 covers the stream, yet the first sheet holds only 150 of
    its 200 characters and the document reports 250 drawn out of 300. *)
Lemma C3_total_capacity_not_enough :
  let res := PDFGenerator.generateMultiPagePDF no_fonts (sample_text 300)
               (grid_options 10 15 200) in
  ~ (PDFGenerator.totalCharacters res
       <= 10 * 15 * PDFGenerator.totalPages res ->
     PDFGenerator.charactersDrawn res = PDFGenerator.totalCharacters res).
Proof.
  cbv zeta. intros H.
  assert (Hres :
    PDFGenerator.totalPages
      (PDFGenerator.generateMultiPagePDF no_fonts (sample_text 300)
         (grid_options 10 15 200)) = 2
    /\ PDFGenerator.totalCharacters
         (PDFGenerator.generateMultiPagePDF no_fonts (sample_text 300)
            (grid_options 10 15 200)) = 300
    /\ PDFGenerator.charactersDrawn
         (PDFGenerator.generateMultiPagePDF no_fonts (sample_text 300)
            (grid_options 10 15 200)) = 250)
    by (vm_compute; repeat split; reflexivity).
  destruct Hres as (HT & Hn & Hd).
  rewrite HT, Hn, Hd in H. clear HT Hn Hd. lia.
Qed.

(** C3 (amended): characters drawn plus characters truncated is the length
    of the whitespace-stripped text, a sheet truncating what exceeds its
    grid capacity charsPerRow * rowCount.  Single page: charactersDrawn =
    totalCharacters when the capacity of the layout covers the stream.
    Multi-page, for a grid request in range and a page size > 0: the
    document's charactersDrawn is the sum of the sheets' charactersDrawn,
    and it equals totalCharacters when every sheet's grid covers a full
    page slice, that is when charsPerPage <= charsPerRow * rowCount. *)
Theorem C3_character_conservation
    (loadedFonts : string -> option string) (text : jsstring)
    (o : PDFGenerator.pdf_options) :
  1 <= opt_charsPerRow o <= 20 ->
  1 <= opt_rowCount o <= 30 ->
  0 < opt_pageBreakAfter o ->
  (forall fontType c r opts,
      let res := generateCopybook loadedFonts text fontType c r opts in
      let capacity := charsPerRow (layout res)
                      * rowCount (layout res) in
      totalCharacters res = Js.length (replace_ws text)
      /\ charactersDrawn res + Z.max 0 (totalCharacters res - capacity)
         = totalCharacters res
      /\ (totalCharacters res <= capacity ->
          charactersDrawn res = totalCharacters res))
  /\ (let res := PDFGenerator.generateMultiPagePDF loadedFonts text o in
      let capacity := opt_charsPerRow o * opt_rowCount o in
      PDFGenerator.totalCharacters res = Js.length (replace_ws text)
      /\ PDFGenerator.charactersDrawn res
         = zsum (map sheet_drawn (PDFGenerator.pdf res))
      /\ PDFGenerator.charactersDrawn res
         + zsum (map (fun p => Z.max 0 (sheet_length p - capacity))
                     (PDFGenerator.pdf res))
         = PDFGenerator.totalCharacters res
      /\ (opt_pageBreakAfter o <= capacity ->
          PDFGenerator.charactersDrawn res
          = PDFGenerator.totalCharacters res)).
Proof.
  intros Hc Hr Hpba. split.
  - intros fontType c r opts res capacity. subst capacity.
    pose proof (generateCopybook_charactersDrawn loadedFonts text fontType
                  c r opts) as Hd.
    pose proof (generateCopybook_totalCharacters loadedFonts text fontType
                  c r opts) as Ht.
    cbv zeta in Hd. fold res in Hd, Ht.
    rewrite length_characters_of in Hd, Ht.
    rewrite !Ht. split; [reflexivity|]. lia.
  - intros res capacity.
    pose proof (generateMultiPagePDF_sheets loadedFonts text o Hpba) as Hs.
    cbv zeta in Hs. fold res in Hs.
    set (stream := characters_of text) in *.
    set (T := ceil_div (Js.length stream) (opt_pageBreakAfter o)) in *.
    set (sheet := sheet_of loadedFonts stream T (opt_fontType o)
                    (opt_charsPerRow o) (opt_rowCount o)
                    (opt_practiceMode o) (opt_guideOpacity o)
                    (opt_pageBreakAfter o)) in *.
    set (pages := zrange 0 (Z.to_nat T)) in *.
    pose proof (totalPages_nonneg stream _ Hpba) as HT. fold T in HT.
    assert (Hpages : forall page, In page pages -> 0 <= page < T).
    { intros page Hin. apply in_zrange in Hin. lia. }
    assert (Hdrawn : forall page, In page pages ->
               sheet_drawn (sheet page)
               = Z.min (sheet_length (sheet page)) capacity).
    { intros page Hin.
      apply (sheet_canvas_drawn loadedFonts stream
               (characters_of_glyphs text) (opt_fontType o)
               (opt_charsPerRow o) (opt_rowCount o) Hc Hr
               (opt_practiceMode o) (opt_guideOpacity o)
               (opt_pageBreakAfter o) Hpba page (Hpages page Hin)). }
    assert (Hlen : forall page, In page pages ->
               0 < sheet_length (sheet page) <= opt_pageBreakAfter o).
    { intros page Hin.
      apply (sheet_length_range loadedFonts stream
               (characters_of_glyphs text) (opt_fontType o)
               (opt_charsPerRow o) (opt_rowCount o)
               (opt_practiceMode o) (opt_guideOpacity o)
               (opt_pageBreakAfter o) Hpba page (Hpages page Hin)). }
    pose proof (zsum_sheet_lengths loadedFonts stream
                  (characters_of_glyphs text) (opt_fontType o)
                  (opt_charsPerRow o) (opt_rowCount o)
                  (opt_practiceMode o) (opt_guideOpacity o)
                  (opt_pageBreakAfter o) Hpba) as Hsum.
    fold T sheet pages in Hsum.
    rewrite Hs.
    cbn [PDFGenerator.totalCharacters PDFGenerator.charactersDrawn
         PDFGenerator.pdf].
    split; [apply length_characters_of|].
    split; [reflexivity|].
    rewrite !map_map.
    split.
    + rewrite <- zsum_map_add, <- Hsum.
      apply zsum_map_ext_in. intros page Hin.
      rewrite (Hdrawn page Hin). lia.
    + intros Hcap. rewrite <- Hsum.
      apply zsum_map_ext_in. intros page Hin.
      rewrite (Hdrawn page Hin). specialize (Hlen page Hin). lia.
Qed.

Lemma C3_character_conservation_witness :
  PDFGenerator.charactersDrawn
    (PDFGenerator.generateMultiPagePDF no_fonts (sample_text 320)
       (grid_options 10 15 150))
  = PDFGenerator.totalCharacters
      (PDFGenerator.generateMultiPagePDF no_fonts (sample_text 320)
         (grid_options 10 15 150)).
Proof.
  destruct (C3_character_conservation no_fonts (sample_text 320)
              (grid_options 10 15 150)
              ltac:(vm_compute; split; discriminate)
              ltac:(vm_compute; split; discriminate)
              ltac:(reflexivity)) as [_ (_ & _ & _ & H)].
  apply H. vm_compute. discriminate.
Defined.

(* ===================================================================== *)
(** ** Text validation                                                    *)
(* ===================================================================== *)

(** A text of two characters separated by 2000 spaces: 2002 code units
    once trimmed, 2 once stripped of white space; [validateText] refuses it
    as too long. *)
Lemma sparse_text_refused :
  let text := (97%N :: repeat 32%N 2000 ++ [98%N]) in
  Js.length (trim text) = 2002
  /\ Js.length (replace_ws text) = 2
  /\ validateText (Str text)
     = Throw "Text content is too long (maximum 2000 characters)".
Proof. vm_compute. repeat split; reflexivity. Qed.

(** C5, as stated, fails: the cap is not measured on the
    whitespace-stripped text.  For the string above, [validateText] raises
    although the string is not empty once trimmed and has only 2 characters
    once stripped. *)
Lemma C5_cap_not_on_stripped_text :
  let text := (97%N :: repeat 32%N 2000 ++ [98%N]) in
  ~ ((exists message, validateText (Str text) = Throw message)
     <-> (Js.length (trim text) = 0
          \/ 2000 < Js.length (replace_ws text))).
Proof.
  cbv zeta. destruct sparse_text_refused as (Ht & Hs & Hv).
  intros [H _].
  destruct (H (ex_intro _ _ Hv)) as [H0|H1].
  - rewrite Ht in H0. discriminate H0.
  - rewrite Hs in H1. discriminate H1.
Qed.

(** C5 (amended): [validateText] raises exactly when the input is not a
    string, or is empty once trimmed, or has more than 2000 code units once
    trimmed (leading and trailing white space removed, inner white space
    counted).  On success it returns the trimmed text; on failure
    [generatePDF] returns nothing but the error. *)
Theorem C5_validateText (text : value) :
  ((exists message, validateText text = Throw message) <-> refused text)
  /\ (forall t, validateText text = Ok t <->
        exists s, text = Str s /\ t = trim s /\ 1 <= Js.length t <= 2000)
  /\ (forall loadedFonts o,
        refused text ->
        exists message,
          PDFGenerator.generatePDF loadedFonts text o = Throw message).
Proof.
  assert (Hcases :
    (refused text /\ exists message, validateText text = Throw message)
    \/ (exists s, text = Str s /\ validateText text = Ok (trim s)
                  /\ 1 <= Js.length (trim s) <= 2000)).
  { destruct text as [| |b|k|s];
      try (left; split; [exact I | eexists; reflexivity]).
    unfold validateText, refused.
    destruct s as [|c s].
    - left. split; [left; reflexivity | eexists; reflexivity].
    - cbn [truthy_string negb].
      pose proof (length_nonneg (trim (c :: s))) as Hnn.
      destruct (Z.eqb_spec (Js.length (trim (c :: s))) 0) as [He|Hne].
      + left. split; [left; exact He | eexists; reflexivity].
      + destruct (Z.gtb_spec (Js.length (trim (c :: s))) 2000) as [Hgt|Hle].
        * left. split; [right; lia | eexists; reflexivity].
        * right. exists (c :: s). repeat split; lia. }
  split; [|split].
  - split.
    + intros [message Hm].
      destruct Hcases as [[Hr _]|(s & -> & Hok & _)]; [exact Hr|].
      rewrite Hok in Hm. discriminate Hm.
    + intros Hr.
      destruct Hcases as [[_ Hm]|(s & -> & _ & Hlen)]; [exact Hm|].
      unfold refused in Hr. lia.
  - intros t. split.
    + intros Hok.
      destruct Hcases as [[_ [message Hm]]|(s & -> & Hs & Hlen)].
      * rewrite Hm in Hok. discriminate Hok.
      * rewrite Hs in Hok. injection Hok as <-.
        exists s. repeat split; lia.
    + intros (s & -> & -> & Hlen).
      destruct Hcases as [[Hr _]|(s' & Heq & Hs & _)].
      * unfold refused in Hr. lia.
      * injection Heq as <-. exact Hs.
  - intros loadedFonts o Hr.
    destruct Hcases as [[_ [message Hm]]|(s & -> & _ & Hlen)].
    + unfold PDFGenerator.generatePDF. rewrite Hm. eexists. reflexivity.
    + unfold refused in Hr. lia.
Qed.

(* ===================================================================== *)
(** ** Guide opacity                                                      *)
(* ===================================================================== *)

Lemma clamp_opacity_range (q : Q) :
  (1 # 10 <= clamp_opacity q)%Q /\ (clamp_opacity q <= 1)%Q.
Proof.
  unfold clamp_opacity, Qmax2, Qmin2.
  destruct (Qle_bool 1 q) eqn:H1.
  - change (Qle_bool (1 # 10) 1) with true. split; [discriminate|].
    apply Qle_refl.
  - destruct (Qle_bool (1 # 10) q) eqn:H2.
    + split; [apply Qle_bool_iff; exact H2|].
      apply Qlt_le_weak, Qnot_le_lt. intros H.
      apply Qle_bool_iff in H. congruence.
    + split; [apply Qle_refl | discriminate].
Qed.

Lemma param_default_idem (v : value) (d : Z) :
  param_default (param_default v d) d = param_default v d.
Proof. destruct v; reflexivity. Qed.

Lemma or_opacity_nonzero (q d : Q) :
  ~ (q == 0)%Q -> or_opacity (Some q) d = q.
Proof.
  intros Hq. unfold or_opacity.
  destruct (Qeq_bool q 0) eqn:He; [|reflexivity].
  apply Qeq_bool_iff in He. contradiction.
Qed.

(** Comparisons on opacities, as propositions. *)
Lemma Qle_bool_false (a b : Q) : Qle_bool a b = false -> (b < a)%Q.
Proof.
  intros H. apply Qnot_le_lt. intros C. apply Qle_bool_iff in C.
  congruence.
Qed.

Ltac opacity_cases :=
  repeat match goal with
  | |- context [Qle_bool ?a ?b] =>
      let H := fresh "H" in
      destruct (Qle_bool a b) eqn:H;
      [apply Qle_bool_iff in H | apply Qle_bool_false in H]
  | H0 : context [Qle_bool ?a ?b] |- _ =>
      let H := fresh "H" in
      destruct (Qle_bool a b) eqn:H;
      [apply Qle_bool_iff in H | apply Qle_bool_false in H]
  end.

(** What the context does with the guide opacity: a value in [0, 1] is
    taken, any other is ignored and the glyph is drawn with the opacity in
    force, which is 1. *)
Lemma alpha_in_practice (q : Q) :
  ~ (q == 0)%Q ->
  alpha_in (practice q) 1 = if valid_alpha q then q else 1%Q.
Proof.
  intros Hq. unfold alpha_in, practice.
  cbn [CanvasGenerator.practiceMode CanvasGenerator.guideOpacity].
  rewrite (or_opacity_nonzero q _ Hq). reflexivity.
Qed.

(** C9, as stated, fails: [generateCopybook] has no lower clamp.  In
    practice mode with guideOpacity 0.05 the guide character is drawn with
    opacity 0.05, not with the clamped 0.1; with guideOpacity -0.5 the
    context ignores the value and the character is drawn with opacity 1,
    not with the clamped 0.1. *)
Lemma C9_generateCopybook_does_not_clamp :
  ~ Forall (drawn_with (clamp_opacity (1 # 20)))
      (calls (canvas
                (generateCopybook no_fonts (sample_text 1) "serif"
                   (Num 1) (Num 1) (practice (1 # 20)))))
  /\ ~ Forall (drawn_with (clamp_opacity (- 1 # 2)))
        (calls (canvas
                  (generateCopybook no_fonts (sample_text 1) "serif"
                     (Num 1) (Num 1) (practice (- 1 # 2))))).
Proof.
  split.
  - assert (Hcalls :
      calls (canvas
               (generateCopybook no_fonts (sample_text 1) "serif"
                  (Num 1) (Num 1) (practice (1 # 20))))
      = [FillBackground 2480 2480; RiceGrid 40 40 2400;
         Character [20320%N] (2480 # 2) (2480 # 2) 2160 "serif" (1 # 20)])
      by (vm_compute; reflexivity).
    rewrite Hcalls. clear Hcalls. intros H.
    inversion H as [|? ? _ H1]; subst.
    inversion H1 as [|? ? _ H2]; subst.
    inversion H2 as [|? ? H3 _]; subst.
    vm_compute in H3. discriminate H3.
  - assert (Hcalls :
      calls (canvas
               (generateCopybook no_fonts (sample_text 1) "serif"
                  (Num 1) (Num 1) (practice (- 1 # 2))))
      = [FillBackground 2480 2480; RiceGrid 40 40 2400;
         Character [20320%N] (2480 # 2) (2480 # 2) 2160 "serif" 1])
      by (vm_compute; reflexivity).
    rewrite Hcalls. clear Hcalls. intros H.
    inversion H as [|? ? _ H1]; subst.
    inversion H1 as [|? ? _ H2]; subst.
    inversion H2 as [|? ? H3 _]; subst.
    vm_compute in H3. discriminate H3.
Qed.

(** C9 (amended): [validateOptions] returns a supplied non-zero
    guideOpacity clamped into [0.1, 1.0], and whatever is supplied its
    result lies in [0.1, 1.0].  In the generation paths, practice mode on,
    a supplied guideOpacity of at least 0.1 is used clamped into
    [0.1, 1.0] (the context ignores a value above 1 and the opacity stays
    1); there is no lower clamp: a value between 0 and 0.1 is used as
    given, and a negative value is ignored, so that the guide characters
    are drawn with opacity 1.  No guideOpacity makes any of them raise. *)
Theorem C9_guide_opacity (q : Q) :
  ~ (q == 0)%Q ->
  (forall o, PDFGenerator.raw_guideOpacity o = Some q ->
     PDFGenerator.guideOpacity (PDFGenerator.validateOptions o)
     = Some (clamp_opacity q))
  /\ (forall o, exists a,
        PDFGenerator.guideOpacity (PDFGenerator.validateOptions o) = Some a
        /\ (1 # 10 <= a)%Q /\ (a <= 1)%Q)
  /\ (forall loadedFonts text fontType c r,
        let res := generateCopybook loadedFonts text fontType c r
                     (practice q) in
        let l := layout res in
        calls (canvas res)
        = FillBackground (totalWidth l) (totalHeight l)
          :: grid_cells l
          ++ map (glyph_at l (characters_of text)
                    (getFontFamily loadedFonts fontType)
                    (alpha_in (practice q) 1))
                 (zrange 0 (Z.to_nat (charactersDrawn res))))
  /\ ((1 # 10 <= q)%Q -> (alpha_in (practice q) 1 == clamp_opacity q)%Q)
  /\ ((0 < q)%Q -> (q < 1 # 10)%Q -> alpha_in (practice q) 1 = q)
  /\ ((q < 0)%Q -> alpha_in (practice q) 1 = 1%Q)
  /\ (forall loadedFonts text fontType c r,
        generatePracticeCopybook loadedFonts text fontType c r (Some q)
        = generateCopybook loadedFonts text fontType c r (practice q)).
Proof.
  intros Hq. split; [|split; [|split; [|split; [|split; [|split]]]]].
  - intros o Ho. unfold PDFGenerator.validateOptions.
    cbn [PDFGenerator.guideOpacity]. rewrite Ho.
    cbn [PDFGenerator.dflt]. rewrite (or_opacity_nonzero q _ Hq).
    reflexivity.
  - intros o. unfold PDFGenerator.validateOptions.
    cbn [PDFGenerator.guideOpacity]. eexists. split; [reflexivity|].
    apply clamp_opacity_range.
  - intros loadedFonts text fontType c r res l.
    pose proof (generateCopybook_calls loadedFonts text fontType c r
                  (practice q)) as H.
    cbv zeta in H. fold res in H. fold l in H. exact H.
  - intros Hlo. rewrite (alpha_in_practice q Hq).
    unfold valid_alpha, clamp_opacity, Qmax2, Qmin2.
    opacity_cases; cbn [andb]; try reflexivity; lra.
  - intros H0 H1. rewrite (alpha_in_practice q Hq).
    unfold valid_alpha. opacity_cases; cbn [andb]; try reflexivity; lra.
  - intros H0. rewrite (alpha_in_practice q Hq).
    unfold valid_alpha. opacity_cases; cbn [andb]; try reflexivity; lra.
  - intros loadedFonts text fontType c r.
    unfold generatePracticeCopybook, generateCopybook.
    rewrite !param_default_idem. reflexivity.
Qed.

Lemma C9_guide_opacity_witness :
  PDFGenerator.guideOpacity
    (PDFGenerator.validateOptions (raw_with None (Some (5 # 1))))
  = Some (clamp_opacity (5 # 1))
  /\ (alpha_in (practice (5 # 1)) 1 == clamp_opacity (5 # 1))%Q
  /\ clamp_opacity (5 # 1) = 1%Q.
Proof.
  destruct (C9_guide_opacity (5 # 1) ltac:(discriminate))
    as (H1 & _ & _ & H2 & _).
  split; [apply H1; reflexivity|].
  split; [apply H2; discriminate | reflexivity].
Defined.

(* ===================================================================== *)
(** ** Placement of the bitmap on the sheet                               *)
(* ===================================================================== *)

(** C8, as stated, fails in double arithmetic.  For the canvas of the
    15 x 5 grid, the default of [generateCopybook], 2480 x 880 pixels, the
    gap above the bitmap and the gap below it are not equal: halving and
    adding the margin round.  And not every bitmap fits: for a bitmap of
    1 x 21 pixels the scaled height, 21 times the rounded quotient, exceeds
    the content height. *)
Lemma C8_rounding_breaks_centring_and_fit :
  let l := calculateA4Layout 15 5 in
  (totalWidth l = 2480 /\ totalHeight l = 880)
  /\ ~ (top_gap (totalWidth l) (totalHeight l)
        == bottom_gap (totalWidth l) (totalHeight l))%Q
  /\ ~ (rational (PDFGenerator.height (PDFGenerator.calculateImageDimensions 1 21))
        <= sheet_contentHeight)%Q.
Proof.
  cbv zeta. split; [split; reflexivity|]. split.
  - intros H. apply Qeq_bool_iff in H. vm_compute in H. discriminate H.
  - intros H. apply Qle_bool_iff in H. vm_compute in H. discriminate H.
Qed.

(** The canvas [generateCopybook] returns keeps the size it was created
    with, the size of its layout. *)
Lemma drawGrid_cols_size (n : nat) (col : Z) (l : Layout) (row : Z)
    (cv : Canvas) :
  CanvasGenerator.width (drawGrid_cols n col l row cv)
  = CanvasGenerator.width cv
  /\ CanvasGenerator.height (drawGrid_cols n col l row cv)
     = CanvasGenerator.height cv.
Proof.
  revert col cv. induction n as [|n IH]; intros col cv;
    [split; reflexivity|].
  cbn [drawGrid_cols]. destruct (col <? charsPerRow l);
    [|split; reflexivity].
  destruct (IH (col + 1)
              (drawRiceGrid cv (padding + col * cellSize l)
                 (padding + row * cellSize l) (cellSize l))) as [Hw Hh].
  rewrite Hw, Hh. split; reflexivity.
Qed.

Lemma drawGrid_rows_size (n : nat) (row : Z) (l : Layout) (cv : Canvas) :
  CanvasGenerator.width (drawGrid_rows n row l cv) = CanvasGenerator.width cv
  /\ CanvasGenerator.height (drawGrid_rows n row l cv)
     = CanvasGenerator.height cv.
Proof.
  revert row cv. induction n as [|n IH]; intros row cv;
    [split; reflexivity|].
  cbn [drawGrid_rows]. destruct (row <? rowCount l); [|split; reflexivity].
  destruct (IH (row + 1)
              (drawGrid_cols (Z.to_nat (charsPerRow l)) 0 l row cv))
    as [Hw Hh].
  destruct (drawGrid_cols_size (Z.to_nat (charsPerRow l)) 0 l row cv)
    as [Hw' Hh'].
  rewrite Hw, Hh, Hw', Hh'. split; reflexivity.
Qed.

Lemma drawGrid_size (cv : Canvas) (l : Layout) :
  CanvasGenerator.width (drawGrid cv l) = CanvasGenerator.width cv
  /\ CanvasGenerator.height (drawGrid cv l) = CanvasGenerator.height cv.
Proof. apply drawGrid_rows_size. Qed.

Lemma place_size (l : Layout) (characters : list jsstring) (family : string)
    (opts : options) (row col i : Z) (cv : Canvas) :
  CanvasGenerator.width (place l characters family opts row col i cv)
  = CanvasGenerator.width cv
  /\ CanvasGenerator.height (place l characters family opts row col i cv)
     = CanvasGenerator.height cv.
Proof.
  unfold place, set_globalAlpha, drawCharacterInCell, emit.
  destruct (CanvasGenerator.practiceMode opts); [|split; reflexivity].
  repeat match goal with
         | |- context [if ?b then _ else _] => destruct b
         end; split; reflexivity.
Qed.

Lemma place_cols_size (l : Layout) (characters : list jsstring)
    (family : string) (opts : options) (n : nat) (row col : Z)
    (st : Z * Canvas) :
  CanvasGenerator.width
    (snd (place_cols l characters family opts n row col st))
  = CanvasGenerator.width (snd st)
  /\ CanvasGenerator.height
       (snd (place_cols l characters family opts n row col st))
     = CanvasGenerator.height (snd st).
Proof.
  revert col st. induction n as [|n IH]; intros col [i cv];
    [split; reflexivity|].
  cbn [place_cols].
  destruct ((col <? charsPerRow l) && (i <? Js.length characters));
    [|split; reflexivity].
  destruct (IH (col + 1) (i + 1, place l characters family opts row col i cv))
    as [Hw Hh].
  destruct (place_size l characters family opts row col i cv) as [Hw' Hh'].
  cbn [snd] in *. rewrite Hw, Hh, Hw', Hh'. split; reflexivity.
Qed.

Lemma place_rows_size (l : Layout) (characters : list jsstring)
    (family : string) (opts : options) (n : nat) (row : Z)
    (st : Z * Canvas) :
  CanvasGenerator.width (snd (place_rows l characters family opts n row st))
  = CanvasGenerator.width (snd st)
  /\ CanvasGenerator.height
       (snd (place_rows l characters family opts n row st))
     = CanvasGenerator.height (snd st).
Proof.
  revert row st. induction n as [|n IH]; intros row st;
    [split; reflexivity|].
  cbn [place_rows].
  destruct ((row <? rowCount l) && (fst st <? Js.length characters));
    [|split; reflexivity].
  destruct (IH (row + 1)
              (place_cols l characters family opts
                 (Z.to_nat (charsPerRow l)) row 0 st)) as [Hw Hh].
  destruct (place_cols_size l characters family opts
              (Z.to_nat (charsPerRow l)) row 0 st) as [Hw' Hh'].
  rewrite Hw, Hh, Hw', Hh'. split; reflexivity.
Qed.

Lemma generateCopybook_canvas_size
    (loadedFonts : string -> option string) text fontType c r opts :
  let res := generateCopybook loadedFonts text fontType c r opts in
  CanvasGenerator.width (canvas res) = totalWidth (layout res)
  /\ CanvasGenerator.height (canvas res) = totalHeight (layout res).
Proof.
  cbv zeta. unfold generateCopybook.
  set (l := calculateA4Layout _ _).
  set (cv0 := drawGrid _ l).
  pose proof (place_rows_size l (characters_of text)
                (getFontFamily loadedFonts fontType) opts
                (Z.to_nat (Z.max 1 (Z.min 30
                   (or_num (parseInt (param_default r 5)) 5)))) 0 (0, cv0))
    as [Hw Hh].
  destruct (place_rows _ _ _ _ _ _ _) as [charIndex cv].
  cbn [snd canvas layout] in *. rewrite Hw, Hh.
  unfold cv0. destruct (drawGrid_size
    (fillBackground (createCanvas (totalWidth l) (totalHeight l))
       (totalWidth l) (totalHeight l)) l) as [Hw' Hh'].
  rewrite Hw', Hh'. split; reflexivity.
Qed.

(** The placement of the canvas of a layout in range, by evaluation over
    the 600 layouts. *)
Lemma image_placement_in_range (c r : Z) :
  1 <= c <= 20 -> 1 <= r <= 30 ->
  let l := calculateA4Layout c r in
  let w := totalWidth l in
  let h := totalHeight l in
  let d := PDFGenerator.calculateImageDimensions w h in
  let i := PDFGenerator.centred_image w h in
  PDFGenerator.scale d
  = Math_min
      ((PDFGenerator.A4_WIDTH_POINTS - PDFGenerator.margins_left
        - PDFGenerator.margins_right) / number w)%float
      ((PDFGenerator.A4_HEIGHT_POINTS - PDFGenerator.margins_top
        - PDFGenerator.margins_bottom) / number h)%float
  /\ PDFGenerator.image_width i = (number w * PDFGenerator.scale d)%float
  /\ PDFGenerator.image_height i = (number h * PDFGenerator.scale d)%float
  /\ is_finite (PDFGenerator.x i) && is_finite (PDFGenerator.y i)
     && is_finite (PDFGenerator.image_width i)
     && is_finite (PDFGenerator.image_height i)
     && is_finite (PDFGenerator.scale d) = true
  /\ (0 < rational (PDFGenerator.scale d))%Q
  /\ (rational (PDFGenerator.image_width i) <= sheet_contentWidth)%Q
  /\ (rational (PDFGenerator.image_height i) <= sheet_contentHeight)%Q
  /\ (aspect_defect w h
      <= aspect_tolerance
         * (rational (PDFGenerator.image_height i) * inject_Z w))%Q
  /\ (0 <= left_gap w h)%Q /\ (0 <= right_gap w h)%Q
  /\ (Qabs (left_gap w h - right_gap w h) <= gap_tolerance)%Q
  /\ (0 <= top_gap w h)%Q /\ (0 <= bottom_gap w h)%Q
  /\ (Qabs (top_gap w h - bottom_gap w h) <= gap_tolerance)%Q.
Proof.
  intros Hc Hr l w h d i.
  split; [reflexivity|]. split; [reflexivity|]. split; [reflexivity|].
  assert (Hall :
    forallb (fun c =>
      forallb (fun r =>
        let l := calculateA4Layout c r in
        let w := totalWidth l in
        let h := totalHeight l in
        let d := PDFGenerator.calculateImageDimensions w h in
        let i := PDFGenerator.centred_image w h in
        (is_finite (PDFGenerator.x i) && is_finite (PDFGenerator.y i)
         && is_finite (PDFGenerator.image_width i)
         && is_finite (PDFGenerator.image_height i)
         && is_finite (PDFGenerator.scale d))
        && negb (Qle_bool (rational (PDFGenerator.scale d)) 0)
        && Qle_bool (rational (PDFGenerator.image_width i)) sheet_contentWidth
        && Qle_bool (rational (PDFGenerator.image_height i))
                    sheet_contentHeight
        && Qle_bool (aspect_defect w h)
                    (aspect_tolerance
                     * (rational (PDFGenerator.image_height i) * inject_Z w))
        && Qle_bool 0 (left_gap w h) && Qle_bool 0 (right_gap w h)
        && Qle_bool (Qabs (left_gap w h - right_gap w h)) gap_tolerance
        && Qle_bool 0 (top_gap w h) && Qle_bool 0 (bottom_gap w h)
        && Qle_bool (Qabs (top_gap w h - bottom_gap w h)) gap_tolerance)
        (zrange 1 30))
      (zrange 1 20) = true) by (vm_compute; reflexivity).
  rewrite forallb_forall in Hall.
  specialize (Hall c ltac:(apply in_zrange; lia)).
  rewrite forallb_forall in Hall.
  specialize (Hall r ltac:(apply in_zrange; lia)).
  cbv zeta in Hall. fold l in Hall. fold w h in Hall. fold d i in Hall.
  repeat rewrite andb_true_iff in Hall.
  destruct Hall as [[[[[[[[[[Hfin Hs] Hw] Hh] Ha] Hl] Hrt] Hlr] Ht] Hb] Htb].
  split; [repeat rewrite andb_true_iff; exact Hfin|].
  split.
  { apply Qle_bool_false. destruct (Qle_bool _ 0); [discriminate Hs|].
    reflexivity. }
  repeat split; apply Qle_bool_iff; assumption.
Qed.

(** C8 (amended): for every page bitmap the generators produce, that is
    for the canvas of every call of [generateCopybook], of dimensions
    (w, h), the image call uses one scale factor, the smaller of the two
    quotients content width / w and content height / h computed in
    doubles, for both axes; the scaled bitmap fits inside the content area
    of the sheet; and its aspect ratio and its centring are exact up to
    the rounding of the double operations: the aspect ratio is off by a
    relative 2^-52 at most, and the gaps on opposite sides of the bitmap,
    none of them negative, differ by 2^-43 point at most. *)
Theorem C8_image_placement
    (loadedFonts : string -> option string) (text : jsstring)
    (fontType : string) (c r : value) (opts : options) :
  let res := generateCopybook loadedFonts text fontType c r opts in
  let w := CanvasGenerator.width (canvas res) in
  let h := CanvasGenerator.height (canvas res) in
  let d := PDFGenerator.calculateImageDimensions w h in
  let i := PDFGenerator.centred_image w h in
  (w = totalWidth (layout res) /\ h = totalHeight (layout res))
  /\ PDFGenerator.scale d
     = Math_min
         ((PDFGenerator.A4_WIDTH_POINTS - PDFGenerator.margins_left
           - PDFGenerator.margins_right) / number w)%float
         ((PDFGenerator.A4_HEIGHT_POINTS - PDFGenerator.margins_top
           - PDFGenerator.margins_bottom) / number h)%float
  /\ PDFGenerator.image_width i = (number w * PDFGenerator.scale d)%float
  /\ PDFGenerator.image_height i = (number h * PDFGenerator.scale d)%float
  /\ is_finite (PDFGenerator.x i) && is_finite (PDFGenerator.y i)
     && is_finite (PDFGenerator.image_width i)
     && is_finite (PDFGenerator.image_height i)
     && is_finite (PDFGenerator.scale d) = true
  /\ (0 < rational (PDFGenerator.scale d))%Q
  /\ (rational (PDFGenerator.image_width i) <= sheet_contentWidth)%Q
  /\ (rational (PDFGenerator.image_height i) <= sheet_contentHeight)%Q
  /\ (aspect_defect w h
      <= aspect_tolerance
         * (rational (PDFGenerator.image_height i) * inject_Z w))%Q
  /\ (0 <= left_gap w h)%Q /\ (0 <= right_gap w h)%Q
  /\ (Qabs (left_gap w h - right_gap w h) <= gap_tolerance)%Q
  /\ (0 <= top_gap w h)%Q /\ (0 <= bottom_gap w h)%Q
  /\ (Qabs (top_gap w h - bottom_gap w h) <= gap_tolerance)%Q.
Proof.
  intros res w h d i.
  destruct (generateCopybook_canvas_size loadedFonts text fontType c r opts)
    as [Hw Hh].
  fold res in Hw, Hh. fold w in Hw. fold h in Hh.
  split; [split; assumption|].
  pose proof (generateCopybook_layout loadedFonts text fontType c r opts)
    as Hl.
  fold res in Hl.
  pose proof (image_placement_in_range
                (clamp_count 20 15 (param_default c 15))
                (clamp_count 30 5 (param_default r 5))
                ltac:(apply clamp_count_range; lia)
                ltac:(apply clamp_count_range; lia)) as H.
  cbv zeta in H. rewrite <- Hl, <- Hw, <- Hh in H.
  exact H.
Qed.

(* ===================================================================== *)
(** ** Clamping of charsPerRow and rowCount                               *)
(* ===================================================================== *)

(** Counts above the range are cut to the upper bound, counts below zero
    are raised to 1 (for the integers below 2^53 in magnitude, which print
    in decimal notation), and a value that holds no number takes the
    default of the call site. *)
Lemma clamp_count_above (hi d n : Z) :
  1 <= hi < n -> n < 2 ^ 53 -> clamp_count hi d (Num n) = hi.
Proof.
  intros H Hn. unfold clamp_count. rewrite parseInt_safe by lia.
  cbn [or_num]. destruct (Z.eqb_spec n 0); lia.
Qed.

Lemma clamp_count_negative (hi d n : Z) :
  1 <= hi -> - 2 ^ 53 < n < 0 -> clamp_count hi d (Num n) = 1.
Proof.
  intros Hhi H. unfold clamp_count. rewrite parseInt_safe by lia.
  cbn [or_num]. destruct (Z.eqb_spec n 0); lia.
Qed.

Lemma clamp_count_not_a_number (hi d : Z) (v : value) :
  parseInt v = None -> 1 <= d <= hi -> clamp_count hi d v = d.
Proof. intros Hv Hd. unfold clamp_count. rewrite Hv. simpl. lia. Qed.

Lemma parseInt_abc : parseInt (Str (lit "abc")) = None.
Proof. reflexivity. Qed.

(** Zero is falsy: [parseInt(0) || d] is the default, whatever the lower
    bound of the clamp. *)
Lemma clamp_count_zero (hi d : Z) :
  1 <= d <= hi -> clamp_count hi d (Num 0) = d.
Proof. intros Hd. unfold clamp_count. simpl. lia. Qed.

Lemma generateCopybook_counts_in_range
    (loadedFonts : string -> option string) text fontType c r opts :
  let l := layout (generateCopybook loadedFonts text fontType c r opts) in
  1 <= charsPerRow l <= 20 /\ 1 <= rowCount l <= 30.
Proof.
  cbv zeta. rewrite generateCopybook_layout.
  cbn [charsPerRow rowCount calculateA4Layout].
  split; apply clamp_count_range; lia.
Qed.

Lemma validateOptions_counts (o : PDFGenerator.raw_options) :
  PDFGenerator.charsPerRow (PDFGenerator.validateOptions o)
  = Some (clamp_count 20 10
            (PDFGenerator.dflt (Num 10) (PDFGenerator.raw_charsPerRow o)))
  /\ PDFGenerator.rowCount (PDFGenerator.validateOptions o)
     = Some (clamp_count 30 15
               (PDFGenerator.dflt (Num 15) (PDFGenerator.raw_rowCount o))).
Proof. split; reflexivity. Qed.

(** C4 (the code at the failing input): charsPerRow = 0 is not clamped to
    1.  [generateCopybook] lays out 15 cells per row, as for an absent
    value, and [validateOptions] returns 10, while charsPerRow = 1 gives 1
    in both; 21 gives 20 and "abc" gives the default, as C4 says. *)
Theorem C4_zero_charsPerRow_takes_default
    (loadedFonts : string -> option string) (text : jsstring)
    (fontType : string) (r : value) (opts : options) :
  let cells c :=
    charsPerRow (layout
                   (generateCopybook loadedFonts text fontType c r opts)) in
  let validated c :=
    PDFGenerator.charsPerRow
      (PDFGenerator.validateOptions (raw_with (Some c) None)) in
  cells (Num 0) = 15 /\ cells (Num 1) = 1 /\ cells Undefined = 15
  /\ cells (Num 21) = 20 /\ cells (Str (lit "abc")) = 15
  /\ validated (Num 0) = Some 10 /\ validated (Num 1) = Some 1
  /\ validated (Num 21) = Some 20 /\ validated (Str (lit "abc")) = Some 10.
Proof.
  cbv beta zeta. rewrite !generateCopybook_layout.
  repeat split; reflexivity.
Qed.

(* ===================================================================== *)
(** ** Further properties of the canvas generator                         *)
(* ===================================================================== *)

(** *** Grid geometry *)

Lemma map_zrange_shift {A : Type} (f : Z -> A) (a : Z) (n : nat) :
  map f (zrange a n) = map (fun j => f (a + j)) (zrange 0 n).
Proof.
  revert f a. induction n as [|n IH]; intros f a; [reflexivity|].
  cbn [zrange map]. f_equal; [f_equal; lia|].
  rewrite (IH f (a + 1)), (IH (fun j => f (a + j)) (0 + 1)).
  apply map_ext. intros j. f_equal. lia.
Qed.

Lemma nth_error_map_zrange {A : Type} (f : Z -> A) (i : Z) (n k : nat) :
  nth_error (map f (zrange i n)) k
  = if (k <? n)%nat then Some (f (i + Z.of_nat k)) else None.
Proof.
  revert i k. induction n as [|n IH]; intros i k.
  - destruct k; reflexivity.
  - destruct k as [|k]; cbn [zrange map nth_error].
    + simpl. do 2 f_equal. lia.
    + rewrite IH. change (S k <? S n)%nat with (k <? n)%nat.
      destruct (k <? n)%nat; [do 2 f_equal; lia | reflexivity].
Qed.

(** The grid, drawn row by row, is the list of its cells in row-major
    numbering. *)
Lemma grid_cells_row_major (l : Layout) :
  0 < charsPerRow l -> 0 <= rowCount l ->
  grid_cells l
  = map (cell_at l) (zrange 0 (Z.to_nat (charsPerRow l * rowCount l))).
Proof.
  intros Hc Hr. unfold grid_cells.
  set (c := charsPerRow l) in *.
  assert (H : forall rows row0, 0 <= row0 ->
    flat_map
      (fun row =>
         map (fun col => RiceGrid (padding + col * cellSize l)
                                  (padding + row * cellSize l) (cellSize l))
             (zrange 0 (Z.to_nat c)))
      (zrange row0 rows)
    = map (cell_at l) (zrange (row0 * c) (rows * Z.to_nat c))).
  { induction rows as [|rows IH]; intros row0 Hrow0; [reflexivity|].
    cbn [zrange flat_map]. rewrite IH by lia.
    cbn [Nat.mul]. rewrite zrange_app, map_app.
    replace (row0 * c + Z.of_nat (Z.to_nat c)) with ((row0 + 1) * c) by lia.
    f_equal. rewrite (map_zrange_shift (cell_at l)).
    apply map_ext_in. intros j Hj. apply in_zrange in Hj.
    unfold cell_at. fold c.
    assert (Hq : (row0 * c + j) / c = row0).
    { symmetry. apply (Z.div_unique_pos _ c row0 j); lia. }
    assert (Hm : (row0 * c + j) mod c = j).
    { symmetry. apply (Z.mod_unique_pos _ c row0 j); lia. }
    rewrite Hq, Hm. reflexivity. }
  rewrite (H (Z.to_nat (rowCount l)) 0) by lia.
  do 2 f_equal. nia.
Qed.

Lemma cell_at_inside (l : Layout) (k : Z) :
  0 < charsPerRow l -> 0 <= cellSize l ->
  0 <= k < charsPerRow l * rowCount l ->
  inside_padding (charsPerRow l * cellSize l + 2 * padding)
                 (rowCount l * cellSize l + 2 * padding)
                 (padding + (k mod charsPerRow l) * cellSize l)
                 (padding + (k / charsPerRow l) * cellSize l)
                 (cellSize l).
Proof.
  intros Hc Hs Hk. unfold inside_padding.
  pose proof (Z.mod_pos_bound k (charsPerRow l) Hc) as Hm.
  assert (Hq : 0 <= k / charsPerRow l < rowCount l).
  { split; [apply Z.div_pos; lia|].
    apply Z.div_lt_upper_bound; lia. }
  repeat split; nia.
Qed.

Lemma cell_at_apart (l : Layout) (k k' : Z) :
  0 < charsPerRow l -> 0 <= cellSize l -> 0 <= k < k' ->
  apart (padding + (k mod charsPerRow l) * cellSize l)
        (padding + (k / charsPerRow l) * cellSize l) (cellSize l)
        (padding + (k' mod charsPerRow l) * cellSize l)
        (padding + (k' / charsPerRow l) * cellSize l) (cellSize l).
Proof.
  intros Hc Hs Hk. unfold apart.
  pose proof (Z.div_mod k (charsPerRow l) ltac:(lia)) as Hd.
  pose proof (Z.div_mod k' (charsPerRow l) ltac:(lia)) as Hd'.
  pose proof (Z.mod_pos_bound k (charsPerRow l) Hc) as Hm.
  pose proof (Z.mod_pos_bound k' (charsPerRow l) Hc) as Hm'.
  assert (Hle : k / charsPerRow l <= k' / charsPerRow l)
    by (apply Z.div_le_mono; lia).
  destruct (Z.eq_dec (k / charsPerRow l) (k' / charsPerRow l)) as [He|Hne].
  - left. rewrite He in Hd. nia.
  - right. right. left. nia.
Qed.

(** X1: for a grid in range, [drawGrid] on a fresh canvas of the layout's
    size draws charsPerRow * rowCount square cells of side cellSize; every
    cell lies inside the canvas, at least [padding] away from its border,
    and two different cells never overlap. *)
Theorem X1_grid_cells_inside_and_apart (c r : Z) :
  1 <= c <= 20 -> 1 <= r <= 30 ->
  let l := calculateA4Layout c r in
  let cells := calls (drawGrid (createCanvas (totalWidth l) (totalHeight l)) l) in
  Js.length cells = c * r
  /\ (forall call, In call cells ->
        exists x y,
          call = RiceGrid x y (cellSize l)
          /\ inside_padding (totalWidth l) (totalHeight l) x y (cellSize l))
  /\ (forall i j x y s x' y' s',
        (i < j)%nat ->
        nth_error cells i = Some (RiceGrid x y s) ->
        nth_error cells j = Some (RiceGrid x' y' s') ->
        apart x y s x' y' s').
Proof.
  intros Hc Hr l cells.
  assert (Hcl : charsPerRow l = c) by reflexivity.
  assert (Hrl : rowCount l = r) by reflexivity.
  pose proof (calculateA4Layout_cellSize_pos c r Hc Hr) as Hs. fold l in Hs.
  assert (Hcells : cells = map (cell_at l) (zrange 0 (Z.to_nat (c * r)))).
  { unfold cells.
    destruct (drawGrid_calls (createCanvas (totalWidth l) (totalHeight l)) l)
      as [Hg _]; [lia | lia |].
    rewrite Hg. cbn [createCanvas calls app].
    rewrite grid_cells_row_major by lia. rewrite Hcl, Hrl. reflexivity. }
  assert (Hw : totalWidth l = charsPerRow l * cellSize l + 2 * padding)
    by reflexivity.
  assert (Hh : totalHeight l = rowCount l * cellSize l + 2 * padding)
    by reflexivity.
  rewrite Hcells. clear Hcells. clearbody cells. clearbody l.
  split; [|split].
  - unfold Js.length. rewrite length_map, length_zrange. nia.
  - intros call Hin. apply in_map_iff in Hin as [k [<- Hk]].
    apply in_zrange in Hk. unfold cell_at. eexists. eexists.
    split; [reflexivity|]. rewrite Hw, Hh.
    apply cell_at_inside; [lia | lia | rewrite Hcl, Hrl; nia].
  - intros i j x y s x' y' s' Hij Hi Hj.
    rewrite nth_error_map_zrange in Hi, Hj.
    destruct (i <? Z.to_nat (c * r))%nat; [|discriminate Hi].
    destruct (j <? Z.to_nat (c * r))%nat; [|discriminate Hj].
    unfold cell_at in Hi, Hj.
    injection Hi as Hx Hy Hs1. injection Hj as Hx' Hy' Hs2.
    rewrite <- Hx, <- Hy, <- Hs1, <- Hx', <- Hy', <- Hs2.
    apply cell_at_apart; lia.
Qed.

Lemma X1_grid_cells_inside_and_apart_witness :
  Js.length
    (calls (drawGrid
              (createCanvas (totalWidth (calculateA4Layout 10 15))
                            (totalHeight (calculateA4Layout 10 15)))
              (calculateA4Layout 10 15)))
  = 150.
Proof.
  destruct (X1_grid_cells_inside_and_apart 10 15 ltac:(lia) ltac:(lia))
    as [H _].
  exact H.
Defined.

(** *** Characters and cells *)

Lemma generateCopybook_drawn_bounds
    (loadedFonts : string -> option string) text fontType c r opts :
  let res := generateCopybook loadedFonts text fontType c r opts in
  0 <= charactersDrawn res <= totalCharacters res
  /\ charactersDrawn res
     <= charsPerRow (layout res) * rowCount (layout res).
Proof.
  intros res.
  pose proof (generateCopybook_charactersDrawn loadedFonts text fontType
                c r opts) as Hd.
  pose proof (generateCopybook_totalCharacters loadedFonts text fontType
                c r opts) as Ht.
  pose proof (generateCopybook_counts_in_range loadedFonts text fontType
                c r opts) as Hr.
  pose proof (length_nonneg (characters_of text)).
  cbv zeta in Hd, Hr. fold res in Hd, Ht, Hr. nia.
Qed.

(** The font size of a glyph: the floor of the double product
    [cellSize * 0.9] is the floor of nine tenths of the cell, for every
    cell size a sheet can have. *)
Lemma calculateFontSize_value (s : Z) :
  0 <= s <= 2400 -> calculateFontSize s = 9 * s / 10.
Proof.
  intros Hs.
  assert (H : forallb (fun s => calculateFontSize s =? 9 * s / 10)
                (zrange 0 2401) = true) by (vm_compute; reflexivity).
  rewrite forallb_forall in H.
  apply Z.eqb_eq, H, in_zrange. lia.
Qed.

Lemma calculateA4Layout_cellSize_range (c r : Z) :
  1 <= c <= 20 -> 1 <= r <= 30 ->
  114 <= cellSize (calculateA4Layout c r) <= 2400.
Proof.
  intros Hc Hr. rewrite calculateA4Layout_cellSize.
  rewrite contentWidth_value, contentHeight_value.
  pose proof (Z.div_le_compat_l 2400 c 20 ltac:(lia) ltac:(lia)) as H1.
  pose proof (Z.div_le_compat_l 3427 r 30 ltac:(lia) ltac:(lia)) as H2.
  pose proof (Z.div_le_compat_l 2400 1 c ltac:(lia) ltac:(lia)) as H3.
  change (2400 / 20) with 120 in H1. change (3427 / 30) with 114 in H2.
  change (2400 / 1) with 2400 in H3. lia.
Qed.

(** X2: in the canvas [generateCopybook] returns, the k-th character drawn
    is the k-th character of the stream, and the point its glyph is
    centred on is the centre of the k-th cell that [drawGrid] drew (cells
    counted row by row): [(x + cellSize / 2, y + cellSize / 2)] for the
    cell whose top-left corner is [(x, y)].  Its font size is nine tenths
    of the cell side, rounded down, so it is positive and not larger than
    the cell; two different characters are drawn in cells that do not
    overlap. *)
Theorem X2_characters_in_grid_cells
    (loadedFonts : string -> option string) (text : jsstring)
    (fontType : string) (c r : value) (opts : options) (k : Z) :
  let res := generateCopybook loadedFonts text fontType c r opts in
  let l := layout res in
  let log := calls (canvas res) in
  let cells := Z.to_nat (charsPerRow l * rowCount l) in
  0 <= k < charactersDrawn res ->
  exists x y : Z,
    nth_error log (S (Z.to_nat k)) = Some (RiceGrid x y (cellSize l))
    /\ nth_error log (S (cells + Z.to_nat k))
       = Some (Character (nth (Z.to_nat k) (characters_of text) [])
                 (inject_Z x + inject_Z (cellSize l) / 2)%Q
                 (inject_Z y + inject_Z (cellSize l) / 2)%Q
                 (9 * cellSize l / 10)
                 (getFontFamily loadedFonts fontType) (alpha_in opts 1))
    /\ x = padding + (k mod charsPerRow l) * cellSize l
    /\ y = padding + (k / charsPerRow l) * cellSize l
    /\ 0 < 9 * cellSize l / 10 <= cellSize l
    /\ (forall k', k < k' < charactersDrawn res ->
          apart x y (cellSize l)
                (padding + (k' mod charsPerRow l) * cellSize l)
                (padding + (k' / charsPerRow l) * cellSize l) (cellSize l)).
Proof.
  intros res l log cells Hk.
  pose proof (generateCopybook_calls loadedFonts text fontType c r opts)
    as Hlog.
  pose proof (generateCopybook_drawn_bounds loadedFonts text fontType
                c r opts) as [_ Hcap].
  pose proof (generateCopybook_counts_in_range loadedFonts text fontType
                c r opts) as [Hc Hr].
  cbv zeta in Hlog. fold res in Hlog, Hcap, Hc, Hr. fold l in Hlog, Hcap, Hc, Hr.
  assert (Hs : 114 <= cellSize l <= 2400).
  { unfold l, res. rewrite generateCopybook_layout.
    apply calculateA4Layout_cellSize_range; apply clamp_count_range; lia. }
  fold log in Hlog.
  rewrite grid_cells_row_major in Hlog by lia. fold cells in Hlog.
  clearbody log l. rewrite Hlog. cbn [nth_error].
  exists (padding + (k mod charsPerRow l) * cellSize l),
         (padding + (k / charsPerRow l) * cellSize l).
  split; [|split; [|split; [|split; [|split]]]].
  - rewrite nth_error_app1 by (rewrite length_map, length_zrange; lia).
    rewrite nth_error_map_zrange.
    destruct (Nat.ltb_spec (Z.to_nat k) cells) as [_|Hge]; [|lia].
    unfold cell_at. do 2 f_equal; f_equal; f_equal; f_equal; lia.
  - rewrite nth_error_app2 by (rewrite length_map, length_zrange; lia).
    rewrite length_map, length_zrange.
    replace (cells + Z.to_nat k - cells)%nat with (Z.to_nat k) by lia.
    rewrite nth_error_map_zrange.
    destruct (Nat.ltb_spec (Z.to_nat k) (Z.to_nat (charactersDrawn res)))
      as [_|Hge]; [|lia].
    unfold glyph_at, glyph_in.
    rewrite calculateFontSize_value by lia.
    replace (0 + Z.of_nat (Z.to_nat k)) with k by lia. reflexivity.
  - reflexivity.
  - reflexivity.
  - pose proof (Z.div_le_lower_bound (9 * cellSize l) 10 1 ltac:(lia)
                  ltac:(lia)).
    pose proof (Z.div_le_upper_bound (9 * cellSize l) 10 (cellSize l)
                  ltac:(lia) ltac:(lia)).
    lia.
  - intros k' Hk'. apply cell_at_apart; lia.
Qed.

Lemma X2_characters_in_grid_cells_witness :
  exists x y : Z,
    nth_error
      (calls (canvas (generateCopybook no_fonts (sample_text 3) "serif"
                        (Num 2) (Num 2) no_options)))
      (S (Z.to_nat 1))
    = Some (RiceGrid x y 1200)
    /\ x = 1240 /\ y = 40.
Proof.
  destruct (X2_characters_in_grid_cells no_fonts (sample_text 3) "serif"
              (Num 2) (Num 2) no_options 1
              ltac:(vm_compute; split; [discriminate | reflexivity]))
    as (x & y & H & _ & Hx & Hy & _).
  exists x, y. split; [exact H|]. split; [exact Hx | exact Hy].
Defined.

(** *** Fonts *)

Lemma initializeFonts_entries (registered : string -> bool) (key : string) :
  initializeFonts registered key
  = option_map snd
      (find (fun e => String.eqb (fst e) key) (loadedFontEntries registered)).
Proof.
  unfold initializeFonts, loadedFontEntries, fontMappings.
  cbn [map find fst snd].
  destruct (String.eqb_spec "serif" key) as [<-|_]; [reflexivity|].
  destruct (String.eqb_spec "sans-serif" key) as [<-|_]; [reflexivity|].
  destruct (String.eqb_spec "cursive" key) as [<-|_]; [reflexivity|].
  destruct (String.eqb_spec "fantasy" key) as [<-|_]; reflexivity.
Qed.

(** X3: whatever font files exist, [loadedFonts] has exactly the four keys
    serif, sans-serif, cursive and fantasy.  [getFontFamily] never returns
    an empty family: a font type that is none of the four renders as
    'serif', and one of the four whose font file did not register renders
    as the generic family of the same name. *)
Theorem X3_getFontFamily_resolution
    (registered : string -> bool) (fontType : string) :
  let known := ["serif"; "sans-serif"; "cursive"; "fantasy"]%string in
  let resolved := getFontFamily (initializeFonts registered) fontType in
  getAvailableFonts registered = known
  /\ resolved <> EmptyString
  /\ (~ In fontType known -> resolved = "serif"%string)
  /\ (In fontType known -> registered fontType = false ->
      resolved = fontType)
  /\ (In fontType known -> registered fontType = true ->
      In resolved ["Noto Serif CJK SC Light"; "Noto Sans CJK SC Light";
                   "ZCOOL KuaiLe"; "ZCOOL XiaoWei"]%string).
Proof.
  cbv zeta. split; [reflexivity|].
  unfold getFontFamily, initializeFonts, fontMappings. cbn [find fst snd].
  destruct (String.eqb_spec "serif" fontType) as [<-|H1].
  { destruct (registered "serif"%string); cbn;
      repeat split; auto; try discriminate; try tauto. }
  destruct (String.eqb_spec "sans-serif" fontType) as [<-|H2].
  { destruct (registered "sans-serif"%string); cbn;
      repeat split; auto; try discriminate; try tauto. }
  destruct (String.eqb_spec "cursive" fontType) as [<-|H3].
  { destruct (registered "cursive"%string); cbn;
      repeat split; auto; try discriminate; try tauto. }
  destruct (String.eqb_spec "fantasy" fontType) as [<-|H4].
  { destruct (registered "fantasy"%string); cbn;
      repeat split; auto; try discriminate; try tauto. }
  repeat split; try discriminate; try reflexivity;
    intros Hin; cbn [In] in Hin; tauto.
Qed.

(** X4: [getFontInfo] never reports serif or sans-serif as loaded, not even
    when their font files registered, because the registered names of
    these two are among the families its test excludes; cursive and
    fantasy are reported as loaded exactly when their font file
    registered. *)
Theorem X4_getFontInfo_loaded_flags (registered : string -> bool) :
  getFontInfo registered
  = [("serif",
      {| family := if registered "serif" then "Noto Serif CJK SC Light"
                   else "serif";
         loaded := false |});
     ("sans-serif",
      {| family := if registered "sans-serif" then "Noto Sans CJK SC Light"
                   else "sans-serif";
         loaded := false |});
     ("cursive",
      {| family := if registered "cursive" then "ZCOOL KuaiLe"
                   else "cursive";
         loaded := registered "cursive" |});
     ("fantasy",
      {| family := if registered "fantasy" then "ZCOOL XiaoWei"
                   else "fantasy";
         loaded := registered "fantasy" |})]%string.
Proof.
  unfold getFontInfo, loadedFontEntries, fontMappings.
  cbn [map fst snd].
  destruct (registered "serif"%string), (registered "sans-serif"%string),
    (registered "cursive"%string), (registered "fantasy"%string);
    reflexivity.
Qed.

(** *** Trimming and validation *)

Lemma trimStart_clean (s : jsstring) : starts_clean (trimStart s).
Proof.
  induction s as [|c s IH]; simpl; [exact I|].
  destruct (is_whitespace c) eqn:Hc; [exact IH | exact Hc].
Qed.

Lemma trimStart_id (s : jsstring) : starts_clean s -> trimStart s = s.
Proof.
  destruct s as [|c s]; simpl; [reflexivity|]. intros Hc. rewrite Hc.
  reflexivity.
Qed.

Lemma trimStart_app_last (l : jsstring) (c : code_unit) :
  is_whitespace c = false -> trimStart (l ++ [c]) = trimStart l ++ [c].
Proof.
  intros Hc. induction l as [|d l IH]; simpl.
  - rewrite Hc. reflexivity.
  - destruct (is_whitespace d); [exact IH | reflexivity].
Qed.

Lemma trimEnd_ends_clean (s : jsstring) : ends_clean (trimEnd s).
Proof.
  unfold ends_clean, trimEnd. rewrite rev_involutive. apply trimStart_clean.
Qed.

Lemma trimEnd_starts_clean (s : jsstring) :
  starts_clean s -> starts_clean (trimEnd s).
Proof.
  destruct s as [|c s]; [intros _; exact I|]. simpl. intros Hc.
  unfold trimEnd. cbn [rev]. rewrite (trimStart_app_last _ c Hc).
  rewrite rev_app_distr. simpl. exact Hc.
Qed.

Lemma trimEnd_id (s : jsstring) : ends_clean s -> trimEnd s = s.
Proof.
  intros H. unfold trimEnd. rewrite (trimStart_id _ H). apply rev_involutive.
Qed.

Lemma trim_clean (s : jsstring) :
  starts_clean (trim s) /\ ends_clean (trim s).
Proof.
  unfold trim. split.
  - apply trimEnd_starts_clean, trimStart_clean.
  - apply trimEnd_ends_clean.
Qed.

Lemma trim_id (s : jsstring) :
  starts_clean s -> ends_clean s -> trim s = s.
Proof.
  intros Hs He. unfold trim. rewrite (trimStart_id s Hs). apply trimEnd_id, He.
Qed.

Lemma trim_idempotent (s : jsstring) : trim (trim s) = trim s.
Proof. destruct (trim_clean s) as [Hs He]. apply trim_id; assumption. Qed.

Lemma replace_ws_trimStart (s : jsstring) :
  replace_ws (trimStart s) = replace_ws s.
Proof.
  unfold replace_ws. induction s as [|c s IH]; [reflexivity|].
  cbn [trimStart filter].
  destruct (is_whitespace c) eqn:Hc; cbn [negb filter];
    [exact IH | rewrite Hc; reflexivity].
Qed.

Lemma replace_ws_rev (s : jsstring) :
  replace_ws (rev s) = rev (replace_ws s).
Proof.
  unfold replace_ws. induction s as [|c s IH]; [reflexivity|].
  cbn [rev filter]. rewrite filter_app, IH. cbn [filter].
  destruct (is_whitespace c); cbn [negb rev];
    [apply app_nil_r | reflexivity].
Qed.

(** Trimming removes no character of the stream. *)
Lemma characters_of_trim (s : jsstring) :
  characters_of (trim s) = characters_of s.
Proof.
  rewrite !characters_of_split. f_equal. unfold trim, trimEnd.
  rewrite replace_ws_rev, replace_ws_trimStart, replace_ws_rev,
    rev_involutive.
  apply replace_ws_trimStart.
Qed.

(** X5: the text [validateText] accepts is not empty, has at most 2000 code
    units, and neither starts nor ends with white space; validating it
    again returns it unchanged, and its character stream is the stream of
    the text that was submitted. *)
Theorem X5_accepted_text_is_trimmed (s t : jsstring) :
  validateText (Str s) = Ok t ->
  t <> []
  /\ Js.length t <= 2000
  /\ starts_clean t /\ ends_clean t
  /\ validateText (Str t) = Ok t
  /\ characters_of t = characters_of s.
Proof.
  intros H.
  assert (Ht : t = trim s /\ 1 <= Js.length (trim s) <= 2000).
  { unfold validateText in H.
    destruct (negb (truthy_string s)); [discriminate H|].
    pose proof (length_nonneg (trim s)).
    destruct (Z.eqb_spec (Js.length (trim s)) 0); [discriminate H|].
    destruct (Z.gtb_spec (Js.length (trim s)) 2000); [discriminate H|].
    injection H as <-. split; [reflexivity | lia]. }
  destruct Ht as [-> Hlen]. destruct (trim_clean s) as [Hs He].
  assert (Hne : trim s <> []).
  { intros E. rewrite E in Hlen. unfold Js.length in Hlen. simpl in Hlen. lia. }
  repeat split; try assumption; try lia.
  - unfold validateText. rewrite trim_idempotent.
    destruct (trim s) as [|c u] eqn:E; [contradiction|].
    cbn [truthy_string negb].
    destruct (Z.eqb_spec (Js.length (c :: u)) 0); [lia|].
    destruct (Z.gtb_spec (Js.length (c :: u)) 2000); [lia | reflexivity].
  - apply characters_of_trim.
Qed.

Lemma X5_accepted_text_is_trimmed_witness :
  validateText (Str (lit "ab c")) = Ok (lit "ab c").
Proof.
  apply (X5_accepted_text_is_trimmed (lit "  ab c  ") (lit "ab c")).
  reflexivity.
Defined.

(** *** Counts given as decimal strings *)

Lemma is_digit_cases (c : code_unit) :
  is_digit c ->
  c = 48%N \/ c = 49%N \/ c = 50%N \/ c = 51%N \/ c = 52%N \/ c = 53%N
  \/ c = 54%N \/ c = 55%N \/ c = 56%N \/ c = 57%N.
Proof. unfold is_digit. lia. Qed.

Lemma digit_of_decimal (d : Z) :
  0 <= d < 10 -> digit_of 10 (Z.to_N (48 + d)) = Some d.
Proof.
  intros Hd.
  assert (H : d = 0 \/ d = 1 \/ d = 2 \/ d = 3 \/ d = 4 \/ d = 5 \/ d = 6
              \/ d = 7 \/ d = 8 \/ d = 9) by lia.
  repeat (destruct H as [->|H]; [reflexivity|]). subst d. reflexivity.
Qed.

Lemma decimal_digit_is_digit (d : Z) :
  0 <= d < 10 -> is_digit (Z.to_N (48 + d)).
Proof. unfold is_digit. lia. Qed.

Lemma decimal_digits_digits (fuel : nat) (n : Z) (acc : jsstring) :
  0 <= n -> Forall is_digit acc ->
  Forall is_digit (decimal_digits fuel n acc).
Proof.
  revert n acc. induction fuel as [|fuel IH]; intros n acc Hn Hacc;
    [exact Hacc|].
  cbn [decimal_digits].
  pose proof (Z.mod_pos_bound n 10 ltac:(lia)) as Hm.
  assert (Hacc' : Forall is_digit (Z.to_N (48 + n mod 10) :: acc))
    by (constructor; [apply decimal_digit_is_digit; lia | exact Hacc]).
  destruct (n <? 10); [exact Hacc'|].
  apply IH; [apply Z.div_pos; lia | exact Hacc'].
Qed.

Lemma decimal_digits_not_nil (fuel : nat) (n : Z) (acc : jsstring) :
  decimal_digits (S fuel) n acc <> [].
Proof.
  revert n acc. induction fuel as [|fuel IH]; intros n acc.
  - cbn [decimal_digits]. destruct (n <? 10); discriminate.
  - change (decimal_digits (S (S fuel)) n acc)
      with (if n <? 10 then Z.to_N (48 + n mod 10) :: acc
            else decimal_digits (S fuel) (n / 10)
                   (Z.to_N (48 + n mod 10) :: acc)).
    destruct (n <? 10); [discriminate | apply IH].
Qed.

(** Reading the digits back gives the number. *)
Lemma read_decimal_digits (fuel : nat) (n : Z) (acc : jsstring) :
  0 <= n < Z.of_nat fuel ->
  read_digits 10 (decimal_digits fuel n acc) None
  = read_digits 10 acc (Some n).
Proof.
  revert n acc. induction fuel as [|fuel IH]; intros n acc Hn; [lia|].
  cbn [decimal_digits].
  pose proof (Z.mod_pos_bound n 10 ltac:(lia)) as Hm.
  pose proof (Z.div_mod n 10 ltac:(lia)) as Hdm.
  destruct (Z.ltb_spec n 10) as [Hlt|Hge].
  - cbn [read_digits]. rewrite digit_of_decimal by lia.
    rewrite Z.mod_small by lia. reflexivity.
  - rewrite IH by (split; [apply Z.div_pos; lia | nia]).
    cbn [read_digits]. rewrite digit_of_decimal by lia.
    do 2 f_equal. lia.
Qed.

(** [parseInt] on a string of digits: no white space to skip, no sign, no
    hexadecimal prefix. *)
Ltac finish_parse :=
  unfold parseInt_string; cbn -[read_digits Z.mul];
  match goal with
  | |- context [read_digits ?r ?s ?a] =>
      destruct (read_digits r s a) as [n|]
  end;
  cbn [option_map]; [f_equal; lia | reflexivity].

Lemma parseInt_string_digits (s : jsstring) :
  s <> [] -> Forall is_digit s ->
  parseInt_string s = read_digits 10 s None
  /\ parseInt_string (45%N :: s)
     = option_map Z.opp (read_digits 10 s None).
Proof.
  intros Hne Hs.
  destruct s as [|c rest]; [contradiction|].
  inversion Hs as [|? ? Hc Hrest]; subst.
  destruct (is_digit_cases c Hc)
    as [->|[->|[->|[->|[->|[->|[->|[->|[->| ->]]]]]]]]];
    try (split; finish_parse).
  destruct rest as [|d rest]; [split; finish_parse|].
  inversion Hrest as [|? ? Hd _]; subst.
  destruct (is_digit_cases d Hd)
    as [->|[->|[->|[->|[->|[->|[->|[->|[->| ->]]]]]]]]];
    split; finish_parse.
Qed.

Lemma parseInt_string_decimal (n : Z) : parseInt_string (decimal n) = Some n.
Proof.
  unfold decimal.
  destruct (Z.ltb_spec n 0) as [Hneg|Hpos].
  - destruct (parseInt_string_digits
                (decimal_digits (S (Z.to_nat (- n))) (- n) []))
      as [_ H];
      [apply decimal_digits_not_nil
      |apply decimal_digits_digits; [lia | constructor]|].
    rewrite H, read_decimal_digits by lia.
    cbn [read_digits option_map]. f_equal. lia.
  - destruct (parseInt_string_digits
                (decimal_digits (S (Z.to_nat n)) n []))
      as [H _];
      [apply decimal_digits_not_nil
      |apply decimal_digits_digits; [lia | constructor]|].
    rewrite H, read_decimal_digits by lia. reflexivity.
Qed.

Lemma parseInt_decimal (n : Z) :
  Z.abs n < 2 ^ 53 -> parseInt (Str (decimal n)) = Some n.
Proof.
  intros Hn. cbn [parseInt]. rewrite parseInt_string_decimal.
  cbn [option_map]. rewrite to_double_safe by exact Hn. reflexivity.
Qed.

(** X6: a grid count given as a decimal string (the numeral of an integer
    below 2^53 in magnitude, with its minus sign if negative) is read
    exactly like the number: [generateCopybook] returns the same result,
    canvas included, and [validateOptions] the same validated bag.  The
    bound is needed: from 10^21 on a number prints in exponent notation,
    and 10^21 itself is read as 1 where its numeral is read as 10^21. *)
Theorem X6_decimal_string_counts
    (loadedFonts : string -> option string) (text : jsstring)
    (fontType : string) (n m : Z) (opts : options) :
  Z.abs n < 2 ^ 53 -> Z.abs m < 2 ^ 53 ->
  parseInt (Str (decimal n)) = Some n
  /\ parseInt (Num n) = Some n
  /\ generateCopybook loadedFonts text fontType
       (Str (decimal n)) (Str (decimal m)) opts
     = generateCopybook loadedFonts text fontType (Num n) (Num m) opts
  /\ PDFGenerator.validateOptions (raw_with (Some (Str (decimal n))) None)
     = PDFGenerator.validateOptions (raw_with (Some (Num n)) None)
  /\ parseInt (Str (decimal (10 ^ 21))) = Some (10 ^ 21)
  /\ parseInt (Num (10 ^ 21)) = Some 1.
Proof.
  intros Hn Hm.
  split; [apply parseInt_decimal, Hn|].
  split; [apply parseInt_safe, Hn|]. split; [|split].
  - unfold generateCopybook. cbn [param_default].
    rewrite !parseInt_decimal, !parseInt_safe by assumption. reflexivity.
  - unfold PDFGenerator.validateOptions, raw_with.
    cbn [PDFGenerator.raw_charsPerRow PDFGenerator.dflt].
    rewrite parseInt_decimal, parseInt_safe by assumption. reflexivity.
  - split.
    + cbn [parseInt]. rewrite parseInt_string_decimal.
      vm_compute. reflexivity.
    + vm_compute. reflexivity.
Qed.

Lemma X6_decimal_string_counts_witness :
  parseInt (Str (lit "12")) = Some 12
  /\ generateCopybook no_fonts (sample_text 3) "serif"
       (Str (lit "12")) (Str (lit "7")) no_options
     = generateCopybook no_fonts (sample_text 3) "serif"
         (Num 12) (Num 7) no_options.
Proof.
  destruct (X6_decimal_string_counts no_fonts (sample_text 3) "serif" 12 7
              no_options ltac:(reflexivity) ltac:(reflexivity))
    as (H1 & _ & H2 & _).
  split; [exact H1 | exact H2].
Defined.

(* ===================================================================== *)
(** ** Further properties of the PDF generator                            *)
(* ===================================================================== *)

(** *** Option validation *)

Lemma clamp_opacity_nonzero (q : Q) : Qeq_bool (clamp_opacity q) 0 = false.
Proof.
  destruct (Qeq_bool (clamp_opacity q) 0) eqn:He; [|reflexivity].
  apply Qeq_bool_iff in He.
  destruct (clamp_opacity_range q) as [Hlo _].
  rewrite He in Hlo. unfold Qle in Hlo. simpl in Hlo. lia.
Qed.

Lemma clamp_opacity_idempotent (q : Q) :
  clamp_opacity (clamp_opacity q) = clamp_opacity q.
Proof.
  unfold clamp_opacity, Qmax2, Qmin2.
  destruct (Qle_bool 1 q) eqn:H1.
  - reflexivity.
  - destruct (Qle_bool (1 # 10) q) eqn:H2.
    + rewrite H1, H2. reflexivity.
    + reflexivity.
Qed.

Lemma includes_valid_font (f : string) :
  PDFGenerator.includes
    ["serif"; "sans-serif"; "cursive"; "fantasy"]%string
    (if PDFGenerator.includes
          ["serif"; "sans-serif"; "cursive"; "fantasy"]%string f
     then f else "serif"%string)
  = true.
Proof.
  destruct (PDFGenerator.includes _ f) eqn:H; [exact H | reflexivity].
Qed.

Lemma includes_valid_format (f : string) :
  PDFGenerator.includes ["buffer"; "file"]%string
    (if PDFGenerator.includes ["buffer"; "file"]%string f
     then f else "buffer"%string)
  = true.
Proof.
  destruct (PDFGenerator.includes _ f) eqn:H; [exact H | reflexivity].
Qed.



(** X8: [validateOptions] is idempotent: validating a bag it returned
    gives that bag again. *)
Theorem X8_validateOptions_idempotent (o : PDFGenerator.raw_options) :
  PDFGenerator.validateOptions
    (PDFGenerator.as_raw (PDFGenerator.validateOptions o))
  = PDFGenerator.validateOptions o.
Proof.
  unfold PDFGenerator.validateOptions at 1. unfold PDFGenerator.as_raw.
  set (v := PDFGenerator.validateOptions o).
  assert (Hv : v = PDFGenerator.validateOptions o) by reflexivity.
  unfold PDFGenerator.validateOptions in Hv.
  set (f := PDFGenerator.dflt "serif"%string (PDFGenerator.raw_fontType o))
    in Hv.
  set (c := Z.max 1 (Z.min 20 _)) in Hv.
  set (r := Z.max 1 (Z.min 30 _)) in Hv.
  set (q0 := or_opacity _ _) in Hv.
  set (p := Z.max 50 (Z.min 500 _)) in Hv.
  set (fmt := PDFGenerator.dflt "buffer"%string
                (PDFGenerator.raw_outputFormat o)) in Hv.
  assert (Hc : 1 <= c <= 20) by (unfold c; lia).
  assert (Hr : 1 <= r <= 30) by (unfold r; lia).
  assert (Hp : 50 <= p <= 500) by (unfold p; lia).
  clearbody c r p q0 f fmt. rewrite Hv.
  cbn [PDFGenerator.raw_fontType PDFGenerator.raw_charsPerRow
       PDFGenerator.raw_rowCount PDFGenerator.raw_practiceMode
       PDFGenerator.raw_guideOpacity PDFGenerator.raw_multiPage
       PDFGenerator.raw_pageBreakAfter PDFGenerator.raw_outputFormat
       PDFGenerator.fontType PDFGenerator.charsPerRow PDFGenerator.rowCount
       PDFGenerator.practiceMode PDFGenerator.guideOpacity
       PDFGenerator.multiPage PDFGenerator.pageBreakAfter
       PDFGenerator.outputFormat PDFGenerator.dflt option_map].
  rewrite !parseInt_safe by lia. cbn [or_num].
  fold (clamp_opacity q0).
  assert (Hq : or_opacity (Some (clamp_opacity q0)) (2 # 10)
               = clamp_opacity q0).
  { unfold or_opacity. rewrite clamp_opacity_nonzero. reflexivity. }
  rewrite Hq. fold (clamp_opacity (clamp_opacity q0)).
  rewrite clamp_opacity_idempotent.
  rewrite includes_valid_font, includes_valid_format.
  destruct (Z.eqb_spec c 0); [lia|].
  destruct (Z.eqb_spec r 0); [lia|].
  destruct (Z.eqb_spec p 0); [lia|].
  replace (Z.max 1 (Z.min 20 c)) with c by lia.
  replace (Z.max 1 (Z.min 30 r)) with r by lia.
  replace (Z.max 50 (Z.min 500 p)) with p by lia.
  reflexivity.
Qed.

(** *** Pagination without loss *)

Lemma zsum_map_le {A : Type} (f g : A -> Z) (l : list A) :
  (forall x, In x l -> f x <= g x) -> zsum (map f l) <= zsum (map g l).
Proof.
  induction l as [|a l IH]; intros H; simpl; [lia|].
  pose proof (H a (or_introl eq_refl)).
  assert (zsum (map f l) <= zsum (map g l))
    by (apply IH; intros x Hx; apply H; right; exact Hx).
  lia.
Qed.

Lemma zsum_map_nonneg {A : Type} (f : A -> Z) (l : list A) :
  (forall x, In x l -> 0 <= f x) -> 0 <= zsum (map f l).
Proof.
  induction l as [|a l IH]; intros H; simpl; [lia|].
  pose proof (H a (or_introl eq_refl)).
  assert (0 <= zsum (map f l))
    by (apply IH; intros x Hx; apply H; right; exact Hx).
  lia.
Qed.

(** A sheet never reports more characters drawn than it was given. *)
Lemma sheet_drawn_le (loadedFonts : string -> option string)
    (characters : list jsstring) (totalPages : Z) (fontType : string)
    (charsPerRow rowCount : Z) (practiceMode : bool) (guideOpacity : Q)
    (pageBreakAfter page : Z) :
  let sh := sheet_of loadedFonts characters totalPages fontType charsPerRow
              rowCount practiceMode guideOpacity pageBreakAfter page in
  0 <= sheet_drawn sh <= sheet_length sh.
Proof.
  cbv zeta. unfold sheet_drawn, sheet_length, sheet_of.
  cbn [PDFGenerator.canvasResult PDFGenerator.pageText].
  set (pageText := join _).
  set (rows := Num _).
  assert (H : forall opts c r,
             0 <= charactersDrawn
                    (generateCopybook loadedFonts pageText fontType c r opts)
               <= Js.length (characters_of pageText)).
  { intros opts c r.
    pose proof (generateCopybook_drawn_bounds loadedFonts pageText fontType
                  c r opts) as [Hb _].
    cbv zeta in Hb. rewrite generateCopybook_totalCharacters in Hb.
    exact Hb. }
  destruct practiceMode; [unfold generatePracticeCopybook|]; apply H.
Qed.

Lemma generateMultiPagePDF_drawn_le
    (loadedFonts : string -> option string) (text : jsstring)
    (o : PDFGenerator.pdf_options) :
  0 < opt_pageBreakAfter o ->
  let res := PDFGenerator.generateMultiPagePDF loadedFonts text o in
  0 <= PDFGenerator.charactersDrawn res <= PDFGenerator.totalCharacters res.
Proof.
  intros Hpba res. unfold res.
  rewrite (generateMultiPagePDF_sheets loadedFonts text o Hpba).
  cbn [PDFGenerator.charactersDrawn PDFGenerator.totalCharacters].
  rewrite map_map.
  pose proof (zsum_sheet_lengths loadedFonts (characters_of text)
                (characters_of_glyphs text) (opt_fontType o)
                (opt_charsPerRow o) (opt_rowCount o) (opt_practiceMode o)
                (opt_guideOpacity o) (opt_pageBreakAfter o) Hpba) as Hsum.
  split.
  - apply zsum_map_nonneg. intros page _. apply sheet_drawn_le.
  - etransitivity; [|apply Z.eq_le_incl, Hsum].
    apply zsum_map_le. intros page _. apply sheet_drawn_le.
Qed.

(** X9: for a grid request in range and a page size > 0,
    [generateMultiPagePDF] draws every character of the stream exactly when
    min(pageBreakAfter, stream length) <= charsPerRow * rowCount, that is
    when the largest page fits its grid; otherwise charactersDrawn is
    strictly smaller than totalCharacters. *)
Theorem X9_multi_page_lossless_iff
    (loadedFonts : string -> option string) (text : jsstring)
    (o : PDFGenerator.pdf_options) :
  1 <= opt_charsPerRow o <= 20 ->
  1 <= opt_rowCount o <= 30 ->
  0 < opt_pageBreakAfter o ->
  let res := PDFGenerator.generateMultiPagePDF loadedFonts text o in
  let n := Js.length (characters_of text) in
  let capacity := opt_charsPerRow o * opt_rowCount o in
  (PDFGenerator.charactersDrawn res = PDFGenerator.totalCharacters res
   <-> Z.min (opt_pageBreakAfter o) n <= capacity)
  /\ (capacity < Z.min (opt_pageBreakAfter o) n ->
      PDFGenerator.charactersDrawn res < PDFGenerator.totalCharacters res).
Proof.
  intros Hc Hr Hpba res n capacity.
  pose proof (generateMultiPagePDF_sheets loadedFonts text o Hpba) as Hs.
  cbv zeta in Hs. fold res in Hs.
  set (stream := characters_of text) in *.
  set (T := ceil_div (Js.length stream) (opt_pageBreakAfter o)) in *.
  set (sheet := sheet_of loadedFonts stream T (opt_fontType o)
                  (opt_charsPerRow o) (opt_rowCount o)
                  (opt_practiceMode o) (opt_guideOpacity o)
                  (opt_pageBreakAfter o)) in *.
  pose proof (totalPages_nonneg stream _ Hpba) as HT. fold T in HT.
  assert (Hdrawn : forall page, 0 <= page < T ->
             sheet_drawn (sheet page)
             = Z.min (sheet_length (sheet page)) capacity).
  { intros page Hp.
    apply (sheet_canvas_drawn loadedFonts stream
             (characters_of_glyphs text) (opt_fontType o)
             (opt_charsPerRow o) (opt_rowCount o) Hc Hr
             (opt_practiceMode o) (opt_guideOpacity o)
             (opt_pageBreakAfter o) Hpba page Hp). }
  assert (Hlen : forall page, 0 <= page < T ->
             sheet_length (sheet page)
             = Z.min ((page + 1) * opt_pageBreakAfter o) n
               - page * opt_pageBreakAfter o
             /\ 0 < sheet_length (sheet page) <= opt_pageBreakAfter o).
  { intros page Hp. unfold sheet, T.
    rewrite (sheet_length_slice loadedFonts stream
               (characters_of_glyphs text)).
    apply (length_page_slice stream _ Hpba page Hp). }
  pose proof (zsum_sheet_lengths loadedFonts stream
                (characters_of_glyphs text) (opt_fontType o)
                (opt_charsPerRow o) (opt_rowCount o)
                (opt_practiceMode o) (opt_guideOpacity o)
                (opt_pageBreakAfter o) Hpba) as Hsum.
  fold T sheet in Hsum. fold n in Hsum.
  assert (Hres : PDFGenerator.charactersDrawn res
                 = zsum (map (fun page => sheet_drawn (sheet page))
                             (zrange 0 (Z.to_nat T)))
                 /\ PDFGenerator.totalCharacters res = n).
  { rewrite Hs. cbn [PDFGenerator.charactersDrawn
                     PDFGenerator.totalCharacters].
    rewrite map_map. split; reflexivity. }
  destruct Hres as [Hd Ht]. rewrite Hd, Ht. clear Hs Hd Ht.
  assert (Hfit : Z.min (opt_pageBreakAfter o) n <= capacity ->
                 zsum (map (fun page => sheet_drawn (sheet page))
                           (zrange 0 (Z.to_nat T))) = n).
  { intros Hcap. rewrite <- Hsum. apply zsum_map_ext_in.
    intros page Hin. apply in_zrange in Hin.
    rewrite Hdrawn by lia. destruct (Hlen page ltac:(lia)) as [Hl Hb].
    nia. }
  assert (Hloss : capacity < Z.min (opt_pageBreakAfter o) n ->
                  zsum (map (fun page => sheet_drawn (sheet page))
                            (zrange 0 (Z.to_nat T))) < n).
  { intros Hcap.
    assert (HT1 : 1 <= T).
    { unfold T. fold n.
      pose proof (ceil_div_pos n (opt_pageBreakAfter o) Hpba ltac:(lia)).
      lia. }
    rewrite <- Hsum.
    destruct (Z.to_nat T) as [|k] eqn:Hk; [lia|].
    cbn [zrange map zsum fold_right]. fold zsum.
    rewrite (Hdrawn 0) by lia. destruct (Hlen 0 ltac:(lia)) as [Hl0 _].
    assert (Hrest :
      zsum (map (fun page => sheet_drawn (sheet page)) (zrange (0 + 1) k))
      <= zsum (map (fun page => sheet_length (sheet page))
                   (zrange (0 + 1) k))).
    { apply zsum_map_le. intros page Hin. apply in_zrange in Hin.
      rewrite Hdrawn by lia. lia. }
    fold (zsum (map (fun page => sheet_drawn (sheet page))
                    (zrange (0 + 1) k))).
    fold (zsum (map (fun page => sheet_length (sheet page))
                    (zrange (0 + 1) k))).
    lia. }
  split; [split|]; [|exact Hfit|exact Hloss].
  intros Heq.
  destruct (Z_le_gt_dec (Z.min (opt_pageBreakAfter o) n) capacity)
    as [Hle|Hgt]; [exact Hle|].
  specialize (Hloss ltac:(lia)). lia.
Qed.

Lemma X9_multi_page_lossless_iff_witness :
  PDFGenerator.charactersDrawn
    (PDFGenerator.generateMultiPagePDF no_fonts (sample_text 300)
       (grid_options 10 15 200))
  < PDFGenerator.totalCharacters
      (PDFGenerator.generateMultiPagePDF no_fonts (sample_text 300)
         (grid_options 10 15 200)).
Proof.
  destruct (X9_multi_page_lossless_iff no_fonts (sample_text 300)
              (grid_options 10 15 200)
              ltac:(vm_compute; split; discriminate)
              ltac:(vm_compute; split; discriminate)
              ltac:(reflexivity)) as [_ H].
  apply H. vm_compute. reflexivity.
Defined.

(** *** Page sizes that are not positive, and page numbers *)

Lemma ceil_div_negative_divisor (a b : Z) :
  0 <= a -> b < 0 -> ceil_div a b <= 0.
Proof.
  intros Ha Hb. unfold ceil_div.
  rewrite <- (Z.opp_involutive b), Z.div_opp_opp by lia.
  pose proof (Z.div_pos a (- b) Ha ltac:(lia)). lia.
Qed.

Lemma generateMultiPagePDF_negative
    (loadedFonts : string -> option string) (text : jsstring)
    (o : PDFGenerator.pdf_options) :
  opt_pageBreakAfter o < 0 ->
  let res := PDFGenerator.generateMultiPagePDF loadedFonts text o in
  PDFGenerator.pdf res = []
  /\ PDFGenerator.charactersDrawn res = 0
  /\ PDFGenerator.totalPages res <= 0
  /\ PDFGenerator.totalCharacters res = Js.length (characters_of text).
Proof.
  intros Hpba res. subst res. unfold PDFGenerator.generateMultiPagePDF.
  fold (opt_pageBreakAfter o).
  pose proof (ceil_div_negative_divisor (Js.length (characters_of text))
                (opt_pageBreakAfter o) (length_nonneg _) Hpba) as HT.
  replace (Z.to_nat (ceil_div (Js.length (characters_of text))
                       (opt_pageBreakAfter o))) with O by lia.
  cbn [PDFGenerator.page_loop PDFGenerator.pdf PDFGenerator.charactersDrawn
       PDFGenerator.totalPages PDFGenerator.totalCharacters].
  repeat split; [exact HT].
Qed.

(** X11: with a negative pageBreakAfter, [generateMultiPagePDF] raises no
    error: it returns a document without any sheet, charactersDrawn = 0 and
    a totalPages that is not positive, while totalCharacters still counts
    the whole stream. *)
Theorem X11_negative_page_size_draws_nothing
    (loadedFonts : string -> option string) (text : jsstring)
    (o : PDFGenerator.pdf_options) :
  opt_pageBreakAfter o < 0 ->
  let res := PDFGenerator.generateMultiPagePDF loadedFonts text o in
  PDFGenerator.pdf res = []
  /\ PDFGenerator.charactersDrawn res = 0
  /\ PDFGenerator.totalPages res <= 0
  /\ PDFGenerator.totalCharacters res = Js.length (characters_of text).
Proof.
  intros Hpba. apply generateMultiPagePDF_negative. exact Hpba.
Qed.

Lemma X11_negative_page_size_draws_nothing_witness :
  PDFGenerator.pdf
    (PDFGenerator.generateMultiPagePDF no_fonts (sample_text 5)
       (grid_options 10 15 (-3)))
  = [].
Proof.
  apply (X11_negative_page_size_draws_nothing no_fonts (sample_text 5)
           (grid_options 10 15 (-3)) ltac:(reflexivity)).
Defined.

(** The footer is written below the bottom margin: a line of size 10 at
    [footer_y] does not end above [page_maxY]. *)
Lemma footer_overflows :
  PrimFloat.ltb PDFGenerator.page_maxY
    (PDFGenerator.footer_y + PDFGenerator.currentLineHeight 10)%float
  = true
  /\ PrimFloat.ltb PDFGenerator.page_maxY
       (PDFGenerator.margins_top + PDFGenerator.currentLineHeight 10
        + PDFGenerator.currentLineHeight 10)%float
     = false.
Proof. split; vm_compute; reflexivity. Qed.

Lemma text_at_footer (d : PDFGenerator.document) (str : PDFGenerator.caption) :
  PDFGenerator.text_at d PDFGenerator.footer_y 10 str
  = PDFGenerator.place_item (PDFGenerator.addPage d)
      (PDFGenerator.CaptionText 10 str).
Proof.
  destruct footer_overflows as [H1 H2].
  unfold PDFGenerator.text_at. rewrite H1, H2. reflexivity.
Qed.

Section PrintedPages.

(** The rounds of a page loop: round [i] makes the calls [sheet_calls i T]
    for its canvas and its footer is "i + 1 / T". *)
Variable sheet : Z -> PDFGenerator.pdf_page.
Variable T : Z.
Hypothesis sheet_calls_of :
  forall i, PDFGenerator.calls (sheet i)
            = PDFGenerator.sheet_calls i T
                (PDFGenerator.canvasResult (sheet i)).
Hypothesis sheet_footer : forall i, PDFGenerator.footer (sheet i) = (i + 1, T).

Lemma run_round_pages (d : PDFGenerator.document) (page : Z) :
  PDFGenerator.pages
    (fold_left PDFGenerator.run_call (PDFGenerator.calls (sheet page)) d)
  = if page >? 0
    then PDFGenerator.pages d
         ++ [image_page (sheet page); footer_page (sheet page)]
    else PDFGenerator.finished d
         ++ [PDFGenerator.current d ++ image_page (sheet page);
             footer_page (sheet page)].
Proof.
  rewrite sheet_calls_of. unfold PDFGenerator.sheet_calls.
  unfold image_page, footer_page. rewrite sheet_footer. cbn [fst snd].
  destruct (page >? 0); cbn [app fold_left PDFGenerator.run_call];
    rewrite text_at_footer;
    unfold PDFGenerator.pages, PDFGenerator.place_item, PDFGenerator.addPage;
    cbn [PDFGenerator.finished PDFGenerator.current app];
    rewrite <- ?app_assoc; reflexivity.
Qed.

Lemma run_rounds_pages (k : nat) (page : Z) (d : PDFGenerator.document) :
  0 < page ->
  PDFGenerator.pages
    (fold_left PDFGenerator.run_call
       (List.concat (map PDFGenerator.calls (map sheet (zrange page k)))) d)
  = PDFGenerator.pages d
    ++ flat_map (fun p => [image_page p; footer_page p])
         (map sheet (zrange page k)).
Proof.
  revert page d. induction k as [|k IH]; intros page d Hpage.
  - cbn [zrange map List.concat fold_left flat_map]. rewrite app_nil_r.
    reflexivity.
  - cbn [zrange map List.concat flat_map]. rewrite fold_left_app.
    rewrite IH by lia. rewrite run_round_pages.
    destruct (Z.gtb_spec page 0) as [_|Hle]; [|lia].
    rewrite <- app_assoc. reflexivity.
Qed.

Lemma printed_pages (k : nat) :
  PDFGenerator.pages
    (fold_left PDFGenerator.run_call
       (List.concat (map PDFGenerator.calls (map sheet (zrange 0 k))))
       PDFGenerator.createPDFDocument)
  = match k with
    | O => [[]]
    | S _ => flat_map (fun p => [image_page p; footer_page p])
               (map sheet (zrange 0 k))
    end.
Proof.
  destruct k as [|k]; [reflexivity|].
  cbn [zrange map List.concat flat_map]. rewrite fold_left_app.
  rewrite run_rounds_pages by lia. rewrite run_round_pages.
  reflexivity.
Qed.

End PrintedPages.

Lemma nth_error_flat_map_two {A B : Type} (f g : A -> B) (l : list A)
    (i : nat) :
  nth_error (flat_map (fun a => [f a; g a]) l) (2 * i)
  = option_map f (nth_error l i)
  /\ nth_error (flat_map (fun a => [f a; g a]) l) (S (2 * i))
     = option_map g (nth_error l i).
Proof.
  revert i. induction l as [|a l IH]; intros i.
  - destruct i; split; reflexivity.
  - destruct i as [|i]; [split; reflexivity|].
    replace (2 * S i)%nat with (S (S (2 * i))) by lia.
    cbn [flat_map app nth_error]. apply IH.
Qed.

(** X12: for a page size > 0 the footers of the sheets are "1 / T",
    "2 / T", ..., "T / T" in this order, T being the totalPages the
    document reports.  But a footer is written below the bottom margin, so
    PDFKit puts it on a page of its own: a document of T >= 1 sheets has
    2 T pages, the image of sheet i alone on page 2 i - 1 and its footer
    alone on page 2 i, and no page carries both an image and a page
    number.  With no sheet the document is its single empty page. *)
Theorem X12_footers_number_the_sheets
    (loadedFonts : string -> option string) (text : jsstring)
    (o : PDFGenerator.pdf_options) :
  0 < opt_pageBreakAfter o ->
  let res := PDFGenerator.generateMultiPagePDF loadedFonts text o in
  let T := PDFGenerator.totalPages res in
  let doc := PDFGenerator.pages (PDFGenerator.printed res) in
  map PDFGenerator.footer (PDFGenerator.pdf res)
  = map (fun i => (i + 1, T)) (zrange 0 (Z.to_nat T))
  /\ Js.length (PDFGenerator.pdf res) = T
  /\ (1 <= T -> Js.length doc = 2 * T)
  /\ (T = 0 -> doc = [[]])
  /\ (forall i p,
        nth_error (PDFGenerator.pdf res) i = Some p ->
        nth_error doc (2 * i)
        = Some [PDFGenerator.PlacedImage (PDFGenerator.canvasResult p)]
        /\ nth_error doc (S (2 * i))
           = Some [PDFGenerator.CaptionText 10
                     (PDFGenerator.PageNumber (Z.of_nat i + 1) T)]).
Proof.
  intros Hpba res T doc. subst doc T res.
  unfold PDFGenerator.printed.
  rewrite (generateMultiPagePDF_sheets loadedFonts text o Hpba).
  cbn [PDFGenerator.pdf PDFGenerator.totalPages].
  pose proof (totalPages_nonneg (characters_of text) _ Hpba) as HT.
  set (T := ceil_div (Js.length (characters_of text))
              (opt_pageBreakAfter o)) in *.
  set (sheet := sheet_of loadedFonts (characters_of text) T (opt_fontType o)
                  (opt_charsPerRow o) (opt_rowCount o) (opt_practiceMode o)
                  (opt_guideOpacity o) (opt_pageBreakAfter o)).
  rewrite (printed_pages sheet T) by (intros i; reflexivity).
  split; [rewrite map_map; apply map_ext; intros page; reflexivity|].
  split; [unfold Js.length; rewrite length_map, length_zrange; lia|].
  split; [|split].
  - intros H1. destruct (Z.to_nat T) as [|k] eqn:Hk; [lia|].
    unfold Js.length.
    rewrite (flat_map_constant_length (c := 2%nat)) by reflexivity.
    rewrite length_map, length_zrange. lia.
  - intros H0. rewrite H0. reflexivity.
  - intros i p Hp.
    assert (Hi : p = sheet (Z.of_nat i) /\ (i < Z.to_nat T)%nat).
    { rewrite nth_error_map_zrange in Hp.
      destruct (Nat.ltb_spec i (Z.to_nat T)) as [Hlt|_];
        [|discriminate Hp].
      injection Hp as <-. split; [reflexivity | exact Hlt]. }
    destruct Hi as [-> Hlt].
    destruct (Z.to_nat T) as [|k] eqn:Hk; [lia|].
    destruct (nth_error_flat_map_two image_page footer_page
                (map sheet (zrange 0 (S k))) i) as [H1 H2].
    rewrite H1, H2, nth_error_map_zrange.
    destruct (Nat.ltb_spec i (S k)) as [_|Hge]; [|lia].
    split; reflexivity.
Qed.

Lemma X12_footers_number_the_sheets_witness :
  map PDFGenerator.footer
      (PDFGenerator.pdf
         (PDFGenerator.generateMultiPagePDF no_fonts (sample_text 320)
            (grid_options 10 15 150)))
  = [(1, 3); (2, 3); (3, 3)]
  /\ Js.length
       (PDFGenerator.pages
          (PDFGenerator.printed
             (PDFGenerator.generateMultiPagePDF no_fonts (sample_text 320)
                (grid_options 10 15 150))))
     = 6.
Proof.
  destruct (X12_footers_number_the_sheets no_fonts (sample_text 320)
              (grid_options 10 15 150) ltac:(reflexivity))
    as (H & _ & H2 & _).
  split.
  - etransitivity; [exact H | vm_compute; reflexivity].
  - etransitivity; [apply H2; vm_compute; discriminate
                   | vm_compute; reflexivity].
Defined.

(** *** [generatePDF] *)

Lemma length_characters_of_le (s : jsstring) :
  Js.length (characters_of s) <= Js.length s.
Proof.
  rewrite length_characters_of. unfold Js.length, replace_ws.
  pose proof (filter_length_le (fun c => negb (is_whitespace c)) s). lia.
Qed.

(** X10: [generatePDF] fails exactly on the texts [validateText] refuses,
    with that error behind the prefix "Failed to generate PDF: ".  Every
    other text is a string of 1 to 2000 code units once trimmed, and it is
    the trimmed text that is rendered: by [generateMultiPagePDF] exactly
    when [multiPage] is set and [pageBreakAfter] is present and not zero,
    and otherwise on a single page, by [generateCopybook] with the counts
    of the options (defaults 10 and 15), in practice mode with the guide
    opacity of the options (default 0.2) when [practiceMode] is set.  In
    both cases the stream has at most 2000 characters and charactersDrawn
    never exceeds totalCharacters. *)
Theorem X10_generatePDF_outcomes
    (loadedFonts : string -> option string) (text : value)
    (o : PDFGenerator.pdf_options) :
  let paginates :=
    PDFGenerator.dflt false (PDFGenerator.multiPage o)
    && match PDFGenerator.pageBreakAfter o with
       | Some n => negb (n =? 0)
       | None => false
       end in
  let single_options :=
    if opt_practiceMode o then practice (opt_guideOpacity o)
    else no_options in
  match PDFGenerator.generatePDF loadedFonts text o with
  | Throw message =>
      refused text
      /\ exists cause, validateText text = Throw cause
           /\ message = String.append "Failed to generate PDF: " cause
  | Ok (PDFGenerator.SinglePage r) =>
      ~ refused text
      /\ paginates = false
      /\ (exists s, text = Str s
            /\ 1 <= Js.length (trim s) <= 2000
            /\ r = generateCopybook loadedFonts (trim s) (opt_fontType o)
                     (Num (opt_charsPerRow o)) (Num (opt_rowCount o))
                     single_options
            /\ totalCharacters r = Js.length (characters_of s))
      /\ 0 <= charactersDrawn r <= totalCharacters r
      /\ totalCharacters r <= 2000
  | Ok (PDFGenerator.MultiPage r) =>
      ~ refused text
      /\ paginates = true
      /\ (exists s, text = Str s
            /\ 1 <= Js.length (trim s) <= 2000
            /\ r = PDFGenerator.generateMultiPagePDF loadedFonts (trim s) o
            /\ PDFGenerator.totalCharacters r
               = Js.length (characters_of s))
      /\ 0 <= PDFGenerator.charactersDrawn r
           <= PDFGenerator.totalCharacters r
      /\ PDFGenerator.totalCharacters r <= 2000
  end.
Proof.
  cbv zeta. unfold PDFGenerator.generatePDF.
  destruct (validateText text) as [t|cause] eqn:Hv.
  - assert (Ht : exists s, text = Str s /\ t = trim s
                           /\ 1 <= Js.length t <= 2000).
    { destruct text as [| |b|k|s]; try discriminate Hv.
      exists s. unfold validateText in Hv.
      destruct (negb (truthy_string s)); [discriminate Hv|].
      destruct (Z.eqb_spec (Js.length (trim s)) 0); [discriminate Hv|].
      destruct (Z.gtb_spec (Js.length (trim s)) 2000); [discriminate Hv|].
      injection Hv as <-. pose proof (length_nonneg (trim s)).
      repeat split; lia. }
    destruct Ht as (s & -> & -> & Hlen).
    assert (Hacc : ~ refused (Str s)) by (unfold refused; lia).
    pose proof (length_characters_of_le (trim s)) as Hle.
    pose proof (characters_of_trim s) as Htrim.
    destruct (PDFGenerator.dflt false (PDFGenerator.multiPage o)
              && match PDFGenerator.pageBreakAfter o with
                 | Some n => negb (n =? 0)
                 | None => false
                 end) eqn:Hp.
    + split; [exact Hacc|]. split; [reflexivity|].
      assert (Hpba : opt_pageBreakAfter o <> 0).
      { apply andb_true_iff in Hp as [_ Hp]. unfold opt_pageBreakAfter.
        destruct (PDFGenerator.pageBreakAfter o) as [n|];
          [|discriminate Hp].
        cbn [PDFGenerator.dflt]. destruct (Z.eqb_spec n 0);
          [discriminate Hp | assumption]. }
      assert (Htot : PDFGenerator.totalCharacters
                       (PDFGenerator.generateMultiPagePDF loadedFonts
                          (trim s) o)
                     = Js.length (characters_of (trim s))).
      { unfold PDFGenerator.generateMultiPagePDF.
        destruct (PDFGenerator.page_loop _ _ _ _ _ _ _ _ _ _ _ _).
        reflexivity. }
      split.
      { exists s. split; [reflexivity|]. split; [exact Hlen|].
        split; [reflexivity|].
        rewrite Htot, Htrim. reflexivity. }
      split; [|rewrite Htot; lia].
      destruct (Z_lt_le_dec 0 (opt_pageBreakAfter o)) as [Hpos|Hneg].
      * apply (generateMultiPagePDF_drawn_le loadedFonts (trim s) o Hpos).
      * destruct (generateMultiPagePDF_negative loadedFonts
                    (trim s) o ltac:(lia)) as (_ & Hd & _ & Ht).
        rewrite Hd, Ht. split; [lia | apply length_nonneg].
    + split; [exact Hacc|]. split; [reflexivity|].
      set (r := if PDFGenerator.dflt false (PDFGenerator.practiceMode o)
                then _ else _).
      assert (Hr : r = generateCopybook loadedFonts (trim s) (opt_fontType o)
                         (Num (opt_charsPerRow o)) (Num (opt_rowCount o))
                         (if opt_practiceMode o
                          then practice (opt_guideOpacity o)
                          else no_options)).
      { unfold r, opt_practiceMode.
        destruct (PDFGenerator.dflt false (PDFGenerator.practiceMode o));
          reflexivity. }
      clearbody r. subst r.
      split.
      { exists s. split; [reflexivity|]. split; [exact Hlen|].
        split; [reflexivity|].
        rewrite generateCopybook_totalCharacters, Htrim. reflexivity. }
      split; [apply generateCopybook_drawn_bounds|].
      rewrite generateCopybook_totalCharacters. lia.
  - split.
    + destruct text as [| |b|k|s]; try exact I.
      unfold validateText in Hv. unfold refused.
      destruct s as [|c s];
        [left; reflexivity|]. cbn [truthy_string negb] in Hv.
      destruct (Z.eqb_spec (Js.length (trim (c :: s))) 0) as [He|_];
        [left; exact He|].
      destruct (Z.gtb_spec (Js.length (trim (c :: s))) 2000) as [Hg|_];
        [right; lia | discriminate Hv].
    + exists cause. split; reflexivity.
Qed.

(** *** Practice sheets *)

(** The title of a practice sheet is written inside the page: a line of
    size 14 or 16 at [title_y] ends above [page_maxY]. *)
Lemma text_at_title (d : PDFGenerator.document) (fontSize : Z)
    (str : PDFGenerator.caption) :
  fontSize = 14 \/ fontSize = 16 ->
  PDFGenerator.text_at d PDFGenerator.title_y fontSize str
  = PDFGenerator.place_item d (PDFGenerator.CaptionText fontSize str).
Proof.
  intros [-> | ->]; unfold PDFGenerator.text_at.
  - assert (H : PrimFloat.ltb PDFGenerator.page_maxY
                  (PDFGenerator.title_y
                   + PDFGenerator.currentLineHeight 14)%float = false
                /\ PrimFloat.ltb PDFGenerator.page_maxY
                     (PDFGenerator.title_y
                      + PDFGenerator.currentLineHeight 14
                      + PDFGenerator.currentLineHeight 14)%float = false)
      by (split; vm_compute; reflexivity).
    destruct H as [H1 H2]. rewrite H1, H2. reflexivity.
  - assert (H : PrimFloat.ltb PDFGenerator.page_maxY
                  (PDFGenerator.title_y
                   + PDFGenerator.currentLineHeight 16)%float = false
                /\ PrimFloat.ltb PDFGenerator.page_maxY
                     (PDFGenerator.title_y
                      + PDFGenerator.currentLineHeight 16
                      + PDFGenerator.currentLineHeight 16)%float = false)
      by (split; vm_compute; reflexivity).
    destruct H as [H1 H2]. rewrite H1, H2. reflexivity.
Qed.

Lemma pages_place_two (d : PDFGenerator.document)
    (i j : PDFGenerator.pdf_item) :
  PDFGenerator.pages
    (PDFGenerator.place_item
       (PDFGenerator.place_item (PDFGenerator.addPage d) i) j)
  = PDFGenerator.pages d ++ [[i; j]].
Proof. reflexivity. Qed.

Lemma copies_loop_pages (loadedFonts : string -> option string)
    (text : jsstring) (fontType : string) (charsPerRow rowCount : Z)
    (includeAnswer : bool) (copies : Z) (n : nat) (copy : Z)
    (d : PDFGenerator.document) :
  includeAnswer = true \/ 0 < copy ->
  Z.of_nat n = copies - copy ->
  PDFGenerator.pages
    (PDFGenerator.copies_loop loadedFonts text fontType charsPerRow rowCount
       includeAnswer copies n copy d)
  = PDFGenerator.pages d
    ++ map (practice_page loadedFonts text fontType charsPerRow rowCount)
           (zrange copy n).
Proof.
  revert copy d. induction n as [|n IH]; intros copy d Hadd Hn.
  - simpl. rewrite app_nil_r. reflexivity.
  - cbn [PDFGenerator.copies_loop].
    destruct (Z.ltb_spec copy copies) as [_|Hge]; [|lia].
    assert (Hb : includeAnswer || (copy >? 0) = true).
    { destruct Hadd as [->|Hpos]; [reflexivity|].
      destruct (Z.gtb_spec copy 0); [apply orb_true_r | lia]. }
    rewrite Hb, IH;
      [| destruct Hadd as [Ha|Hpos]; [left; exact Ha | right; lia] | lia].
    rewrite text_at_title by (left; reflexivity).
    rewrite pages_place_two, <- app_assoc. reflexivity.
Qed.

(** X13: for a number of copies that is not negative,
    [generatePracticeSheets] reports copies + 1 sheets with an answer sheet
    and copies sheets without.  When it reports at least one sheet, the
    document has exactly that many pages: the answer page first (drawn at
    full opacity) when requested, then practice copy 1, 2, ... in order,
    every copy being the same canvas drawn with guide opacity 0.2, each
    page holding one image and its caption.  When it reports none, the
    document is its single empty first page. *)
Theorem X13_practice_sheets_pages
    (loadedFonts : string -> option string) (text : jsstring)
    (copies : option Z) (o : PDFGenerator.sheets_options) :
  0 <= PDFGenerator.dflt 3 copies ->
  let n := PDFGenerator.dflt 3 copies in
  let fontType :=
    PDFGenerator.dflt "serif"%string (PDFGenerator.sheets_fontType o) in
  let c := PDFGenerator.dflt 10 (PDFGenerator.sheets_charsPerRow o) in
  let r := PDFGenerator.dflt 15 (PDFGenerator.sheets_rowCount o) in
  let withAnswer :=
    PDFGenerator.dflt true (PDFGenerator.sheets_includeAnswer o) in
  let res := PDFGenerator.generatePracticeSheets loadedFonts text copies o in
  let drawn := PDFGenerator.pages (PDFGenerator.sheets_pdf res) in
  PDFGenerator.copies res = (if withAnswer then n + 1 else n)
  /\ PDFGenerator.includeAnswer res = withAnswer
  /\ (1 <= PDFGenerator.copies res ->
      drawn
      = (if withAnswer
         then [answer_page loadedFonts text fontType c r] else [])
        ++ map (practice_page loadedFonts text fontType c r)
               (zrange 0 (Z.to_nat n))
      /\ Js.length drawn = PDFGenerator.copies res)
  /\ (PDFGenerator.copies res = 0 -> drawn = [[]]).
Proof.
  intros Hn n fontType c r withAnswer res drawn.
  subst drawn res. unfold PDFGenerator.generatePracticeSheets.
  fold n fontType c r withAnswer.
  cbn [PDFGenerator.copies PDFGenerator.includeAnswer
       PDFGenerator.sheets_pdf].
  rewrite !text_at_title by (right; reflexivity).
  split; [reflexivity|]. split; [reflexivity|].
  destruct withAnswer.
  - split; [|intros H0; lia].
    intros _.
    rewrite copies_loop_pages by (try (left; reflexivity); lia).
    split; [reflexivity|].
    unfold Js.length. rewrite length_app, length_map, length_zrange.
    cbn [PDFGenerator.pages PDFGenerator.place_item
         PDFGenerator.createPDFDocument PDFGenerator.finished
         PDFGenerator.current app List.length].
    lia.
  - split.
    + intros H1.
      destruct (Z.to_nat n) as [|k] eqn:Hk; [lia|].
      cbn [PDFGenerator.copies_loop].
      destruct (Z.ltb_spec 0 n) as [_|Hge]; [|lia].
      cbn [orb]. change (0 >? 0) with false. cbv iota.
      rewrite text_at_title by (left; reflexivity).
      rewrite copies_loop_pages by (try (right; lia); lia).
      split; [reflexivity|].
      unfold Js.length. cbn [zrange map app].
      rewrite length_app, length_map, length_zrange.
      cbn [PDFGenerator.pages PDFGenerator.place_item
           PDFGenerator.createPDFDocument PDFGenerator.finished
           PDFGenerator.current app List.length].
      lia.
    + intros H0. rewrite H0. reflexivity.
Qed.

Lemma X13_practice_sheets_pages_witness :
  Js.length
    (PDFGenerator.pages
       (PDFGenerator.sheets_pdf
          (PDFGenerator.generatePracticeSheets no_fonts (sample_text 4)
             (Some 2)
             {| PDFGenerator.sheets_fontType := None;
                PDFGenerator.sheets_charsPerRow := None;
                PDFGenerator.sheets_rowCount := None;
                PDFGenerator.sheets_includeAnswer := None |})))
  = 3.
Proof.
  destruct (X13_practice_sheets_pages no_fonts (sample_text 4) (Some 2)
              {| PDFGenerator.sheets_fontType := None;
                 PDFGenerator.sheets_charsPerRow := None;
                 PDFGenerator.sheets_rowCount := None;
                 PDFGenerator.sheets_includeAnswer := None |}
              ltac:(discriminate)) as (_ & _ & H & _).
  destruct (H ltac:(discriminate)) as [_ Hlen].
  etransitivity; [exact Hlen | reflexivity].
Defined.

(* ===================================================================== *)
(** ** Properties of the API routes                                       *)
(* ===================================================================== *)

Lemma or_num_nonzero (x : option Z) (d : Z) : d <> 0 -> or_num x d <> 0.
Proof.
  intros Hd. unfold or_num. destruct x as [n|]; [|exact Hd].
  destruct (Z.eqb_spec n 0); assumption.
Qed.

(** A count the handlers have validated is parsed a second time by the
    generator.  When it is below 2^53 in magnitude it is read as it is, and
    only the clamp is left. *)
Lemma clamp_count_validated (hi d n : Z) :
  Z.abs n < 2 ^ 53 -> n <> 0 ->
  clamp_count hi d (Num n) = Z.max 1 (Z.min hi n).
Proof.
  intros Hn H0. unfold clamp_count. rewrite parseInt_safe by exact Hn.
  cbn [or_num]. destruct (Z.eqb_spec n 0); [contradiction | reflexivity].
Qed.

Lemma blank_cases (v : value) :
  blank v \/ (~ blank v /\ ~ is_string v)
  \/ (exists s, v = Str s /\ trim s <> []).
Proof.
  destruct v as [| |b|n|s].
  - left. left. reflexivity.
  - left. left. reflexivity.
  - destruct b.
    + right. left. split.
      * intros [H|[s [H _]]]; discriminate H.
      * intros [s H]. discriminate H.
    + left. left. reflexivity.
  - destruct (Z.eqb_spec n 0) as [->|Hn].
    + left. left. reflexivity.
    + right. left. split.
      * intros [H|[s [H _]]]; [|discriminate H].
        cbn [Routes.truthy] in H.
        destruct (Z.eqb_spec n 0); [contradiction|discriminate H].
      * intros [s H]. discriminate H.
  - destruct (trim s) eqn:Ht.
    + left. right. exists s. split; [reflexivity|exact Ht].
    + right. right. exists s. split; [reflexivity|].
      rewrite Ht. intros H. discriminate H.
Qed.

Lemma truthy_not_blank (v : value) :
  Routes.truthy v = true -> ~ is_string v -> ~ blank v.
Proof.
  intros Ht Hs [H|[s [H _]]].
  - rewrite Ht in H. discriminate H.
  - apply Hs. exists s. exact H.
Qed.

(** X14: the [/generate] handler answers 400 exactly when the text is
    falsy or a string that is blank once trimmed, 500 (the [TypeError] of
    [text.trim]) exactly when it is a truthy value that is not a string,
    and succeeds for every other string, however long: the 2000-character
    limit of [validateText] is not applied on this route.  On success the
    text is returned trimmed; the counts are parsed by the handler with
    default 10 and the numbers it obtains are parsed again and clamped by
    the generator, which gives the layout; [totalChars] is the number of
    glyphs of the text capped at the capacity of that grid.  When the
    number the handler obtained is below 2^53 in magnitude, the second
    parse reads it as it is and the count of the layout is that number
    clamped to 1..20 (1..30 for rows). *)
Theorem X14_generate_outcomes
    (loadedFonts : string -> option string) (b : Routes.body) :
  let validatedCharsPerRow := or_num (parseInt (Routes.charsPerRow b)) 10 in
  let validatedRowCount := or_num (parseInt (Routes.rowCount b)) 10 in
  let c := clamp_count 20 15 (Num validatedCharsPerRow) in
  let r := clamp_count 30 5 (Num validatedRowCount) in
  match Routes.post_generate loadedFonts b with
  | Routes.BadRequest _ => blank (Routes.text b)
  | Routes.ServerError _ cause =>
      ~ blank (Routes.text b) /\ ~ is_string (Routes.text b)
      /\ cause = Routes.NotAFunction
  | Routes.Success d =>
      exists s,
        Routes.text b = Str s /\ trim s <> []
        /\ Routes.data_text d = trim s
        /\ Routes.data_layout d = calculateA4Layout c r
        /\ Routes.totalChars d
           = Z.min (Js.length (characters_of s)) (c * r)
        /\ 1 <= c <= 20 /\ 1 <= r <= 30
        /\ (Z.abs validatedCharsPerRow < 2 ^ 53 ->
            c = Z.max 1 (Z.min 20 validatedCharsPerRow))
        /\ (Z.abs validatedRowCount < 2 ^ 53 ->
            r = Z.max 1 (Z.min 30 validatedRowCount))
  end.
Proof.
  intros vc vr c r. unfold Routes.post_generate.
  destruct (Routes.truthy (Routes.text b)) eqn:Ht; cbn [negb].
  2:{ left. exact Ht. }
  destruct (Routes.text b) as [| |v|n|s] eqn:Hb;
    try (split; [apply truthy_not_blank;
                   [exact Ht | intros [s' H]; discriminate H]
                |split; [intros [s' H]; discriminate H | reflexivity]]).
  destruct (trim s) as [|u t] eqn:Hs.
  - right. exists s. split; [reflexivity|exact Hs].
  - exists s. rewrite <- Hs.
    split; [reflexivity|].
    split; [rewrite Hs; intros H; discriminate H|].
    split; [reflexivity|].
    cbn [Routes.data_layout Routes.totalChars].
    rewrite generateCopybook_charactersDrawn, generateCopybook_layout.
    rewrite characters_of_trim. cbn [param_default].
    fold vc vr. fold c r.
    split; [reflexivity|]. split; [reflexivity|].
    split; [apply clamp_count_range; lia|].
    split; [apply clamp_count_range; lia|].
    split; intros Hsafe; apply clamp_count_validated;
      try exact Hsafe; apply or_num_nonzero; discriminate.
Qed.

(** X15: the counts the [/generate] handler echoes in its answer are the
    numbers it parsed, before the generator parses and clamps them: an
    echoed count is never 0, and when it is below 2^53 in magnitude the
    layout of the same answer has [max 1 (min 20 charsPerRow)] columns and
    [max 1 (min 30 rowCount)] rows, so the echoed count and the layout
    agree exactly when the request was within 1..20 (1..30 for rows). *)
Theorem X15_generate_echoes_unclamped_counts
    (loadedFonts : string -> option string) (b : Routes.body)
    (d : Routes.generate_data) :
  Routes.post_generate loadedFonts b = Routes.Success d ->
  Routes.data_charsPerRow d = or_num (parseInt (Routes.charsPerRow b)) 10
  /\ Routes.data_rowCount d = or_num (parseInt (Routes.rowCount b)) 10
  /\ Routes.data_charsPerRow d <> 0 /\ Routes.data_rowCount d <> 0
  /\ charsPerRow (Routes.data_layout d)
     = clamp_count 20 15 (Num (Routes.data_charsPerRow d))
  /\ rowCount (Routes.data_layout d)
     = clamp_count 30 5 (Num (Routes.data_rowCount d))
  /\ (Z.abs (Routes.data_charsPerRow d) < 2 ^ 53 ->
      charsPerRow (Routes.data_layout d)
      = Z.max 1 (Z.min 20 (Routes.data_charsPerRow d))
      /\ (charsPerRow (Routes.data_layout d) = Routes.data_charsPerRow d
          <-> 1 <= Routes.data_charsPerRow d <= 20))
  /\ (Z.abs (Routes.data_rowCount d) < 2 ^ 53 ->
      rowCount (Routes.data_layout d)
      = Z.max 1 (Z.min 30 (Routes.data_rowCount d))
      /\ (rowCount (Routes.data_layout d) = Routes.data_rowCount d
          <-> 1 <= Routes.data_rowCount d <= 30)).
Proof.
  unfold Routes.post_generate.
  destruct (negb (Routes.truthy (Routes.text b))); [intros H; discriminate H|].
  destruct (Routes.text b) as [| |v|n|s]; try (intros H; discriminate H).
  destruct (trim s) as [|u t]; [intros H; discriminate H|].
  intros H. injection H as <-.
  cbn [Routes.data_charsPerRow Routes.data_rowCount Routes.data_layout].
  rewrite generateCopybook_layout.
  cbn [charsPerRow rowCount calculateA4Layout param_default].
  pose proof (or_num_nonzero (parseInt (Routes.charsPerRow b)) 10
                ltac:(discriminate)) as Hc.
  pose proof (or_num_nonzero (parseInt (Routes.rowCount b)) 10
                ltac:(discriminate)) as Hr.
  split; [reflexivity|]. split; [reflexivity|].
  split; [exact Hc|]. split; [exact Hr|].
  split; [reflexivity|]. split; [reflexivity|].
  split; intros Hsafe; rewrite clamp_count_validated by assumption; lia.
Qed.

Lemma X15_generate_echoes_unclamped_counts_witness :
  exists d,
    Routes.post_generate no_fonts
      {| Routes.text := Str (sample_text 3);
         Routes.font := None;
         Routes.charsPerRow := Num 50;
         Routes.rowCount := Undefined;
         Routes.practiceMode := Undefined |} = Routes.Success d
    /\ Routes.data_charsPerRow d = 50
    /\ charsPerRow (Routes.data_layout d) = 20.
Proof.
  eexists. split; [reflexivity|].
  destruct (X15_generate_echoes_unclamped_counts no_fonts
              {| Routes.text := Str (sample_text 3);
                 Routes.font := None;
                 Routes.charsPerRow := Num 50;
                 Routes.rowCount := Undefined;
                 Routes.practiceMode := Undefined |} _ eq_refl)
    as (H1 & _ & _ & _ & H2 & _).
  split.
  - etransitivity; [exact H1 | reflexivity].
  - etransitivity; [exact H2 | reflexivity].
Defined.

(** The bound of X14 and X15 is needed: a count given as the numeral of
    10^21 is echoed as 10^21, which the generator reads as 1, so the sheet
    has one column. *)
Lemma generate_exponent_notation_count :
  match Routes.post_generate no_fonts
          {| Routes.text := Str (sample_text 3);
             Routes.font := None;
             Routes.charsPerRow := Str (lit "1000000000000000000000");
             Routes.rowCount := Undefined;
             Routes.practiceMode := Undefined |} with
  | Routes.Success d =>
      Routes.data_charsPerRow d = 10 ^ 21
      /\ charsPerRow (Routes.data_layout d) = 1
  | _ => False
  end.
Proof. vm_compute. split; reflexivity. Qed.

(** X16: the [/export/pdf] handler answers 400 exactly when the text is
    blank; 500 when the text is a truthy value that is not a string, or a
    string of more than 2000 code units once trimmed (the message of
    [validateText], behind the prefix of [generatePDF]); and otherwise
    sends one single-page document: never a paginated one, whatever the
    length.  Its sheet is drawn from the trimmed text with the counts
    parsed with default 10; it is a practice sheet, with guide opacity 0.2,
    only when [practiceMode] is the boolean [true]. *)
Theorem X16_export_pdf_outcomes
    (loadedFonts : string -> option string) (b : Routes.body) :
  let c := or_num (parseInt (Routes.charsPerRow b)) 10 in
  let r := or_num (parseInt (Routes.rowCount b)) 10 in
  let opts :=
    match Routes.practiceMode b with
    | Bool true => practice (2 # 10)
    | _ => no_options
    end in
  match Routes.post_export_pdf loadedFonts b with
  | Routes.BadRequest _ => blank (Routes.text b)
  | Routes.ServerError prefix cause =>
      prefix = "Failed to export PDF: "%string
      /\ ((~ blank (Routes.text b) /\ ~ is_string (Routes.text b)
           /\ cause = Routes.NotAFunction)
          \/ (exists s,
                Routes.text b = Str s /\ 2000 < Js.length (trim s)
                /\ cause
                   = Routes.Message
                       ("Failed to generate PDF: " ++
                        "Text content is too long (maximum 2000 characters)")
                       %string))
  | Routes.Success sent =>
      exists s,
        Routes.text b = Str s
        /\ 1 <= Js.length (trim s) <= 2000
        /\ sent
           = PDFGenerator.SinglePage
               (generateCopybook loadedFonts (trim s)
                  (Routes.validatedFont b) (Num c) (Num r) opts)
  end.
Proof.
  intros c r opts. unfold Routes.post_export_pdf.
  destruct (Routes.truthy (Routes.text b)) eqn:Ht; cbn [negb].
  2:{ left. exact Ht. }
  destruct (Routes.text b) as [| |v|n|s] eqn:Hb;
    try (split; [reflexivity|]; left;
         split; [apply truthy_not_blank;
                   [exact Ht | intros [s' H]; discriminate H]
                |split; [intros [s' H]; discriminate H | reflexivity]]).
  destruct (trim s) as [|u t] eqn:Hs.
  - right. exists s. split; [reflexivity|exact Hs].
  - rewrite <- Hs.
    assert (Hlen : 1 <= Js.length (trim s)).
    { rewrite Hs. unfold Js.length. cbn [List.length]. lia. }
    unfold PDFGenerator.generatePDF, validateText.
    assert (Htr : truthy_string (trim s) = true) by (rewrite Hs; reflexivity).
    rewrite Htr, trim_idempotent. cbn [negb].
    destruct (Z.eqb_spec (Js.length (trim s)) 0) as [H0|_]; [lia|].
    destruct (Z.gtb_spec (Js.length (trim s)) 2000) as [Hg|Hle].
    + split; [reflexivity|]. right. exists s.
      split; [reflexivity|]. split; [lia|reflexivity].
    + exists s. split; [reflexivity|]. split; [lia|].
      cbn [PDFGenerator.dflt PDFGenerator.multiPage
           PDFGenerator.pageBreakAfter PDFGenerator.fontType
           PDFGenerator.charsPerRow PDFGenerator.rowCount
           PDFGenerator.practiceMode PDFGenerator.guideOpacity andb].
      subst opts.
      destruct (Routes.practiceMode b) as [| |[|]|m|m]; reflexivity.
Qed.
